(** * QuanBuy shopping-assistant front end: a shallow embedding

    The React components under [src/frontend/src/components] are embedded
    as pure functions on their [useState] cells.  An event handler takes
    the current cells and returns the new cells together with the effects
    it performed (alerts, callbacks to the parent, network calls).  An
    [async] handler is cut at its [await]: one function for the part that
    runs synchronously, one for the continuation that runs when the
    awaited promise settles.

    Platform functions that the components call but that are not part of
    the repository ([new URL], [String.prototype.localeCompare]) are
    parameters of the definitions that use them. *)

From Stdlib Require Import List Bool Arith ZArith NArith QArith Qround Lia Lqa.
From Stdlib Require Import String Ascii.
From Stdlib Require Import Permutation Sorted.
Import ListNotations.

Set Implicit Arguments.
Set Warnings "-register-all".
Local Open Scope N_scope.

(* ================================================================== *)
(** * ECMAScript strings and the [String.prototype] methods in use *)
(* ================================================================== *)

Module Js.

(** A JavaScript string is a sequence of UTF-16 code units. *)
Definition code_unit := N.
Definition jsstring := list code_unit.

(** An ASCII literal of the source text. *)
Definition lit (s : string) : jsstring :=
  List.map N_of_ascii (list_ascii_of_string s).

(** [a === b] on strings. *)
Fixpoint str_eqb (a b : jsstring) : bool :=
  match a, b with
  | [], [] => true
  | x :: a', y :: b' => N.eqb x y && str_eqb a' b'
  | _, _ => false
  end.

(** [ToBoolean] of a string: only the empty string is falsy. *)
Definition truthy (s : jsstring) : bool :=
  match s with [] => false | _ :: _ => true end.

(** ECMAScript [WhiteSpace] and [LineTerminator] code points, the set
    that [String.prototype.trim] strips: TAB, LF, VT, FF, CR, SP, NBSP,
    U+1680, U+2000..U+200A, U+2028, U+2029, U+202F, U+205F, U+3000,
    U+FEFF.  All of them are in the BMP, one code unit each. *)
Definition is_white_space (c : code_unit) : bool :=
  existsb (N.eqb c)
    [9; 10; 11; 12; 13; 32; 160; 5760; 8232; 8233; 8239; 8287; 12288; 65279]
  || ((8192 <=? c) && (c <=? 8202)).

Fixpoint trimStart (s : jsstring) : jsstring :=
  match s with
  | [] => []
  | c :: s' => if is_white_space c then trimStart s' else s
  end.

Definition trimEnd (s : jsstring) : jsstring := rev (trimStart (rev s)).

(** [s.trim()] *)
Definition trim (s : jsstring) : jsstring := trimEnd (trimStart s).

(** [s.startsWith(p)] *)
Fixpoint startsWith (s p : jsstring) : bool :=
  match p, s with
  | [], _ => true
  | x :: p', y :: s' => N.eqb x y && startsWith s' p'
  | _ :: _, [] => false
  end.

(** [s.replace(pat, rep)] with a string pattern: only the first
    occurrence of [pat] is replaced.  [rep] is inserted as it is (the
    replacement strings of the source contain no [$] pattern). *)
Fixpoint replace (s pat rep : jsstring) : jsstring :=
  if startsWith s pat then rep ++ skipn (List.length pat) s
  else match s with
       | [] => []
       | c :: s' => c :: replace s' pat rep
       end.

(** [s.charAt(0)]: the first code unit as a string, or the empty string. *)
Definition charAt0 (s : jsstring) : jsstring := firstn 1 s.

(** [s.slice(1)] *)
Definition slice1 (s : jsstring) : jsstring := skipn 1 s.

(** [s.toUpperCase()] on the ASCII letters.  It is applied in the source
    to the first character of a host name, and the host names that the
    URL parser serialises are ASCII; other code units are left as they
    are. *)
Definition toUpperCase (s : jsstring) : jsstring :=
  List.map (fun c => if (97 <=? c) && (c <=? 122) then c - 32 else c) s.

(** [s.split(",")]: the pieces between the commas, never empty. *)
Fixpoint split_comma (s : jsstring) : list jsstring :=
  match s with
  | [] => [[]]
  | c :: s' =>
      if N.eqb c 44 then [] :: split_comma s'
      else match split_comma s' with
           | [] => [[c]]
           | piece :: pieces => (c :: piece) :: pieces
           end
  end.

(** [ToBoolean] of a cell that holds an object or [null]. *)
Definition present {A : Type} (o : option A) : bool :=
  match o with Some _ => true | None => false end.

(** The outcome of running a piece of code that may throw; of the
    exception only the name of its constructor is kept. *)
Inductive Completion (A : Type) : Type :=
| Normal (a : A)
| Throw (error_name : jsstring).
Arguments Throw {A} _.

(** [s.toLowerCase()] on the ASCII letters; it is what the method does
    to a string of ASCII code units.  Other code units are left as they
    are, and the statements about it are for ASCII strings. *)
Definition toLowerCase (s : jsstring) : jsstring :=
  List.map (fun c => if (65 <=? c) && (c <=? 90) then c + 32 else c) s.

(** [s.includes(pat)] *)
Fixpoint includes (s pat : jsstring) : bool :=
  startsWith s pat
  || match s with
     | [] => false
     | _ :: s' => includes s' pat
     end.

(** [s.split(sep)] for a separator of one code unit. *)
Fixpoint split1 (sep : code_unit) (s : jsstring) : list jsstring :=
  match s with
  | [] => [[]]
  | c :: s' =>
      if N.eqb c sep then [] :: split1 sep s'
      else match split1 sep s' with
           | [] => [[c]]
           | piece :: pieces => (c :: piece) :: pieces
           end
  end.

(** [s.repeat(n)]: a [RangeError] for a negative count. *)
Definition repeat_string (s : jsstring) (n : Z) : Completion jsstring :=
  if (n <? 0)%Z then Throw (lit "RangeError")
  else Normal (List.concat (List.repeat s (Z.to_nat n))).

End Js.

Import Js.

(* ================================================================== *)
(** * ShoppingInput.jsx *)
(* ================================================================== *)

Module ShoppingInput.

(** A store object [{ name, url, icon, custom }].  The popular stores
    have no [custom] property, which reads as falsy. *)
Record Store := mkStore {
  name : jsstring;
  url : jsstring;
  icon : jsstring;
  custom : bool
}.

(** The three values that [setSearchType] is ever called with. *)
Inductive SearchType := type_photo | type_prompt | type_both.

Definition SearchType_eqb (a b : SearchType) : bool :=
  match a, b with
  | type_photo, type_photo | type_prompt, type_prompt
  | type_both, type_both => true
  | _, _ => false
  end.

(** The four [useState] cells of the component. *)
Record State := mkState {
  searchType : SearchType;
  promptText : jsstring;
  selectedStores : list Store;
  draggedUrls : list Store
}.

(** The initial cells: ['photo'], [''], [[]], [[]]. *)
Definition initial : State :=
  {| searchType := type_photo; promptText := [];
     selectedStores := []; draggedUrls := [] |}.

Definition popularStores : list Store :=
  [ mkStore (lit "Amazon") (lit "amazon.com") [55357; 56550] false;
    mkStore (lit "Target") (lit "target.com") [55356; 57263] false;
    mkStore (lit "Walmart") (lit "walmart.com") [55357; 57042] false;
    mkStore (lit "Best Buy") (lit "bestbuy.com") [55357; 56588] false;
    mkStore (lit "Nordstrom") (lit "nordstrom.com") [55357; 56407] false;
    mkStore (lit "Home Depot") (lit "homedepot.com") [55357; 56616] false;
    mkStore (lit "Wayfair") (lit "wayfair.com") [55356; 57312] false;
    mkStore (lit "Etsy") (lit "etsy.com") [55356; 57256] false ].

(** [prev.find(s => s.url === u)] as a truth value: an element was found. *)
Definition has_url (u : jsstring) (stores : list Store) : bool :=
  match find (fun s => str_eqb (url s) u) stores with
  | Some _ => true
  | None => false
  end.

(** The updater that [handleStoreToggle] passes to [setSelectedStores]. *)
Definition toggle (store : Store) (prev : list Store) : list Store :=
  if has_url (url store) prev
  then filter (fun s => negb (str_eqb (url s) (url store))) prev
  else prev ++ [store].

Definition handleStoreToggle (store : Store) (st : State) : State :=
  {| searchType := searchType st; promptText := promptText st;
     selectedStores := toggle store (selectedStores st);
     draggedUrls := draggedUrls st |}.

(** [handleUrlDrop], given the string that
    [e.dataTransfer.getData('text/plain')] returns.  [URL_hostname u] is
    [new URL(u).hostname]: [None] when the constructor throws its
    [TypeError]. *)
Definition handleUrlDrop (URL_hostname : jsstring -> option jsstring)
    (dropped : jsstring) (st : State) : Completion State :=
  if truthy dropped && startsWith dropped (lit "http") then
    match URL_hostname dropped with
    | None => Throw (lit "TypeError")
    | Some hostname =>
        let domain := replace hostname (lit "www.") [] in
        let newStore :=
          {| name := toUpperCase (charAt0 domain) ++ slice1 domain;
             url := domain; icon := [55356; 57104]; custom := true |} in
        if negb (has_url domain (draggedUrls st))
        then Normal {| searchType := searchType st;
                       promptText := promptText st;
                       selectedStores := selectedStores st;
                       draggedUrls := draggedUrls st ++ [newStore] |}
        else Normal st
    end
  else Normal st.

(** The object handed to [onSearchRequest]. *)
Record SearchData := mkSearchData {
  type : SearchType;
  prompt : jsstring;
  stores : list Store
}.

Inductive Effect :=
| Alert (message : jsstring)
| OnSearchRequest (data : SearchData).

(** [handleSearch]: it changes no cell, so only its effects are given. *)
Definition handleSearch (st : State) : list Effect :=
  let allSelectedStores := selectedStores st ++ draggedUrls st in
  if SearchType_eqb (searchType st) type_prompt
     && negb (truthy (trim (promptText st)))
  then [Alert (lit "Please enter what you're looking for")]
  else [OnSearchRequest {| type := searchType st;
                           prompt := promptText st;
                           stores := allSelectedStores |}].

Definition removeCustomStore (storeToRemove : Store) (st : State) : State :=
  {| searchType := searchType st; promptText := promptText st;
     selectedStores := selectedStores st;
     draggedUrls :=
       filter (fun s => negb (str_eqb (url s) (url storeToRemove)))
              (draggedUrls st) |}.

End ShoppingInput.

(* ================================================================== *)
(** * PhotoUpload.jsx *)
(* ================================================================== *)

Module PhotoUpload.

(** What the component reads of a DOM [File]. *)
Record File := mkFile {
  name : jsstring;
  type : jsstring;   (* the MIME type *)
  size : N           (* in bytes *)
}.

(** The object handed to [onPhotoSelect].  [base64] is the second piece
    of [result.split(',')], which is [undefined] ([None]) when the
    string has no comma. *)
Record PhotoData := mkPhotoData {
  file : File;
  base64 : option jsstring;
  preview : jsstring
}.

(** The [useState] cells of the component. *)
Record State := mkState {
  dragOver : bool;
  uploading : bool
}.

Inductive Effect :=
| Alert (message : jsstring)
| ReadAsDataURL (f : File)          (* [reader.readAsDataURL(file)] *)
| OnPhotoSelect (photo : PhotoData).

Definition setUploading (b : bool) (st : State) : State :=
  {| dragOver := dragOver st; uploading := b |}.

(** The size limit of the source, [5 * 1024 * 1024]. *)
Definition size_limit : N := 5 * 1024 * 1024.

(** [handleFileSelect] up to the point where the reader is started.
    Creating a reader and starting it on a file do not throw, so the
    [catch] block of the source is not reached. *)
Definition handleFileSelect (f : File) (st : State) : State * list Effect :=
  if negb (startsWith (type f) (lit "image/")) then
    (st, [Alert (lit "Please select an image file")])
  else if size_limit <? size f then
    (st, [Alert (lit "Image must be smaller than 5MB")])
  else
    (setUploading true st, [ReadAsDataURL f]).

(** The [reader.onload] callback installed by [handleFileSelect f];
    [result] is [e.target.result], the data URL that the reader built. *)
Definition reader_onload (f : File) (result : jsstring) (st : State)
  : State * list Effect :=
  let base64 := nth_error (split_comma result) 1 in
  (setUploading false st,
   [OnPhotoSelect {| file := f; base64 := base64; preview := result |}]).

(** The data URL of a file whose content encodes to [payload]:
    [data:<type>;base64,<payload>]. *)
Definition data_url (f : File) (payload : jsstring) : jsstring :=
  lit "data:" ++ type f ++ lit ";base64," ++ payload.

Definition setDragOver (b : bool) (st : State) : State :=
  {| dragOver := b; uploading := uploading st |}.

Definition handleDragOver (st : State) : State := setDragOver true st.

Definition handleDragLeave (st : State) : State := setDragOver false st.

(** [handleDrop], given [e.dataTransfer.files]. *)
Definition handleDrop (files : list File) (st : State) : State * list Effect :=
  match files with
  | f :: _ => handleFileSelect f (setDragOver false st)
  | [] => (setDragOver false st, [])
  end.

(** [handleInputChange], given [e.target.files]. *)
Definition handleInputChange (files : list File) (st : State)
  : State * list Effect :=
  match files with
  | f :: _ => handleFileSelect f st
  | [] => (st, [])
  end.

(** What the upload area shows. *)
Inductive AreaView :=
| SpinnerView
| PreviewView (currentPhoto : PhotoData)
| PlaceholderView.

Definition area_view (currentPhoto : option PhotoData) (st : State) : AreaView :=
  if uploading st then SpinnerView
  else match currentPhoto with
       | Some p => PreviewView p
       | None => PlaceholderView
       end.

End PhotoUpload.

(* ================================================================== *)
(** * Values exchanged with the back end *)
(* ================================================================== *)

Module Json.

(** The JavaScript values that the request objects are built from. *)
Inductive JsValue :=
| JUndefined
| JString (s : jsstring)
| JArray (items : list JsValue)
| JObject (props : list (jsstring * JsValue)).

(** An object as its own properties in insertion order. *)
Definition JsObject := list (jsstring * JsValue).

(** [key in obj] *)
Definition has_prop (key : jsstring) (obj : JsObject) : bool :=
  existsb (fun kv => str_eqb (fst kv) key) obj.

(** [obj[key] = v]: an existing property is overwritten in place, a new
    one goes to the end. *)
Fixpoint set_prop (key : jsstring) (v : JsValue) (obj : JsObject) : JsObject :=
  match obj with
  | [] => [(key, v)]
  | (k, w) :: obj' =>
      if str_eqb k key then (k, v) :: obj'
      else (k, w) :: set_prop key v obj'
  end.

(** [obj[key]] *)
Fixpoint get_prop (key : jsstring) (obj : JsObject) : JsValue :=
  match obj with
  | [] => JUndefined
  | (k, w) :: obj' => if str_eqb k key then w else get_prop key obj'
  end.

Definition of_option_string (o : option jsstring) : JsValue :=
  match o with Some s => JString s | None => JUndefined end.

(** A JSON text, given by its syntax: what goes over the wire as the
    body of a request. *)
Inductive Json :=
| JsonNull
| JsonString (s : jsstring)
| JsonArray (items : list Json)
| JsonObject (members : list (jsstring * Json)).

(** [SerializeJSONProperty]: the JSON text of a value, [None] for
    [undefined], which has none.  A property whose value is [undefined]
    is left out of the text of its object; an item of an array that is
    [undefined] is written as [null]. *)
Fixpoint stringify (v : JsValue) : option Json :=
  match v with
  | JUndefined => None
  | JString s => Some (JsonString s)
  | JArray items =>
      Some (JsonArray
              (List.map (fun item =>
                           match stringify item with
                           | Some j => j
                           | None => JsonNull
                           end) items))
  | JObject props =>
      Some (JsonObject
              ((fix members (props : list (jsstring * JsValue))
                  : list (jsstring * Json) :=
                  match props with
                  | [] => []
                  | (k, w) :: props' =>
                      match stringify w with
                      | Some j => (k, j) :: members props'
                      | None => members props'
                      end
                  end) props))
  end.

(** [JSON.stringify(obj)] for an object. *)
Definition JSON_stringify (obj : JsObject) : Json :=
  match stringify (JObject obj) with
  | Some j => j
  | None => JsonNull
  end.

(** The value of the member [key] of a JSON object, if it has one. *)
Definition member (key : jsstring) (j : Json) : option Json :=
  match j with
  | JsonObject members =>
      option_map snd (find (fun kv => str_eqb (fst kv) key) members)
  | _ => None
  end.

Definition has_member (key : jsstring) (j : Json) : bool :=
  present (member key j).

(** How a [fetch] followed by [response.json()] can settle.  A body
    that is parsed is an object, which is read through its properties
    (as is a number, a string or [true], all of whose properties that
    are read are [undefined]), or it is one of [null], [false], [0] and
    the empty string, of which the views read only that it is falsy. *)
Inductive Body (R : Type) :=
| Parsed (results : R)
| ParsedFalsy
| ParseError (message : jsstring).   (* [response.json()] rejects *)
Arguments ParsedFalsy {R}.
Arguments ParseError {R} _.

Inductive FetchOutcome (R : Type) :=
| Rejected (message : jsstring)      (* the [fetch] promise rejects *)
| Responded (ok : bool) (statusText : jsstring) (body : Body R).
Arguments Rejected {R} _.

End Json.

Import Json.

(* ================================================================== *)
(** * ECMAScript numbers and [Array.prototype.sort] *)
(* ================================================================== *)

Module JsNumber.

Local Open Scope Q_scope.

(** A Number: [NaN], an infinity, or a finite double, which is given
    by the rational that it is. *)
Inductive number :=
| NaN
| Num (q : Q)
| PosInfinity
| NegInfinity.

(** [a - b].  The difference of two finite doubles is given without
    the rounding of the subtraction: it has the sign of the double that
    the subtraction returns (also where that overflows, and it does not
    underflow to zero), and of a difference only the sign is read in
    this code base. *)
Definition sub (a b : number) : number :=
  match a, b with
  | NaN, _ | _, NaN => NaN
  | Num x, Num y => Num (x - y)
  | PosInfinity, PosInfinity | NegInfinity, NegInfinity => NaN
  | PosInfinity, _ | _, NegInfinity => PosInfinity
  | NegInfinity, _ | _, PosInfinity => NegInfinity
  end.

(** [ToBoolean] of a Number: [0] and [NaN] are falsy. *)
Definition truthy (a : number) : bool :=
  match a with
  | NaN => false
  | Num q => negb (Qeq_bool q 0)
  | PosInfinity | NegInfinity => true
  end.

(** The integer nearest to [n / d], the even one of two that are
    equally near ([0 <= n], [0 < d]). *)
Definition nearest_even (n d : Z) : Z :=
  let q := (n / d)%Z in
  match (2 * (n mod d) ?= d)%Z with
  | Lt => q
  | Gt => (q + 1)%Z
  | Eq => if Z.even q then q else (q + 1)%Z
  end.

(** The [e] with [2^e <= n / d < 2^(e+1)] ([0 < n], [0 < d]). *)
Definition binade (n d : Z) : Z :=
  let e := (Z.log2 n - Z.log2 d)%Z in
  if (if 0 <=? e then d * 2 ^ e <=? n else d <=? n * 2 ^ (- e))%Z
  then e else (e - 1)%Z.

(** The Number value of the rational [n / d] ([0 <= n], [0 < d]): the
    double nearest to it, with 53 bits down to the exponent -1074 of
    the subnormals, the one with the even significand of two that are
    equally near, and [Infinity] from [2^1024] on. *)
Definition to_double (n d : Z) : number :=
  if (n =? 0)%Z then Num 0
  else
    let ex := Z.max (binade n d - 52) (-1074) in
    if (0 <=? ex)%Z then
      let m := nearest_even n (d * 2 ^ ex) in
      if (2 ^ 1024 <=? m * 2 ^ ex)%Z then PosInfinity
      else Num (inject_Z (m * 2 ^ ex))
    else
      let m := nearest_even (n * 2 ^ (- ex)) d in
      Num (m # Z.to_pos (2 ^ (- ex))).

Definition is_digit (c : code_unit) : bool := ((48 <=? c) && (c <=? 57))%N.

(** The longest prefix of decimal digits, and what follows it. *)
Fixpoint span_digits (s : jsstring) : jsstring * jsstring :=
  match s with
  | [] => ([], [])
  | c :: s' =>
      if is_digit c
      then let (ds, rest) := span_digits s' in (c :: ds, rest)
      else ([], s)
  end.

(** The natural number that a string of decimal digits denotes. *)
Definition digits_value (ds : jsstring) : N :=
  fold_left (fun acc c => acc * 10 + (c - 48))%N ds 0%N.

(** [parseFloat(s)] for a string [s] without leading white space, sign,
    exponent part or [Infinity], which is what reaches it in this code
    base (its argument is what is left of a string after everything but
    digits and dots was removed).  The longest prefix of the shape
    [digits], [digits.digits], [digits.] or [.digits] is read, and the
    result is the double nearest to that decimal, as the engines compute
    it (ECMAScript lets an engine disregard the digits behind the 20th
    significant one); [NaN] when there is no such prefix. *)
Definition parseFloat (s : jsstring) : number :=
  let (int_part, rest) := span_digits s in
  let frac_part :=
    match rest with
    | c :: rest' => if N.eqb c 46 then fst (span_digits rest') else []
    | [] => []
    end in
  match int_part ++ frac_part with
  | [] => NaN
  | ds => to_double (Z.of_N (digits_value ds))
                    (10 ^ Z.of_nat (List.length frac_part))
  end.

End JsNumber.

Module JsArray.

Import JsNumber.

Section Sort.

Variable A : Type.
(** The comparator passed to [sort]. *)
Variable comparefn : A -> A -> number.

(** [SortCompare]: the comparator's [NaN] counts as [+0]; [x] has to
    come after [y] when the result is positive. *)
Definition sorts_after (x y : A) : bool :=
  match comparefn x y with
  | NaN => false
  | Num v => match (v ?= 0)%Q with Gt => true | _ => false end
  | PosInfinity => true
  | NegInfinity => false
  end.

(** [x] is put in front of the first element that it does not have to
    come after. *)
Fixpoint insert (x : A) (l : list A) : list A :=
  match l with
  | [] => [x]
  | y :: l' => if sorts_after x y then y :: insert x l' else x :: l
  end.

(** [l.sort(comparefn)].  ECMAScript fixes the result for a consistent
    comparator: the stable sorted arrangement, which this insertion
    sort computes (elements that compare equal keep their order). *)
Fixpoint sort (l : list A) : list A :=
  match l with
  | [] => []
  | x :: l' => insert x (sort l')
  end.

End Sort.

End JsArray.

(* ================================================================== *)
(** * ProductResults.jsx: the result renderer *)
(* ================================================================== *)

Module ProductResults.

Import JsNumber.

Record Product := mkProduct {
  name : jsstring;
  price : jsstring;                 (* display string *)
  original_price : option jsstring;
  discount : option jsstring;
  store : jsstring;
  confidence : Q;
  rating : option Q;
  review_count : option N;
  availability : option jsstring;
  shipping : option jsstring;
  url : jsstring;
  buy_now_url : option jsstring;
  image_url : option jsstring
}.

(** The object in the [results] prop: what [response.json()] gave, or
    the [{ error }] object that the controller builds. *)
Record SearchResult := mkSearchResult {
  products : option (list Product);
  search_query : option jsstring;
  total_found : option N;
  stores_searched : option N;
  error : option jsstring
}.

(** [{ error: message }] *)
Definition error_only (message : jsstring) : SearchResult :=
  {| products := None; search_query := None; total_found := None;
     stores_searched := None; error := Some message |}.

(** The values of the sort [<select>]. *)
Inductive SortBy := relevance | price_low | price_high | by_store.

(** [price.replace(/[^0-9.]/g, '')] *)
Definition strip_non_numeric (s : jsstring) : jsstring :=
  filter (fun c => is_digit c || N.eqb c 46) s.

(** [parseFloat(p.price.replace(/[^0-9.]/g, ''))] *)
Definition price_number (p : Product) : number :=
  parseFloat (strip_non_numeric (price p)).

Section Renderer.

(** [a.localeCompare(b)], the collation of the host's locale: negative,
    zero or positive. *)
Variable localeCompare : jsstring -> jsstring -> Z.

(** The comparator of the [sort] call; the [default] branch of the
    [switch] is the ['relevance'] one. *)
Definition comparator (sortBy : SortBy) (a b : Product) : number :=
  match sortBy with
  | price_low => sub (price_number a) (price_number b)
  | price_high => sub (price_number b) (price_number a)
  | by_store => Num (inject_Z (localeCompare (store a) (store b)))
  | relevance => Num (confidence b - confidence a)
  end.

Definition store_filter (filterStore : jsstring) (p : Product) : bool :=
  str_eqb filterStore (lit "all") || str_eqb (store p) filterStore.

(** [filteredProducts], from the [sortBy] and [filterStore] cells. *)
Definition filteredProducts (sortBy : SortBy) (filterStore : jsstring)
    (ps : list Product) : list Product :=
  JsArray.sort (comparator sortBy) (filter (store_filter filterStore) ps).

End Renderer.

(** Which of the four returns of the component is taken. *)
Inductive View :=
| LoadingView
| EmptyView                          (* [return null] *)
| ErrorView (message : jsstring)     (* with the retry button *)
| GridView (r : SearchResult).

Definition render (results : option SearchResult) (isLoading : bool) : View :=
  if isLoading then LoadingView
  else match results with
       | None => EmptyView
       | Some r =>
           match error r with
           | Some m => if Js.truthy m then ErrorView m else GridView r
           | None => GridView r
           end
       end.

(** [[...new Set(l)]]: the first occurrence of every string, in order. *)
Fixpoint distinct (l : list jsstring) : list jsstring :=
  match l with
  | [] => []
  | x :: l' => x :: filter (fun y => negb (str_eqb y x)) (distinct l')
  end.

(** [availableStores], the options of the store filter after "all". *)
Definition availableStores (ps : list Product) : list jsstring :=
  distinct (List.map store ps).

(** The star character U+2B50 repeated [Math.floor(product.rating)]
    times, as the card of a product with a truthy rating computes it. *)
Definition rating_stars (rating : Q) : Completion jsstring :=
  repeat_string [11088] (Qfloor rating).

(** The count in the rating line, [product.review_count || 0]. *)
Definition reviews_shown (p : Product) : N :=
  match review_count p with
  | Some n => n
  | None => 0
  end.

Inductive AvailabilityClass := in_stock | out_stock.

(** The class of the availability badge. *)
Definition availability_class (availability : jsstring) : AvailabilityClass :=
  if includes (toLowerCase availability) (lit "stock")
  then in_stock else out_stock.

(** Whether the "No products found" block is rendered. *)
Definition no_results_shown (filtered : list Product) : bool :=
  Nat.eqb (List.length filtered) 0.

End ProductResults.

(* ================================================================== *)
(** * QuanBuyApp, product-search variant (with ProductResults.jsx) *)
(* ================================================================== *)

Module SearchApp.

Import ShoppingInput.
Import ProductResults.

(** The [useState] cells of the controller. *)
Record State := mkState {
  photo : option PhotoUpload.PhotoData;
  searchResults : option SearchResult;
  isSearching : bool;
  showPhotoUpload : bool
}.

Definition initial : State :=
  {| photo := None; searchResults := None;
     isSearching := false; showPhotoUpload := true |}.

Inductive Effect :=
| Alert (message : jsstring)
| Fetch (path : jsstring) (body : Json)      (* a POST with this body *)
| ConsoleError (label : jsstring) (message : jsstring).

Definition handlePhotoSelect (photoData : PhotoUpload.PhotoData) (st : State)
  : State :=
  {| photo := Some photoData; searchResults := searchResults st;
     isSearching := isSearching st; showPhotoUpload := showPhotoUpload st |}.

(** The string that a search type stands for in the source. *)
Definition type_string (t : SearchType) : jsstring :=
  match t with
  | type_photo => lit "photo"
  | type_prompt => lit "prompt"
  | type_both => lit "both"
  end.

Definition photo_or_both (t : SearchType) : bool :=
  SearchType_eqb t type_photo || SearchType_eqb t type_both.

Definition prompt_or_both (t : SearchType) : bool :=
  SearchType_eqb t type_prompt || SearchType_eqb t type_both.

(** The [requestBody] object as it stands when [fetch] is called. *)
Definition requestBody (ph : option PhotoUpload.PhotoData) (d : SearchData)
  : JsObject :=
  let body0 : JsObject :=
    [ (lit "search_type", JString (type_string (type d)));
      (lit "user_id", JString (lit "web-user"));
      (lit "stores",
       JArray (List.map (fun s =>
                 JObject [ (lit "name", JString (ShoppingInput.name s));
                           (lit "url", JString (ShoppingInput.url s)) ])
               (stores d))) ] in
  let body1 :=
    match ph with
    | Some p =>
        if photo_or_both (type d)
        then set_prop (lit "image_base64")
                      (of_option_string (PhotoUpload.base64 p)) body0
        else body0
    | None => body0
    end in
  if Js.truthy (prompt d) && prompt_or_both (type d)
  then set_prop (lit "search_prompt") (JString (prompt d)) body1
  else body1.

(** [handleSearchRequest] up to its [await fetch(...)]. *)
Definition handleSearchRequest (searchData : SearchData) (st : State)
  : State * list Effect :=
  if negb (SearchType_eqb (type searchData) type_prompt)
     && negb (present (photo st))
  then (st, [Alert (lit "Please upload a photo for visual search")])
  else
    ({| photo := photo st; searchResults := None;
        isSearching := true; showPhotoUpload := showPhotoUpload st |},
     [Fetch (lit "/api/search-products")
        (JSON_stringify (requestBody (photo st) searchData))]).

(** The [catch] block followed by the [finally] block. *)
Definition caught (message : jsstring) (st : State) : State * list Effect :=
  ({| photo := photo st; searchResults := Some (error_only message);
      isSearching := false; showPhotoUpload := showPhotoUpload st |},
   [ConsoleError (lit "Search error:") message]).

(** The rest of [handleSearchRequest], run when the request settles. *)
Definition handleSearchRequest_settled (outcome : FetchOutcome SearchResult)
    (st : State) : State * list Effect :=
  match outcome with
  | Rejected message => caught message st
  | Responded ok statusText body =>
      if negb ok then caught (lit "Search failed: " ++ statusText) st
      else match body with
           | ParseError message => caught message st
           | Parsed results =>
               ({| photo := photo st; searchResults := Some results;
                   isSearching := false;
                   showPhotoUpload := showPhotoUpload st |}, [])
           | ParsedFalsy =>
               ({| photo := photo st; searchResults := None;
                   isSearching := false;
                   showPhotoUpload := showPhotoUpload st |}, [])
           end
  end.

Definition handleRetry (st : State) : State :=
  {| photo := None; searchResults := None;
     isSearching := isSearching st; showPhotoUpload := true |}.

(** The states of the controller, read off the view that
    [ProductResults] renders for its cells. *)
Inductive Phase := idle | awaiting_response | showing_results | showing_error.

Definition phase (st : State) : Phase :=
  match render (searchResults st) (isSearching st) with
  | LoadingView => awaiting_response
  | EmptyView => idle
  | ErrorView _ => showing_error
  | GridView _ => showing_results
  end.

(** The controller with the [ShoppingInput] that it renders.  The input
    component is rendered unconditionally, so its cells live as long as
    the controller's. *)
Record Page := mkPage {
  app : State;
  input : ShoppingInput.State
}.

(** A click on a retry button of [ProductResults]: [onRetry] is
    [handleRetry], and nothing else runs. *)
Definition retry (pg : Page) : Page :=
  {| app := handleRetry (app pg); input := input pg |}.

(** Effects of [ShoppingInput.handleSearch] with [onSearchRequest] bound
    to [handleSearchRequest], as the controller renders it. *)
Definition run_input_effect (e : ShoppingInput.Effect) (st : State)
  : State * list Effect :=
  match e with
  | ShoppingInput.Alert m => (st, [Alert m])
  | OnSearchRequest d => handleSearchRequest d st
  end.

Fixpoint run_input_effects (es : list ShoppingInput.Effect) (st : State)
  : State * list Effect :=
  match es with
  | [] => (st, [])
  | e :: es' =>
      let (st1, out1) := run_input_effect e st in
      let (st2, out2) := run_input_effects es' st1 in
      (st2, out1 ++ out2)
  end.

(** A click on the search button. *)
Definition submit (pg : Page) : Page * list Effect :=
  let (st', out) := run_input_effects (handleSearch (input pg)) (app pg) in
  ({| app := st'; input := input pg |}, out).

(** The effects of [PhotoUpload], with [onPhotoSelect] bound to
    [handlePhotoSelect]. *)
Fixpoint run_upload_effects (es : list PhotoUpload.Effect) (st : State) : State :=
  match es with
  | [] => st
  | PhotoUpload.OnPhotoSelect photoData :: es' =>
      run_upload_effects es' (handlePhotoSelect photoData st)
  | _ :: es' => run_upload_effects es' st
  end.

(** A file chosen in the [PhotoUpload] that the controller renders:
    [handleFileSelect], then the reader's load with the data URL of the
    file, whose payload is [encode f], the base64 text of its content. *)
Definition choose_file (encode : PhotoUpload.File -> jsstring)
    (f : PhotoUpload.File) (up : PhotoUpload.State) (st : State)
  : PhotoUpload.State * State * list PhotoUpload.Effect :=
  let (up1, es) := PhotoUpload.handleFileSelect f up in
  match es with
  | [PhotoUpload.ReadAsDataURL g] =>
      let (up2, es2) :=
        PhotoUpload.reader_onload g (PhotoUpload.data_url g (encode g)) up1 in
      (up2, run_upload_effects es2 st, es ++ es2)
  | _ => (up1, run_upload_effects es st, es)
  end.

Definition is_fetch (e : Effect) : bool :=
  match e with Fetch _ _ => true | _ => false end.

Definition is_alert (e : Effect) : bool :=
  match e with Alert _ => true | _ => false end.

End SearchApp.

(* ================================================================== *)
(** * AnalysisResults.jsx *)
(* ================================================================== *)

Module AnalysisResults.

Import JsNumber.

Record Recommendation := mkRecommendation {
  id : option jsstring;
  name : jsstring;
  price : jsstring;
  reason : jsstring
}.

(** The object in the [results] prop.  A property that the response
    does not carry reads as [undefined] ([None]). *)
Record AnalysisResult := mkAnalysisResult {
  analysis : option jsstring;
  confidence_score : option Q;
  recommendations : option (list Recommendation);
  persuasion_points : option (list jsstring);
  voice_response : option jsstring;
  error : option jsstring
}.

(** [{ error: message }] *)
Definition error_only (message : jsstring) : AnalysisResult :=
  {| analysis := None; confidence_score := None; recommendations := None;
     persuasion_points := None; voice_response := None;
     error := Some message |}.

(** [results.confidence_score || 0.9]: the left operand when it is
    truthy, else the right one. *)
Definition score_or_default (r : AnalysisResult) : Q :=
  match confidence_score r with
  | Some q => if JsNumber.truthy (Num q) then q else 0.9
  | None => 0.9
  end.

(** Which of the four returns of the component is taken. *)
Inductive View :=
| LoadingView
| EmptyView                          (* the "Ready for ..." placeholder *)
| ErrorView (message : jsstring)     (* with the retry button *)
| TabsView (r : AnalysisResult).

Definition render (results : option AnalysisResult) (isLoading : bool) : View :=
  if isLoading then LoadingView
  else match results with
       | None => EmptyView
       | Some r =>
           match error r with
           | Some m => if Js.truthy m then ErrorView m else TabsView r
           | None => TabsView r
           end
       end.

(** The label count of the products tab,
    [results.recommendations?.length || 0]. *)
Definition recommendations_count (r : AnalysisResult) : nat :=
  match recommendations r with
  | Some recs => List.length recs
  | None => 0
  end.

(** The cards of the products tab; [None] is the "no products"
    placeholder. *)
Definition recommendations_shown (r : AnalysisResult)
  : option (list Recommendation) :=
  match recommendations r with
  | Some recs => if Nat.ltb 0 (List.length recs) then Some recs else None
  | None => None
  end.

(** The three tips that the tips tab falls back on, icon and text. *)
Definition default_tips : list (jsstring * jsstring) :=
  [ ([55357; 56481],
     lit "Confidence is your best accessory - wear your style with pride!");
    ([10024],
     lit "Small details like accessories can transform your entire look");
    ([55356; 57256],
     lit "Color coordination creates visual harmony and sophistication") ].

(** The items of the tips tab, icon and text. *)
Definition tips_shown (r : AnalysisResult) : list (jsstring * jsstring) :=
  match persuasion_points r with
  | Some tips =>
      if Nat.ltb 0 (List.length tips)
      then List.map (fun tip => ([55357; 56481], tip)) tips
      else default_tips
  | None => default_tips
  end.

(** The paragraphs of the analysis tab,
    [results.analysis?.split('\n')]; none when there is no analysis. *)
Definition analysis_paragraphs (r : AnalysisResult) : list jsstring :=
  match analysis r with
  | Some text => split1 10 text
  | None => []
  end.

(** The number in the [width] of the score bar,
    [(results.confidence_score || 0.9) * 100], a percentage. *)
Definition score_fill_width (r : AnalysisResult) : Q :=
  score_or_default r * 100.

End AnalysisResults.

(* ================================================================== *)
(** * VoiceInput (with PhotoUpload.jsx) *)
(* ================================================================== *)

Module VoiceInput.

(** One entry of [event.results]: its [isFinal] flag and the transcript
    of its first alternative. *)
Record SpeechRecognitionResult := mkResult {
  isFinal : bool;
  transcript0 : jsstring
}.

Record SpeechRecognitionEvent := mkEvent {
  resultIndex : nat;
  results : list SpeechRecognitionResult
}.

(** The [useState] cells of the component. *)
Record State := mkState {
  isListening : bool;
  isSupported : bool;
  transcript : jsstring;    (* what is shown under "You said:" *)
  error : jsstring
}.

Inductive Effect :=
| OnVoiceInput (text : jsstring)
| OnTextChange (text : jsstring).

(** The [for] loop of [onresult]: [(interimTranscript, finalTranscript)]
    after the entries [rs] were visited. *)
Fixpoint collect (rs : list SpeechRecognitionResult)
    (interimTranscript finalTranscript : jsstring) : jsstring * jsstring :=
  match rs with
  | [] => (interimTranscript, finalTranscript)
  | r :: rs' =>
      if isFinal r
      then collect rs' interimTranscript (finalTranscript ++ transcript0 r)
      else collect rs' (interimTranscript ++ transcript0 r) finalTranscript
  end.

(** [recognition.onresult], with the [currentText] prop that the effect
    closed over. *)
Definition onresult (currentText : jsstring) (event : SpeechRecognitionEvent)
    (st : State) : State * list Effect :=
  let (interimTranscript, finalTranscript) :=
    collect (skipn (resultIndex event) (results event)) [] [] in
  let fullTranscript :=
    if Js.truthy finalTranscript then finalTranscript else interimTranscript in
  let st' := {| isListening := isListening st; isSupported := isSupported st;
                transcript := fullTranscript; error := error st |} in
  if Js.truthy finalTranscript
  then (st', [OnVoiceInput finalTranscript;
              OnTextChange (currentText ++ lit " " ++ finalTranscript)])
  else (st', []).

(** The cells once the effect has run: [hasSpeechRecognition] tells
    whether the browser has [SpeechRecognition] or its webkit variant,
    and with it whether [recognitionRef.current] is set. *)
Definition mounted (hasSpeechRecognition : bool) : State :=
  if hasSpeechRecognition
  then {| isListening := false; isSupported := true; transcript := [];
          error := [] |}
  else {| isListening := false; isSupported := false; transcript := [];
          error := lit "Speech recognition not supported in this browser" |}.

(** Calls on the recognition object. *)
Inductive Command := RecognitionStart | RecognitionStop | RecognitionAbort.

Definition onstart (st : State) : State :=
  {| isListening := true; isSupported := isSupported st;
     transcript := transcript st; error := [] |}.

(** [recognition.onerror], given [event.error]. *)
Definition onerror (event_error : jsstring) (st : State) : State :=
  {| isListening := false; isSupported := isSupported st;
     transcript := transcript st;
     error := lit "Speech recognition error: " ++ event_error |}.

Definition onend (st : State) : State :=
  {| isListening := false; isSupported := isSupported st;
     transcript := []; error := error st |}.

(** [recognitionRef] tells whether [recognitionRef.current] is set. *)
Definition startListening (recognitionRef : bool) (st : State)
  : State * list Command :=
  if recognitionRef && negb (isListening st)
  then ({| isListening := isListening st; isSupported := isSupported st;
           transcript := transcript st; error := [] |},
        [RecognitionStart])
  else (st, []).

Definition stopListening (recognitionRef : bool) (st : State)
  : State * list Command :=
  if recognitionRef && isListening st then (st, [RecognitionStop])
  else (st, []).

Definition toggleListening (recognitionRef : bool) (st : State)
  : State * list Command :=
  if isListening st then stopListening recognitionRef st
  else startListening recognitionRef st.

(** [disabled={!!error}] on the voice button. *)
Definition voice_button_disabled (st : State) : bool := Js.truthy (error st).

(** A click on the voice button: [toggleListening], unless the button
    is disabled or, in the unsupported view, not there. *)
Definition click_voice (recognitionRef : bool) (st : State)
  : State * list Command :=
  if negb (isSupported st) || voice_button_disabled st then (st, [])
  else toggleListening recognitionRef st.

(** The cleanup of the effect, which React runs before it runs the
    effect again, that is when one of [onVoiceInput], [onTextChange] and
    [currentText] is not what it was at the last rendering. *)
Definition cleanup (recognitionRef : bool) : list Command :=
  if recognitionRef then [RecognitionAbort] else [].

(** Which of the two returns is taken, and in the second one whether
    the transcript and the error block are there. *)
Inductive View :=
| UnsupportedView
| ControlsView (showTranscript showError : bool).

Definition render (st : State) : View :=
  if negb (isSupported st) then UnsupportedView
  else ControlsView (Js.truthy (transcript st)) (Js.truthy (error st)).

End VoiceInput.

(* ================================================================== *)
(** * QuanBuyApp, style-analysis variant (index.js) *)
(* ================================================================== *)

Module AnalysisApp.

Import AnalysisResults.

(** The [useState] cells of the controller. *)
Record State := mkState {
  photo : option PhotoUpload.PhotoData;
  questionText : jsstring;
  occasion : jsstring;
  budget : jsstring;
  analysisResults : option AnalysisResult;
  isAnalyzing : bool
}.

Inductive Effect :=
| Alert (message : jsstring)
| Fetch (path : jsstring) (body : Json)      (* a POST with this body *)
| ConsoleLog (label : jsstring) (message : jsstring)
| ConsoleError (label : jsstring) (message : jsstring).

Definition handleTextChange (text : jsstring) (st : State) : State :=
  {| photo := photo st; questionText := text; occasion := occasion st;
     budget := budget st; analysisResults := analysisResults st;
     isAnalyzing := isAnalyzing st |}.

Definition handleVoiceInput (transcript : jsstring) : list Effect :=
  [ConsoleLog (lit "Voice input received:") transcript].

(** [handleAnalyze] up to its [await fetch(...)]. *)
Definition handleAnalyze (st : State) : State * list Effect :=
  match photo st with
  | Some p =>
      if negb (Js.truthy (trim (questionText st)))
      then (st, [Alert (lit "Please upload a photo and ask a question")])
      else
        ({| photo := photo st; questionText := questionText st;
            occasion := occasion st; budget := budget st;
            analysisResults := analysisResults st; isAnalyzing := true |},
         [Fetch (lit "/api/analyze-style")
            (JSON_stringify
               [ (lit "image_base64",
                  of_option_string (PhotoUpload.base64 p));
                 (lit "user_question", JString (questionText st));
                 (lit "occasion", JString (occasion st));
                 (lit "budget_range", JString (budget st));
                 (lit "user_id", JString (lit "web-user")) ])])
  | None => (st, [Alert (lit "Please upload a photo and ask a question")])
  end.

(** The [catch] block followed by the [finally] block. *)
Definition caught (message : jsstring) (st : State) : State * list Effect :=
  ({| photo := photo st; questionText := questionText st;
      occasion := occasion st; budget := budget st;
      analysisResults := Some (error_only message); isAnalyzing := false |},
   [ConsoleError (lit "Analysis error:") message]).

(** The rest of [handleAnalyze], run when the request settles. *)
Definition handleAnalyze_settled (outcome : FetchOutcome AnalysisResult)
    (st : State) : State * list Effect :=
  match outcome with
  | Rejected message => caught message st
  | Responded ok statusText body =>
      if negb ok then caught (lit "Analysis failed: " ++ statusText) st
      else match body with
           | ParseError message => caught message st
           | Parsed results =>
               ({| photo := photo st; questionText := questionText st;
                   occasion := occasion st; budget := budget st;
                   analysisResults := Some results; isAnalyzing := false |},
                [])
           | ParsedFalsy =>
               ({| photo := photo st; questionText := questionText st;
                   occasion := occasion st; budget := budget st;
                   analysisResults := None; isAnalyzing := false |},
                [])
           end
  end.

Definition handleRetry (st : State) : State :=
  {| photo := None; questionText := []; occasion := []; budget := [];
     analysisResults := None; isAnalyzing := isAnalyzing st |}.

(** [disabled] of the analyze button. *)
Definition analyze_disabled (st : State) : bool :=
  negb (present (photo st))
  || negb (Js.truthy (trim (questionText st)))
  || isAnalyzing st.

Inductive Phase := idle | awaiting_response | showing_results | showing_error.

Definition phase (st : State) : Phase :=
  match render (analysisResults st) (isAnalyzing st) with
  | LoadingView => awaiting_response
  | EmptyView => idle
  | ErrorView _ => showing_error
  | TabsView _ => showing_results
  end.

(** The effects of [VoiceInput], with [onVoiceInput] bound to
    [handleVoiceInput] and [onTextChange] to [handleTextChange]. *)
Fixpoint run_voice_effects (es : list VoiceInput.Effect) (st : State) : State :=
  match es with
  | [] => st
  | VoiceInput.OnVoiceInput _ :: es' => run_voice_effects es' st
  | VoiceInput.OnTextChange text :: es' =>
      run_voice_effects es' (handleTextChange text st)
  end.

(** A speech-recognition result event arriving at the [VoiceInput] that
    the controller renders with [currentText = questionText]. *)
Definition speech_result (event : VoiceInput.SpeechRecognitionEvent)
    (voice : VoiceInput.State) (st : State) : VoiceInput.State * State :=
  let (voice', es) := VoiceInput.onresult (questionText st) event voice in
  (voice', run_voice_effects es st).

(** What that result event does to the recognition object.  When the
    event has changed the question, the controller renders anew; its
    two handlers are new functions then and [currentText] is another
    string, so that the effect of [VoiceInput] runs again, after its
    cleanup. *)
Definition speech_result_cleanup (recognitionRef : bool)
    (event : VoiceInput.SpeechRecognitionEvent)
    (voice : VoiceInput.State) (st : State) : list VoiceInput.Command :=
  if str_eqb (questionText (snd (speech_result event voice st)))
             (questionText st)
  then []
  else VoiceInput.cleanup recognitionRef.

(** A click on the analyze button, which does nothing while the button
    is disabled. *)
Definition click_analyze (st : State) : State * list Effect :=
  if analyze_disabled st then (st, []) else handleAnalyze st.

End AnalysisApp.

(* ================================================================== *)
(** * The product-search page over time *)
(* ================================================================== *)

Module SearchPage.

Import ShoppingInput.
Import ProductResults.
Import SearchApp.

(** A click on the search button of [ShoppingInput], which is rendered
    with [disabled={isLoading}], [isLoading] being the controller's
    [isSearching]. *)
Definition click_search (pg : Page) : Page * list SearchApp.Effect :=
  if isSearching (app pg) then (pg, []) else submit pg.

(** Whether [ProductResults] renders a button bound to [onRetry]: the
    error view and the grid view have one, the loading view and the
    empty view have none. *)
Definition retry_offered (pg : Page) : bool :=
  match render (searchResults (app pg)) (isSearching (app pg)) with
  | ErrorView _ | GridView _ => true
  | LoadingView | EmptyView => false
  end.

Definition click_retry (pg : Page) : Page :=
  if retry_offered pg then retry pg else pg.

(** The page with the number of requests that were sent and have not
    settled yet. *)
Record World := mkWorld {
  page : Page;
  in_flight : nat
}.

Inductive Event :=
| ClickSearch
| ClickRetry
| Settle (outcome : FetchOutcome SearchResult)   (* of a request in flight *)
| PhotoSelected (photoData : PhotoUpload.PhotoData)
| EditInput (edit : ShoppingInput.State -> ShoppingInput.State).
    (* any change of the cells of the input component *)

Definition step (e : Event) (w : World) : World :=
  match e with
  | ClickSearch =>
      let (pg', out) := click_search (page w) in
      {| page := pg';
         in_flight := in_flight w + List.length (filter is_fetch out) |}
  | ClickRetry => {| page := click_retry (page w); in_flight := in_flight w |}
  | Settle outcome =>
      match in_flight w with
      | O => w
      | S n =>
          {| page :=
               {| app := fst (handleSearchRequest_settled outcome
                                (app (page w)));
                  input := input (page w) |};
             in_flight := n |}
      end
  | PhotoSelected photoData =>
      {| page := {| app := handlePhotoSelect photoData (app (page w));
                    input := input (page w) |};
         in_flight := in_flight w |}
  | EditInput edit =>
      {| page := {| app := app (page w); input := edit (input (page w)) |};
         in_flight := in_flight w |}
  end.

Definition run (events : list Event) (w : World) : World :=
  fold_left (fun w' e => step e w') events w.

(** The page as it is mounted. *)
Definition start : World :=
  {| page := {| app := SearchApp.initial; input := ShoppingInput.initial |};
     in_flight := 0 |}.

End SearchPage.

(* ================================================================== *)
(** * deploy-gemini-agent.sh: waiting for the pods *)
(* ================================================================== *)

Module DeployGeminiAgent.

(** What one pass of the loop of step 5 reads: the words of the
    jsonpath output, one [ready] flag per container status, and the
    number of lines of [kubectl get pods --no-headers]. *)
Record Poll := mkPoll {
  ready_flags : list bool;
  pod_lines : nat
}.

(** [grep -o "true" | wc -l] *)
Definition READY (p : Poll) : nat := List.length (filter id (ready_flags p)).

Definition TOTAL (p : Poll) : nat := pod_lines p.

(** The test of the [if]. *)
Definition all_ready (p : Poll) : bool :=
  Nat.eqb (READY p) (TOTAL p) && Nat.ltb 0 (TOTAL p).

(** The lines that the loop echoes; a [Waiting] line is followed by
    [sleep 2]. *)
Inductive Line :=
| AllReady (total : nat)
| Waiting (ready total : nat).

(** The passes [i], [i+1], ... of the loop, [n] of them at most;
    [observe i] is what pass [i] reads. *)
Fixpoint passes (n : nat) (observe : nat -> Poll) (i : nat) : list Line :=
  match n with
  | O => []
  | S n' =>
      if all_ready (observe i) then [AllReady (TOTAL (observe i))]
      else Waiting (READY (observe i)) (TOTAL (observe i))
           :: passes n' observe (S i)
  end.

(** [for i in {1..30}; do ... done] *)
Definition wait_for_pods (observe : nat -> Poll) : list Line :=
  passes 30 observe 1.

(** What both commands read when the pods do not change in between: a
    pod is the list of the [ready] flags of its containers. *)
Definition poll_of (pods : list (list bool)) : Poll :=
  {| ready_flags := List.concat pods; pod_lines := List.length pods |}.

End DeployGeminiAgent.

(* ================================================================== *)
(** * An instance of the platform functions *)
(* ================================================================== *)

(** The components are embedded over any URL parser and any collation.
    This module gives one of each, to run the handlers on examples. *)
Module Platform.

Definition is_alpha (c : code_unit) : bool :=
  ((65 <=? c) && (c <=? 90)) || ((97 <=? c) && (c <=? 122)).

Definition is_scheme_unit (c : code_unit) : bool :=
  is_alpha c || JsNumber.is_digit c || N.eqb c 43 || N.eqb c 45 || N.eqb c 46.

Definition to_lower (c : code_unit) : code_unit :=
  if (65 <=? c) && (c <=? 90) then c + 32 else c.

(** The longest prefix whose code units satisfy [p], and the rest. *)
Fixpoint span (p : code_unit -> bool) (s : jsstring) : jsstring * jsstring :=
  match s with
  | [] => ([], [])
  | c :: s' =>
      if p c then let (a, b) := span p s' in (c :: a, b) else ([], s)
  end.

Fixpoint drop_while (p : code_unit -> bool) (s : jsstring) : jsstring :=
  match s with
  | [] => []
  | c :: s' => if p c then drop_while p s' else s
  end.

(** What the URL parser does to its input first: leading and trailing
    C0 controls and spaces go, then every tab and newline. *)
Definition prepare (u : jsstring) : jsstring :=
  let c0_or_space c := c <=? 32 in
  let s := rev (drop_while c0_or_space (rev (drop_while c0_or_space u))) in
  filter (fun c => negb (N.eqb c 9 || N.eqb c 10 || N.eqb c 13)) s.

(** The scheme in lower case and what follows its colon; [None] when
    the string does not start with a scheme and a colon, which without a
    base URL is a parse failure. *)
Definition parse_scheme (s : jsstring) : option (jsstring * jsstring) :=
  match s with
  | c :: _ =>
      if is_alpha c then
        match span is_scheme_unit s with
        | (scheme, 58 :: rest) => Some (List.map to_lower scheme, rest)
        | _ => None
        end
      else None
  | [] => None
  end.

Definition special_scheme (scheme : jsstring) : bool :=
  existsb (str_eqb scheme)
    [lit "http"; lit "https"; lit "ftp"; lit "ws"; lit "wss"].

(** The last label of a host that is split at its dots. *)
Fixpoint last_label (host label : jsstring) : jsstring :=
  match host with
  | [] => label
  | c :: host' =>
      if N.eqb c 46 then last_label host' [] else last_label host' (label ++ [c])
  end.

(** A host of lower-case letters, digits and dots (not at its ends) whose
    last label starts with a letter: a domain that the host parser
    returns as it is. *)
Definition plain_domain (host : jsstring) : bool :=
  forallb (fun c => ((97 <=? c) && (c <=? 122)) || JsNumber.is_digit c
                    || N.eqb c 46) host
  && match host with c :: _ => negb (N.eqb c 46) | [] => false end
  && match last_label host [] with c :: _ => is_alpha c | [] => false end.

(** [new URL(u).hostname] on a fragment of the URL Standard's parser.
    It agrees with the constructor on the strings that have no scheme
    and colon after [prepare], for which the constructor throws, and on
    the strings [scheme:] + slashes + host + the rest from the first
    [/], [\], [?] or [#], with a scheme among http, https, ftp, ws and
    wss and a host that [plain_domain] accepts once in lower case, for
    which the host name is that host.  On every other string it answers
    [None] too; no statement below is about such a string. *)
Definition URL_hostname (u : jsstring) : option jsstring :=
  match parse_scheme (prepare u) with
  | None => None
  | Some (scheme, rest) =>
      if special_scheme scheme then
        let rest' := drop_while (fun c => N.eqb c 47 || N.eqb c 92) rest in
        let authority :=
          fst (span (fun c => negb (N.eqb c 47 || N.eqb c 92
                                    || N.eqb c 63 || N.eqb c 35)) rest') in
        let host := List.map to_lower authority in
        if plain_domain host then Some host else None
      else None
  end.

(** Comparison of strings code unit by code unit, a proper prefix
    first: the order of [<] on strings, as a collation that tells every
    two different strings apart. *)
Fixpoint code_unit_compare (a b : jsstring) : Z :=
  match a, b with
  | [], [] => 0%Z
  | [], _ :: _ => (-1)%Z
  | _ :: _, [] => 1%Z
  | x :: a', y :: b' =>
      match N.compare x y with
      | Lt => (-1)%Z
      | Gt => 1%Z
      | Eq => code_unit_compare a' b'
      end
  end.

End Platform.

(* ================================================================== *)
(** * Notions and example data for the statements below *)
(* ================================================================== *)

Section StoreToggleNotions.

Import ShoppingInput.

(** The predicate of the [filter] call in [handleStoreToggle]. *)
Definition other_url (s : Store) : Store -> bool :=
  fun x => negb (str_eqb (url x) (url s)).

Definition store_amazon : Store :=
  mkStore (lit "Amazon") (lit "amazon.com") [55357; 56550] false.

Definition store_target : Store :=
  mkStore (lit "Target") (lit "target.com") [55356; 57263] false.

End StoreToggleNotions.

Section SearchFlowNotions.

Import ShoppingInput.
Import ProductResults.
Import SearchApp.

(** The object that [handleSearch] passes to [onSearchRequest]. *)
Definition search_request (st : ShoppingInput.State) : SearchData :=
  {| type := searchType st; prompt := promptText st;
     stores := selectedStores st ++ draggedUrls st |}.

Definition blank_prompt_alert : jsstring :=
  lit "Please enter what you're looking for".

Definition search_path : jsstring := lit "/api/search-products".

Definition example_file : PhotoUpload.File :=
  {| PhotoUpload.name := lit "shoe.png"; PhotoUpload.type := lit "image/png";
     PhotoUpload.size := 2048 |}.

Definition example_photo : PhotoUpload.PhotoData :=
  {| PhotoUpload.file := example_file;
     PhotoUpload.base64 := Some (lit "aGVsbG8=");
     PhotoUpload.preview := lit "data:image/png;base64,aGVsbG8=" |}.

(** Search type ['both'], an empty prompt, a photo uploaded. *)
Definition page_both_empty_prompt : Page :=
  {| app := {| photo := Some example_photo; searchResults := None;
               isSearching := false; showPhotoUpload := true |};
     input := {| searchType := type_both; promptText := [];
                 selectedStores := []; draggedUrls := [] |} |}.

End SearchFlowNotions.

Section RetryNotions.

Import ShoppingInput.
Import SearchApp.

(** The search controller showing an error, with a prompt typed in. *)
Definition page_after_error : Page :=
  {| app := {| photo := Some example_photo;
               searchResults :=
                 Some (ProductResults.error_only (lit "Search failed: Bad Gateway"));
               isSearching := false; showPhotoUpload := true |};
     input := {| searchType := type_both; promptText := lit "red shoes";
                 selectedStores := []; draggedUrls := [] |} |}.

(** The analysis controller showing an error. *)
Definition analysis_after_error : AnalysisApp.State :=
  {| AnalysisApp.photo := Some example_photo;
     AnalysisApp.questionText := lit "How do I look?";
     AnalysisApp.occasion := lit "work";
     AnalysisApp.budget := lit "50-100";
     AnalysisApp.analysisResults :=
       Some (AnalysisResults.error_only (lit "Analysis failed: Bad Gateway"));
     AnalysisApp.isAnalyzing := false |}.

End RetryNotions.

Section DispatchNotions.

Import ShoppingInput.
Import SearchApp.

Definition image_base64_key : jsstring := lit "image_base64".

Definition search_prompt_key : jsstring := lit "search_prompt".

(** A ['prompt'] search made while a photo is uploaded. *)
Definition prompt_search_with_photo : SearchApp.State * SearchData :=
  ({| photo := Some example_photo; searchResults := None;
      isSearching := false; showPhotoUpload := true |},
   {| type := type_prompt; prompt := lit "red shoes";
      stores := [store_amazon] |}).

End DispatchNotions.

Section UploadNotions.

Import PhotoUpload.

(** No comma among the code units of [s]. *)
Definition comma_free (s : jsstring) : bool :=
  forallb (fun c => negb (N.eqb c 44)) s.

(** The photo is one that [PhotoUpload] hands to [onPhotoSelect]: the
    reader of a file has loaded the data URL of that file. *)
Definition handed_by_upload (p : PhotoData) : Prop :=
  exists f payload up,
    snd (reader_onload f (data_url f payload) up) = [OnPhotoSelect p].

End UploadNotions.

Section ConfidenceBarNotions.

Import AnalysisResults.
Local Open Scope Q_scope.

(** An analysis that came back with a confidence of zero. *)
Definition analysis_with_zero_score : AnalysisResult :=
  {| analysis := Some (lit "Nothing in the photo could be matched.");
     confidence_score := Some 0;
     recommendations := Some [];
     persuasion_points := Some [];
     voice_response := None;
     error := None |}.

End ConfidenceBarNotions.

Section SpeechNotions.

Import VoiceInput.

(** The transcripts of the final entries of [rs], in order, run
    together. *)
Definition finals (rs : list SpeechRecognitionResult) : jsstring :=
  List.concat (List.map transcript0 (filter isFinal rs)).

(** The transcripts of the entries of [rs] that are not final. *)
Definition interims (rs : list SpeechRecognitionResult) : jsstring :=
  List.concat (List.map transcript0 (filter (fun r => negb (isFinal r)) rs)).

(** The entries that the loop of [onresult] visits. *)
Definition visited (event : SpeechRecognitionEvent)
  : list SpeechRecognitionResult :=
  skipn (resultIndex event) (results event).

Definition listening : VoiceInput.State :=
  {| isListening := true; isSupported := true; transcript := [];
     error := [] |}.

Definition asking : AnalysisApp.State :=
  {| AnalysisApp.photo := None;
     AnalysisApp.questionText := lit "How do I look";
     AnalysisApp.occasion := []; AnalysisApp.budget := [];
     AnalysisApp.analysisResults := None;
     AnalysisApp.isAnalyzing := false |}.

End SpeechNotions.

Section UrlDropNotions.

Import ShoppingInput.

(** [hostname.replace('www.', '')] *)
Definition domain_of (hostname : jsstring) : jsstring :=
  replace hostname (lit "www.") [].

(** The store object that [handleUrlDrop] builds for a domain. *)
Definition custom_store (domain : jsstring) : Store :=
  {| name := toUpperCase (charAt0 domain) ++ slice1 domain;
     url := domain; icon := [55356; 57104]; custom := true |}.

Definition add_custom (domain : jsstring) (st : State) : State :=
  {| searchType := searchType st; promptText := promptText st;
     selectedStores := selectedStores st;
     draggedUrls := draggedUrls st ++ [custom_store domain] |}.

Definition etsy_link : jsstring := lit "https://www.etsy.com/shop/x".

End UrlDropNotions.

Section ProductOrderNotions.

Import JsNumber JsArray ProductResults.
Local Open Scope Q_scope.






(** The price string has a numeric portion that [parseFloat] reads. *)
Definition priced (p : Product) : Prop := price_number p <> NaN.

Definition simple_product (name price store : jsstring) (confidence : Q)
  : Product :=
  {| name := name; price := price; original_price := None; discount := None;
     store := store; confidence := confidence; rating := None;
     review_count := None; availability := None; shipping := None;
     url := lit "https://example.com/p"; buy_now_url := None;
     image_url := None |}.

(** The three prices of the specification's example, in its order. *)
Definition three_products : list Product :=
  [ simple_product (lit "Boots") (lit "$120.00") (lit "Nordstrom") 0.7;
    simple_product (lit "Socks") (lit "$15.50") (lit "Target") 0.9;
    simple_product (lit "Scarf") (lit "$42") (lit "Amazon") 0.8 ].

End ProductOrderNotions.

Section SelectionNotions.

Import ShoppingInput.
Import SearchApp.

(** Clicks on the buttons of the stores [ss], one after the other. *)
Definition toggles (ss : list Store) (st : ShoppingInput.State)
  : ShoppingInput.State :=
  fold_left (fun st' s => handleStoreToggle s st') ss st.

(** How many of the stores [ss] have the url [u]. *)
Definition clicks_on (u : jsstring) (ss : list Store) : nat :=
  List.length (filter (fun s => str_eqb (url s) u) ss).

(** Whether a click on the search button sends the request: with the
    type ['prompt'] the prompt must not be blank, with the other types a
    photo must be there. *)
Definition will_send (pg : Page) : bool :=
  match searchType (input pg) with
  | type_prompt => negb (forallb is_white_space (promptText (input pg)))
  | _ => present (photo (app pg))
  end.

(** Amazon selected, and a link to Amazon dropped as well. *)
Definition amazon_twice : ShoppingInput.State :=
  {| searchType := type_prompt; promptText := lit "kettle";
     selectedStores := [store_amazon];
     draggedUrls := [custom_store (lit "amazon.com")] |}.

End SelectionNotions.

Section ListeningNotions.

Import VoiceInput.

(** Result events arriving one after the other at the [VoiceInput] of
    the analysis controller, each with the cells that the component has
    when it arrives, and what they make of the controller's cells.  An
    event that commits text ends its session, since the cleanup of the
    effect aborts the recognition; before the next event the user has
    started another one, and the voice cells have changed with that. *)
Fixpoint speech_results
    (events : list (VoiceInput.State * SpeechRecognitionEvent))
    (st : AnalysisApp.State) : AnalysisApp.State :=
  match events with
  | [] => st
  | (voice, event) :: events' =>
      speech_results events'
        (snd (AnalysisApp.speech_result event voice st))
  end.

(** Result events of one session, one after the other, for as long as
    the [currentText] prop is what it was when the session began. *)
Fixpoint results_in_session (currentText : jsstring)
    (events : list SpeechRecognitionEvent) (voice : VoiceInput.State)
  : VoiceInput.State * list Effect :=
  match events with
  | [] => (voice, [])
  | event :: events' =>
      let (voice1, out1) := onresult currentText event voice in
      let (voice2, out2) := results_in_session currentText events' voice1 in
      (voice2, out1 ++ out2)
  end.

(** What a result event adds to the question: a space and its final
    text, or nothing when it has no final text. *)
Definition committed (event : SpeechRecognitionEvent) : jsstring :=
  if Js.truthy (finals (visited event))
  then [32] ++ finals (visited event) else [].

End ListeningNotions.

Section RenderingNotions.

Import JsNumber ProductResults.
Local Open Scope Q_scope.

(** [pieces.join(sep)] for a separator of one code unit. *)
Fixpoint join1 (sep : code_unit) (pieces : list jsstring) : jsstring :=
  match pieces with
  | [] => []
  | piece :: rest =>
      match rest with
      | [] => piece
      | _ :: _ => piece ++ sep :: join1 sep rest
      end
  end.

(** How often the code unit [c] is in [s]. *)
Definition occurrences (c : code_unit) (s : jsstring) : nat :=
  List.length (filter (N.eqb c) s).

(** The price of [p] has a numeric portion, of the value [q]. *)
Definition price_is (q : Q) (p : Product) : bool :=
  match price_number p with
  | Num x => Qeq_bool x q
  | NaN | PosInfinity | NegInfinity => false
  end.

(** The confidence of [p] is [c]. *)
Definition confidence_is (c : Q) (p : Product) : bool :=
  Qeq_bool (confidence p) c.

(** All code units of [s] are ASCII. *)
Definition is_ascii (s : jsstring) : bool := forallb (fun c => c <? 128)%N s.

End RenderingNotions.

Section ControllerNotions.

Import ProductResults.
Import SearchApp.

(** [ToBoolean] of the [error] property of a result. *)
Definition has_error (e : option jsstring) : bool :=
  match e with
  | Some message => Js.truthy message
  | None => false
  end.

(** A page whose search has failed, set to search by photo. *)
Definition photo_page_after_error : Page :=
  {| app := app page_after_error;
     input := {| ShoppingInput.searchType := ShoppingInput.type_photo;
                 ShoppingInput.promptText := [];
                 ShoppingInput.selectedStores := [];
                 ShoppingInput.draggedUrls := [] |} |}.

(** The analysis controller ready to analyze. *)
Definition ready_to_analyze : AnalysisApp.State :=
  {| AnalysisApp.photo := Some example_photo;
     AnalysisApp.questionText := lit "How do I look?";
     AnalysisApp.occasion := lit "work";
     AnalysisApp.budget := [];
     AnalysisApp.analysisResults := None;
     AnalysisApp.isAnalyzing := false |}.

End ControllerNotions.

Section CustomListNotions.

Import ShoppingInput.

(** What happens on the custom-store zone: a string is dropped, or the
    remove button of a store is clicked. *)
Inductive CustomEvent :=
| DropLink (dropped : jsstring)
| RemoveStore (storeToRemove : Store).

(** The cells after one such event; a drop whose handler throws has
    called no setter. *)
Definition custom_step (URL_hostname : jsstring -> option jsstring)
    (e : CustomEvent) (st : State) : State :=
  match e with
  | DropLink dropped =>
      match handleUrlDrop URL_hostname dropped st with
      | Normal st' => st'
      | Throw _ => st
      end
  | RemoveStore storeToRemove => removeCustomStore storeToRemove st
  end.

Definition custom_run (URL_hostname : jsstring -> option jsstring)
    (events : list CustomEvent) (st : State) : State :=
  fold_left (fun st' e => custom_step URL_hostname e st') events st.

(** The store was built by [handleUrlDrop]. *)
Definition built_by_drop (s : Store) : Prop := s = custom_store (url s).

End CustomListNotions.

(* ================================================================== *)
(** * Properties of the string primitives *)
(* ================================================================== *)

Section JsFacts.

Lemma str_eqb_eq (a b : jsstring) : str_eqb a b = true <-> a = b.
Proof.
  revert b; induction a as [|x a IH]; intros [|y b]; simpl;
    try (split; [discriminate | congruence]); try tauto.
  rewrite andb_true_iff, N.eqb_eq, IH.
  split; [intros [-> ->]; reflexivity | intros H; injection H; auto].
Qed.

Lemma str_eqb_refl (a : jsstring) : str_eqb a a = true.
Proof. apply str_eqb_eq; reflexivity. Qed.

Lemma str_eqb_neq (a b : jsstring) : str_eqb a b = false <-> a <> b.
Proof.
  rewrite <- str_eqb_eq. destruct (str_eqb a b); split; congruence.
Qed.

Lemma truthy_false (s : jsstring) : Js.truthy s = false <-> s = [].
Proof. destruct s; simpl; split; congruence. Qed.

Lemma truthy_true (s : jsstring) : Js.truthy s = true <-> s <> [].
Proof. destruct s; simpl; split; congruence. Qed.

(** Stripping leading white space leaves nothing exactly when there is
    nothing else. *)
Lemma trimStart_nil (s : jsstring) :
  trimStart s = [] <-> forallb is_white_space s = true.
Proof.
  induction s as [|c s IH]; simpl; [tauto|].
  destruct (is_white_space c); simpl; [exact IH|].
  split; discriminate.
Qed.

Lemma forallb_rev {A} (f : A -> bool) (l : list A) :
  forallb f (rev l) = forallb f l.
Proof.
  induction l as [|x l IH]; simpl; [reflexivity|].
  rewrite forallb_app, IH; simpl. rewrite andb_true_r, andb_comm. reflexivity.
Qed.

Lemma trimStart_suffix (s : jsstring) :
  exists w, s = w ++ trimStart s /\ forallb is_white_space w = true.
Proof.
  induction s as [|c s [w [E W]]]; simpl.
  - exists []; auto.
  - destruct (is_white_space c) eqn:Hc.
    + exists (c :: w); simpl. rewrite Hc, W. split; [congruence | reflexivity].
    + exists []; auto.
Qed.

(** [s.trim()] is the empty string exactly when [s] is blank. *)
Lemma trim_nil (s : jsstring) :
  trim s = [] <-> forallb is_white_space s = true.
Proof.
  unfold trim, trimEnd. split.
  - intros H.
    assert (H1 : trimStart (rev (trimStart s)) = []).
    { destruct (trimStart (rev (trimStart s))) as [|c l]; [reflexivity|].
      simpl in H. destruct (rev l); discriminate. }
    apply trimStart_nil in H1. rewrite forallb_rev in H1.
    destruct (trimStart_suffix s) as [w [E W]].
    rewrite E, forallb_app, W, H1. reflexivity.
  - intros H. apply trimStart_nil in H. rewrite H. reflexivity.
Qed.

Lemma trim_truthy (s : jsstring) :
  Js.truthy (trim s) = negb (forallb is_white_space s).
Proof.
  destruct (forallb is_white_space s) eqn:H; simpl.
  - apply truthy_false, trim_nil, H.
  - apply truthy_true. intros E. apply trim_nil in E. congruence.
Qed.

End JsFacts.

(* ================================================================== *)
(** * ShoppingInput: the store toggle *)
(* ================================================================== *)

Section StoreToggle.

Import ShoppingInput.

Lemma has_url_false (u : jsstring) (L : list Store) :
  has_url u L = false <-> ~ In u (List.map url L).
Proof.
  unfold has_url. induction L as [|x L IH]; simpl; [tauto|].
  destruct (str_eqb (url x) u) eqn:E.
  - apply str_eqb_eq in E. split; [discriminate | tauto].
  - apply str_eqb_neq in E. rewrite IH. tauto.
Qed.

Lemma has_url_true (u : jsstring) (L : list Store) :
  has_url u L = true <-> In u (List.map url L).
Proof.
  destruct (has_url u L) eqn:E.
  - split; [intros _ | reflexivity].
    destruct (in_dec (list_eq_dec N.eq_dec) u (List.map url L)) as [H|H];
      [exact H|]. apply has_url_false in H. congruence.
  - apply has_url_false in E. split; [discriminate | tauto].
Qed.

Lemma filter_other_url_id (s : Store) (L : list Store) :
  has_url (url s) L = false -> filter (other_url s) L = L.
Proof.
  rewrite has_url_false. unfold other_url.
  induction L as [|x L IH]; simpl; intros H; [reflexivity|].
  destruct (str_eqb (url x) (url s)) eqn:E; simpl.
  - apply str_eqb_eq in E. tauto.
  - f_equal. apply IH. tauto.
Qed.

Lemma has_url_filter_other (s : Store) (L : list Store) :
  has_url (url s) (filter (other_url s) L) = false.
Proof.
  apply has_url_false. rewrite in_map_iff. intros [x [E H]].
  apply filter_In in H. destruct H as [_ H]. unfold other_url in H.
  apply negb_true_iff, str_eqb_neq in H. congruence.
Qed.

Lemma filter_other_url_snoc (s : Store) (L : list Store) :
  filter (other_url s) (L ++ [s]) = filter (other_url s) L.
Proof.
  rewrite filter_app. simpl. unfold other_url at 2.
  rewrite str_eqb_refl. simpl. apply app_nil_r.
Qed.

(** With one entry per url, dropping the entries for [s]'s url and
    putting [s] at the end rearranges a list that holds [s]. *)
Lemma filter_other_url_perm (s : Store) (L : list Store) :
  NoDup (List.map url L) -> In s L ->
  Permutation (filter (other_url s) L ++ [s]) L.
Proof.
  induction L as [|x L IH]; simpl; intros ND HIn; [contradiction|].
  inversion ND as [|u us Hx ND']; subst.
  destruct HIn as [->|HIn].
  - unfold other_url at 1. rewrite str_eqb_refl. simpl.
    rewrite filter_other_url_id by (apply has_url_false; exact Hx).
    symmetry. apply Permutation_cons_append.
  - assert (E : str_eqb (url x) (url s) = false).
    { apply str_eqb_neq. intros E. apply Hx. rewrite E.
      apply in_map. exact HIn. }
    unfold other_url at 1. rewrite E. simpl.
    apply perm_skip. apply IH; assumption.
Qed.

(** C9 (as amended): on a selection with one entry per url, one toggle
    of [s] appends [s] when its url is not selected and otherwise removes
    every entry with that url.  A second toggle of the same store gives
    the selection back when the url was not selected; when it was, the
    entry comes back as [s] at the end of the list, so that the result
    is the original selection rearranged, not the original list. *)
Theorem toggle_twice (L : list Store) (s : Store) :
  NoDup (List.map url L) ->
  (has_url (url s) L = false ->
     toggle s L = L ++ [s] /\ toggle s (toggle s L) = L) /\
  (has_url (url s) L = true ->
     toggle s L = filter (other_url s) L /\
     has_url (url s) (toggle s L) = false /\
     toggle s (toggle s L) = filter (other_url s) L ++ [s]) /\
  (In s L -> Permutation (toggle s (toggle s L)) L).
Proof.
  intros ND.
  assert (Absent : has_url (url s) L = false ->
            toggle s L = L ++ [s] /\ toggle s (toggle s L) = L).
  { intros H. assert (E : toggle s L = L ++ [s]).
    { unfold toggle. rewrite H. reflexivity. }
    rewrite E. split; [reflexivity|].
    assert (H' : has_url (url s) (L ++ [s]) = true).
    { apply has_url_true. rewrite map_app, in_app_iff. right. simpl. auto. }
    unfold toggle. rewrite H'.
    change (filter (other_url s) (L ++ [s]) = L).
    rewrite filter_other_url_snoc. apply filter_other_url_id, H. }
  assert (Selected : has_url (url s) L = true ->
            toggle s L = filter (other_url s) L /\
            has_url (url s) (toggle s L) = false /\
            toggle s (toggle s L) = filter (other_url s) L ++ [s]).
  { intros H. assert (E : toggle s L = filter (other_url s) L).
    { unfold toggle. rewrite H. reflexivity. }
    rewrite E. split; [reflexivity|]. split; [apply has_url_filter_other|].
    unfold toggle. rewrite has_url_filter_other. reflexivity. }
  split; [exact Absent|]. split; [exact Selected|].
  intros HIn.
  assert (H : has_url (url s) L = true).
  { apply has_url_true, in_map, HIn. }
  destruct (Selected H) as [_ [_ ->]].
  apply filter_other_url_perm; assumption.
Qed.

Lemma NoDup_amazon_target :
  NoDup (List.map url [store_amazon; store_target]).
Proof.
  vm_compute. repeat constructor; simpl; intuition discriminate.
Qed.

Lemma toggle_twice_witness :
  Permutation (toggle store_amazon (toggle store_amazon
                 [store_amazon; store_target]))
              [store_amazon; store_target].
Proof.
  apply (toggle_twice [store_amazon; store_target] store_amazon
           NoDup_amazon_target).
  simpl. auto.
Defined.

(** C9 as stated fails: the selection [Amazon; Target] has no duplicate,
    and toggling Amazon twice gives [Target; Amazon]. *)
Lemma toggle_twice_reorders :
  In store_amazon popularStores /\ In store_target popularStores /\
  NoDup [store_amazon; store_target] /\
  NoDup (List.map url [store_amazon; store_target]) /\
  toggle store_amazon (toggle store_amazon [store_amazon; store_target])
    = [store_target; store_amazon] /\
  toggle store_amazon (toggle store_amazon [store_amazon; store_target])
    <> [store_amazon; store_target].
Proof.
  split; [simpl; auto|]. split; [simpl; auto|].
  split; [repeat constructor; simpl; intuition discriminate|].
  split; [exact NoDup_amazon_target|].
  split; [reflexivity | discriminate].
Qed.

End StoreToggle.

(* ================================================================== *)
(** * The product-search controller: submitting, dispatching, retrying *)
(* ================================================================== *)

Section SearchFlow.

Import ShoppingInput.
Import ProductResults.
Import SearchApp.

Lemma handleSearch_prompt (st : ShoppingInput.State) :
  searchType st = type_prompt ->
  handleSearch st =
    if forallb is_white_space (promptText st)
    then [ShoppingInput.Alert blank_prompt_alert]
    else [OnSearchRequest (search_request st)].
Proof.
  intros H. unfold handleSearch, search_request.
  rewrite H, trim_truthy, negb_involutive.
  simpl. destruct (forallb is_white_space (promptText st)); reflexivity.
Qed.

Lemma handleSearch_not_prompt (st : ShoppingInput.State) :
  searchType st <> type_prompt ->
  handleSearch st = [OnSearchRequest (search_request st)].
Proof.
  intros H. unfold handleSearch, search_request.
  destruct (searchType st); simpl; congruence.
Qed.

Lemma handleSearchRequest_dispatches (d : SearchData) (st : SearchApp.State) :
  type d = type_prompt \/ photo st <> None ->
  handleSearchRequest d st =
    ({| photo := photo st; searchResults := None; isSearching := true;
        showPhotoUpload := showPhotoUpload st |},
     [Fetch search_path (JSON_stringify (requestBody (photo st) d))]).
Proof.
  intros H. unfold handleSearchRequest.
  destruct (type d), (photo st); simpl; try reflexivity;
    destruct H; congruence.
Qed.

Lemma submit_request (pg : Page) :
  handleSearch (input pg) = [OnSearchRequest (search_request (input pg))] ->
  submit pg =
    ({| app := fst (handleSearchRequest (search_request (input pg)) (app pg));
        input := input pg |},
     snd (handleSearchRequest (search_request (input pg)) (app pg))).
Proof.
  intros H. unfold submit. rewrite H. simpl.
  destruct (handleSearchRequest _ _) as [st' out]. simpl.
  rewrite app_nil_r. reflexivity.
Qed.

(** C1 (as amended): the prompt text is checked for the search type
    ['prompt'] only, and it is checked for being blank, not for being
    empty.  With type ['prompt'] a prompt that has a character other than
    white space goes to the controller, which sends the request; a blank
    prompt is answered with an alert, no request is sent and no cell
    changes.  With type ['both'] the request goes to the controller
    whatever the prompt text is, and is sent when a photo is there. *)
Theorem prompt_guard (pg : Page) :
  (searchType (input pg) = type_prompt ->
   forallb is_white_space (promptText (input pg)) = false ->
     handleSearch (input pg) = [OnSearchRequest (search_request (input pg))] /\
     snd (submit pg) =
       [Fetch search_path
          (JSON_stringify
             (requestBody (photo (app pg)) (search_request (input pg))))]) /\
  (searchType (input pg) = type_prompt ->
   forallb is_white_space (promptText (input pg)) = true ->
     handleSearch (input pg) = [ShoppingInput.Alert blank_prompt_alert] /\
     submit pg = (pg, [SearchApp.Alert blank_prompt_alert])) /\
  (searchType (input pg) = type_both ->
     handleSearch (input pg) = [OnSearchRequest (search_request (input pg))] /\
     (photo (app pg) <> None ->
      snd (submit pg) =
        [Fetch search_path
           (JSON_stringify
             (requestBody (photo (app pg)) (search_request (input pg))))])).
Proof.
  split; [|split].
  - intros T B. pose proof (handleSearch_prompt (input pg) T) as E.
    rewrite B in E. split; [exact E|].
    rewrite (submit_request pg E). simpl.
    rewrite handleSearchRequest_dispatches by (left; exact T).
    reflexivity.
  - intros T B. pose proof (handleSearch_prompt (input pg) T) as E.
    rewrite B in E. split; [exact E|].
    unfold submit. rewrite E. destruct pg; reflexivity.
  - intros T.
    assert (E : handleSearch (input pg)
                = [OnSearchRequest (search_request (input pg))]).
    { apply handleSearch_not_prompt. congruence. }
    split; [exact E|]. intros P.
    rewrite (submit_request pg E). simpl.
    rewrite handleSearchRequest_dispatches by (right; exact P).
    reflexivity.
Qed.

(** C1 as stated fails for the search type ['both']: with an empty
    prompt and a photo the submission is not blocked, no alert is shown
    and the request is sent. *)
Lemma both_with_empty_prompt_is_sent :
  searchType (input page_both_empty_prompt) = type_both /\
  promptText (input page_both_empty_prompt) = [] /\
  existsb is_alert (snd (submit page_both_empty_prompt)) = false /\
  existsb is_fetch (snd (submit page_both_empty_prompt)) = true /\
  snd (submit page_both_empty_prompt) =
    [Fetch search_path
       (JsonObject
          [ (lit "search_type", JsonString (lit "both"));
            (lit "user_id", JsonString (lit "web-user"));
            (lit "stores", JsonArray []);
            (lit "image_base64", JsonString (lit "aGVsbG8=")) ])].
Proof. repeat split. Qed.

(** A prompt of white space only is not empty, and with the search type
    ['prompt'] it is blocked all the same. *)
Lemma blank_prompt_is_blocked :
  let pg := {| app := SearchApp.initial;
               input := {| searchType := type_prompt;
                           promptText := lit "   ";
                           selectedStores := []; draggedUrls := [] |} |} in
  promptText (input pg) <> [] /\
  submit pg = (pg, [SearchApp.Alert blank_prompt_alert]).
Proof. split; [discriminate | reflexivity]. Qed.

End SearchFlow.

Section Retry.

Import ShoppingInput.
Import SearchApp.

Lemma showing_not_searching (st : SearchApp.State) :
  phase st = showing_results \/ phase st = showing_error ->
  isSearching st = false.
Proof.
  unfold phase, ProductResults.render.
  destruct (isSearching st); [|reflexivity].
  intros [H|H]; discriminate.
Qed.

Lemma analysis_showing_not_analyzing (st : AnalysisApp.State) :
  AnalysisApp.phase st = AnalysisApp.showing_results \/
  AnalysisApp.phase st = AnalysisApp.showing_error ->
  AnalysisApp.isAnalyzing st = false.
Proof.
  unfold AnalysisApp.phase, AnalysisResults.render.
  destruct (AnalysisApp.isAnalyzing st); [|reflexivity].
  intros [H|H]; discriminate.
Qed.

(** C2 (as amended): from the showing-results or the showing-error
    state, retry takes the product-search controller to idle and clears
    the photo and the result (and shows the upload area); the prompt text
    is a cell of the input component, which retry leaves as it is.  In
    the style-analysis controller, which owns the question text, retry
    goes to idle and clears the photo, the question text, the occasion,
    the budget and the result. *)
Theorem retry_returns_to_idle (pg : Page) (st : AnalysisApp.State) :
  phase (app pg) = showing_results \/ phase (app pg) = showing_error ->
  AnalysisApp.phase st = AnalysisApp.showing_results \/
  AnalysisApp.phase st = AnalysisApp.showing_error ->
  (phase (app (retry pg)) = idle /\
   photo (app (retry pg)) = None /\
   searchResults (app (retry pg)) = None /\
   showPhotoUpload (app (retry pg)) = true /\
   input (retry pg) = input pg) /\
  (AnalysisApp.phase (AnalysisApp.handleRetry st) = AnalysisApp.idle /\
   AnalysisApp.photo (AnalysisApp.handleRetry st) = None /\
   AnalysisApp.questionText (AnalysisApp.handleRetry st) = [] /\
   AnalysisApp.occasion (AnalysisApp.handleRetry st) = [] /\
   AnalysisApp.budget (AnalysisApp.handleRetry st) = [] /\
   AnalysisApp.analysisResults (AnalysisApp.handleRetry st) = None).
Proof.
  intros Hs Ha. split.
  - apply showing_not_searching in Hs.
    unfold retry, handleRetry, phase, ProductResults.render; simpl.
    rewrite Hs. repeat split.
  - apply analysis_showing_not_analyzing in Ha.
    unfold AnalysisApp.handleRetry, AnalysisApp.phase, AnalysisResults.render;
      simpl.
    rewrite Ha. repeat split.
Qed.

Lemma retry_returns_to_idle_witness :
  (phase (app (retry page_after_error)) = idle /\
   photo (app (retry page_after_error)) = None /\
   searchResults (app (retry page_after_error)) = None /\
   showPhotoUpload (app (retry page_after_error)) = true /\
   input (retry page_after_error) = input page_after_error) /\
  (AnalysisApp.phase (AnalysisApp.handleRetry analysis_after_error)
     = AnalysisApp.idle /\
   AnalysisApp.photo (AnalysisApp.handleRetry analysis_after_error) = None /\
   AnalysisApp.questionText (AnalysisApp.handleRetry analysis_after_error)
     = [] /\
   AnalysisApp.occasion (AnalysisApp.handleRetry analysis_after_error) = [] /\
   AnalysisApp.budget (AnalysisApp.handleRetry analysis_after_error) = [] /\
   AnalysisApp.analysisResults (AnalysisApp.handleRetry analysis_after_error)
     = None).
Proof.
  apply (retry_returns_to_idle page_after_error analysis_after_error).
  - right. reflexivity.
  - right. reflexivity.
Defined.

(** C2 as stated fails in the product-search controller: after retry
    from the showing-error state the prompt text is still there. *)
Lemma retry_keeps_prompt_text :
  phase (app page_after_error) = showing_error /\
  phase (app (retry page_after_error)) = idle /\
  promptText (input (retry page_after_error)) = lit "red shoes" /\
  promptText (input (retry page_after_error)) <> [].
Proof. repeat split. discriminate. Qed.

End Retry.

Section Dispatch.

Import ShoppingInput.
Import SearchApp.

(** C5: a response with a non-success status leaves in the result cell
    an object whose [error] is the status text behind the handler's
    prefix and which has no other property, and the renderer shows the
    error view with that text; a rejected [fetch] leaves such an object
    with the message of the exception, which is shown in the error view
    unless it is empty.  In both cases the handler runs to its end: the
    loading flag is reset, the message is logged, and the other cells
    are as they were.  The same holds for the style-analysis
    controller. *)
Theorem failed_request_gives_error_result :
  (forall (st : SearchApp.State) (statusText : jsstring) body,
     handleSearchRequest_settled (Responded false statusText body) st =
       ({| photo := photo st;
           searchResults :=
             Some {| ProductResults.products := None;
                     ProductResults.search_query := None;
                     ProductResults.total_found := None;
                     ProductResults.stores_searched := None;
                     ProductResults.error :=
                       Some (lit "Search failed: " ++ statusText) |};
           isSearching := false;
           showPhotoUpload := showPhotoUpload st |},
        [ConsoleError (lit "Search error:")
           (lit "Search failed: " ++ statusText)]) /\
     ProductResults.render
       (searchResults (fst (handleSearchRequest_settled
                              (Responded false statusText body) st)))
       (isSearching (fst (handleSearchRequest_settled
                            (Responded false statusText body) st)))
     = ProductResults.ErrorView (lit "Search failed: " ++ statusText) /\
     phase (fst (handleSearchRequest_settled
                   (Responded false statusText body) st)) = showing_error) /\
  (forall (st : SearchApp.State) (message : jsstring),
     handleSearchRequest_settled (Rejected message) st =
       ({| photo := photo st;
           searchResults :=
             Some {| ProductResults.products := None;
                     ProductResults.search_query := None;
                     ProductResults.total_found := None;
                     ProductResults.stores_searched := None;
                     ProductResults.error := Some message |};
           isSearching := false;
           showPhotoUpload := showPhotoUpload st |},
        [ConsoleError (lit "Search error:") message]) /\
     (message <> [] ->
        ProductResults.render
          (searchResults (fst (handleSearchRequest_settled
                                 (Rejected message) st)))
          (isSearching (fst (handleSearchRequest_settled
                               (Rejected message) st)))
        = ProductResults.ErrorView message)) /\
  (forall (st : AnalysisApp.State) (statusText : jsstring) body,
     AnalysisApp.handleAnalyze_settled (Responded false statusText body) st =
       ({| AnalysisApp.photo := AnalysisApp.photo st;
           AnalysisApp.questionText := AnalysisApp.questionText st;
           AnalysisApp.occasion := AnalysisApp.occasion st;
           AnalysisApp.budget := AnalysisApp.budget st;
           AnalysisApp.analysisResults :=
             Some {| AnalysisResults.analysis := None;
                     AnalysisResults.confidence_score := None;
                     AnalysisResults.recommendations := None;
                     AnalysisResults.persuasion_points := None;
                     AnalysisResults.voice_response := None;
                     AnalysisResults.error :=
                       Some (lit "Analysis failed: " ++ statusText) |};
           AnalysisApp.isAnalyzing := false |},
        [AnalysisApp.ConsoleError (lit "Analysis error:")
           (lit "Analysis failed: " ++ statusText)]) /\
     AnalysisResults.render
       (AnalysisApp.analysisResults
          (fst (AnalysisApp.handleAnalyze_settled
                  (Responded false statusText body) st)))
       (AnalysisApp.isAnalyzing
          (fst (AnalysisApp.handleAnalyze_settled
                  (Responded false statusText body) st)))
     = AnalysisResults.ErrorView (lit "Analysis failed: " ++ statusText) /\
     AnalysisApp.phase
       (fst (AnalysisApp.handleAnalyze_settled
               (Responded false statusText body) st))
       = AnalysisApp.showing_error) /\
  (forall (st : AnalysisApp.State) (message : jsstring),
     AnalysisApp.handleAnalyze_settled (Rejected message) st =
       ({| AnalysisApp.photo := AnalysisApp.photo st;
           AnalysisApp.questionText := AnalysisApp.questionText st;
           AnalysisApp.occasion := AnalysisApp.occasion st;
           AnalysisApp.budget := AnalysisApp.budget st;
           AnalysisApp.analysisResults :=
             Some {| AnalysisResults.analysis := None;
                     AnalysisResults.confidence_score := None;
                     AnalysisResults.recommendations := None;
                     AnalysisResults.persuasion_points := None;
                     AnalysisResults.voice_response := None;
                     AnalysisResults.error := Some message |};
           AnalysisApp.isAnalyzing := false |},
        [AnalysisApp.ConsoleError (lit "Analysis error:") message]) /\
     (message <> [] ->
        AnalysisResults.render
          (AnalysisApp.analysisResults
             (fst (AnalysisApp.handleAnalyze_settled (Rejected message) st)))
          (AnalysisApp.isAnalyzing
             (fst (AnalysisApp.handleAnalyze_settled (Rejected message) st)))
        = AnalysisResults.ErrorView message)).
Proof.
  split; [|split; [|split]].
  - intros st statusText body. repeat split.
  - intros st message. split; [reflexivity|].
    intros N. simpl. unfold ProductResults.render. simpl.
    destruct message as [|c m]; [congruence | reflexivity].
  - intros st statusText body. repeat split.
  - intros st message. split; [reflexivity|].
    intros N. simpl. unfold AnalysisResults.render. simpl.
    destruct message as [|c m]; [congruence | reflexivity].
Qed.

(** A gateway that answers 502, and a network that is down. *)
Example bad_gateway_is_shown :
  let loading := {| photo := None; searchResults := None;
                    isSearching := true; showPhotoUpload := true |} in
  ProductResults.error_only (lit "Search failed: Bad Gateway")
  = {| ProductResults.products := None;
       ProductResults.search_query := None;
       ProductResults.total_found := None;
       ProductResults.stores_searched := None;
       ProductResults.error := Some (lit "Search failed: Bad Gateway") |} /\
  searchResults
    (fst (handleSearchRequest_settled
            (Responded false (lit "Bad Gateway") ParsedFalsy) loading))
  = Some (ProductResults.error_only (lit "Search failed: Bad Gateway")) /\
  searchResults
    (fst (handleSearchRequest_settled (Rejected (lit "Failed to fetch"))
            loading))
  = Some (ProductResults.error_only (lit "Failed to fetch")) /\
  phase (fst (handleSearchRequest_settled (Rejected (lit "Failed to fetch"))
                loading)) = showing_error.
Proof. repeat split. Qed.

Lemma has_prop_set_prop (k k' : jsstring) (v : JsValue) (obj : JsObject) :
  has_prop k (set_prop k' v obj) = str_eqb k' k || has_prop k obj.
Proof.
  induction obj as [|[q w] obj IH]; simpl.
  - rewrite !orb_false_r. reflexivity.
  - destruct (str_eqb q k') eqn:E; simpl.
    + apply str_eqb_eq in E. subst q.
      destruct (str_eqb k' k); reflexivity.
    + rewrite IH. destruct (str_eqb q k), (str_eqb k' k); reflexivity.
Qed.

Lemma photo_or_both_iff (t : SearchType) :
  photo_or_both t = true <-> t = type_photo \/ t = type_both.
Proof.
  destruct t; simpl; split; intros H; try reflexivity; auto;
    try discriminate; destruct H; discriminate.
Qed.

Lemma prompt_or_both_iff (t : SearchType) :
  prompt_or_both t = true <-> t = type_prompt \/ t = type_both.
Proof.
  destruct t; simpl; split; intros H; try reflexivity; auto;
    try discriminate; destruct H; discriminate.
Qed.

(** Which of the two optional properties [requestBody] has. *)
Lemma requestBody_props (ph : option PhotoUpload.PhotoData) (d : SearchData) :
  has_prop image_base64_key (requestBody ph d)
    = present ph && photo_or_both (type d) /\
  has_prop search_prompt_key (requestBody ph d)
    = Js.truthy (prompt d) && prompt_or_both (type d).
Proof.
  unfold requestBody.
  destruct (Js.truthy (prompt d) && prompt_or_both (type d)) eqn:P;
    destruct ph as [p|]; simpl present;
    try destruct (photo_or_both (type d)) eqn:T;
    rewrite ?has_prop_set_prop; split; reflexivity.
Qed.

Lemma split_comma_nonempty (s : jsstring) : split_comma s <> [].
Proof.
  destruct s as [|c s]; simpl; [discriminate|].
  destruct (N.eqb c 44); [discriminate|].
  destruct (split_comma s); discriminate.
Qed.

Lemma split_comma_app (a b : jsstring) :
  comma_free a = true ->
  split_comma (a ++ 44 :: b) = a :: split_comma b.
Proof.
  unfold comma_free. induction a as [|c a IH]; simpl; intros H.
  - reflexivity.
  - apply andb_true_iff in H. destruct H as [Hc Ha].
    apply negb_true_iff in Hc. rewrite Hc, (IH Ha). reflexivity.
Qed.

Lemma split_comma_comma_free (a : jsstring) :
  comma_free a = true -> split_comma a = [a].
Proof.
  unfold comma_free. induction a as [|c a IH]; simpl; intros H.
  - reflexivity.
  - apply andb_true_iff in H. destruct H as [Hc Ha].
    apply negb_true_iff in Hc. rewrite Hc, (IH Ha). reflexivity.
Qed.

(** A string with a comma in it has a second piece. *)
Lemma split_comma_second (a b : jsstring) :
  exists piece, nth_error (split_comma (a ++ 44 :: b)) 1 = Some piece.
Proof.
  induction a as [|c a [piece IH]]; simpl.
  - destruct (split_comma b) as [|p ps] eqn:E.
    + apply split_comma_nonempty in E. contradiction.
    + exists p. reflexivity.
  - destruct (N.eqb c 44).
    + destruct (split_comma (a ++ 44 :: b)) as [|p ps] eqn:E.
      * apply split_comma_nonempty in E. contradiction.
      * exists p. reflexivity.
    + destruct (split_comma (a ++ 44 :: b)) as [|p ps]; [discriminate|].
      exists piece. exact IH.
Qed.

Lemma data_url_shape (f : PhotoUpload.File) (payload : jsstring) :
  PhotoUpload.data_url f payload
  = (lit "data:" ++ PhotoUpload.type f ++ lit ";base64") ++ 44 :: payload.
Proof.
  unfold PhotoUpload.data_url. rewrite <- !app_assoc. reflexivity.
Qed.

(** The two optional members of the body that is sent. *)
Lemma requestBody_members (ph : option PhotoUpload.PhotoData)
    (d : SearchData) :
  member image_base64_key (JSON_stringify (requestBody ph d))
    = match ph with
      | Some p =>
          if photo_or_both (type d)
          then option_map JsonString (PhotoUpload.base64 p) else None
      | None => None
      end /\
  member search_prompt_key (JSON_stringify (requestBody ph d))
    = if Js.truthy (prompt d) && prompt_or_both (type d)
      then Some (JsonString (prompt d)) else None.
Proof.
  unfold requestBody.
  destruct d as [t pr ss]; cbn [type prompt stores].
  destruct ph as [[f [b|] pv]|], t, pr as [|c pr];
    cbn [PhotoUpload.base64]; split; reflexivity.
Qed.

Lemma handed_by_upload_base64 (p : PhotoUpload.PhotoData) :
  handed_by_upload p -> PhotoUpload.base64 p <> None.
Proof.
  intros [f [payload [up H]]].
  destruct (split_comma_second
              (lit "data:" ++ PhotoUpload.type f ++ lit ";base64") payload)
    as [b Hb].
  rewrite <- data_url_shape in Hb.
  unfold PhotoUpload.reader_onload in H. cbn [snd] in H. rewrite Hb in H.
  injection H as <-. discriminate.
Qed.

(** C10: when [handleSearchRequest] sends a request (the type is
    ['prompt'], or a photo is there), the body that goes over the wire
    has the [image_base64] member exactly when a photo with a base64
    payload is there and the type is ['photo'] or ['both'], and its
    value is that payload; every photo that the upload hands over has a
    payload, so that for those the member is there exactly when a photo
    is there and the type is ['photo'] or ['both'].  The body has the
    [search_prompt] member exactly when the prompt is not empty and the
    type is ['prompt'] or ['both'], and its value is the prompt.  So a
    ['prompt'] search carries no image even with a photo uploaded, and a
    ['both'] search with an empty prompt carries no [search_prompt]. *)
Theorem request_optional_fields (st : SearchApp.State) (d : SearchData) :
  type d = type_prompt \/ photo st <> None ->
  exists body,
    snd (handleSearchRequest d st) = [Fetch search_path body] /\
    (has_member image_base64_key body = true <->
       (exists p, photo st = Some p /\ PhotoUpload.base64 p <> None) /\
       (type d = type_photo \/ type d = type_both)) /\
    ((forall p, photo st = Some p -> handed_by_upload p) ->
       (has_member image_base64_key body = true <->
          photo st <> None /\ (type d = type_photo \/ type d = type_both))) /\
    (forall p, photo st = Some p ->
       type d = type_photo \/ type d = type_both ->
       member image_base64_key body
       = option_map JsonString (PhotoUpload.base64 p)) /\
    (has_member search_prompt_key body = true <->
       prompt d <> [] /\ (type d = type_prompt \/ type d = type_both)) /\
    (prompt d <> [] -> type d = type_prompt \/ type d = type_both ->
       member search_prompt_key body = Some (JsonString (prompt d))) /\
    (type d = type_prompt -> has_member image_base64_key body = false) /\
    (type d = type_both -> prompt d = [] ->
       has_member search_prompt_key body = false).
Proof.
  intros H. exists (JSON_stringify (requestBody (photo st) d)).
  rewrite (handleSearchRequest_dispatches d st H).
  destruct (requestBody_members (photo st) d) as [I P].
  unfold has_member. rewrite I, P. clear I P.
  split; [reflexivity|].
  assert (E : has_member image_base64_key
                (JSON_stringify (requestBody (photo st) d)) = true <->
              (exists p, photo st = Some p /\ PhotoUpload.base64 p <> None) /\
              (type d = type_photo \/ type d = type_both)).
  { unfold has_member.
    rewrite (proj1 (requestBody_members (photo st) d)).
    rewrite <- photo_or_both_iff.
    destruct (photo st) as [p|].
    - destruct (photo_or_both (type d)), (PhotoUpload.base64 p) eqn:B;
        simpl; split.
      + intros _. split; [|reflexivity]. exists p. split; congruence.
      + reflexivity.
      + discriminate.
      + intros [[q [Q N]] _]. congruence.
      + discriminate.
      + intros [_ F]. discriminate.
      + discriminate.
      + intros [_ F]. discriminate.
    - simpl. split; [discriminate|]. intros [[q [Q _]] _]. discriminate. }
  unfold has_member in E.
  rewrite (proj1 (requestBody_members (photo st) d)) in E.
  split; [exact E|].
  split.
  { intros U. rewrite E. split.
    - intros [[p [Q _]] T]. split; [congruence | exact T].
    - intros [N T]. split; [|exact T].
      destruct (photo st) as [p|]; [|congruence].
      exists p. split; [reflexivity|].
      apply handed_by_upload_base64, U. reflexivity. }
  split.
  { intros p Q T. apply photo_or_both_iff in T. rewrite Q, T. reflexivity. }
  split.
  { rewrite <- prompt_or_both_iff, <- truthy_true, <- andb_true_iff.
    destruct (Js.truthy (prompt d) && prompt_or_both (type d)); simpl;
      split; congruence. }
  split.
  { intros N T. apply truthy_true in N. apply prompt_or_both_iff in T.
    rewrite N, T. reflexivity. }
  split.
  - intros T. rewrite T. destruct (photo st); reflexivity.
  - intros _ N. rewrite N. reflexivity.
Qed.

Lemma request_optional_fields_witness :
  handed_by_upload example_photo /\
  exists body,
    snd (handleSearchRequest (snd prompt_search_with_photo)
           (fst prompt_search_with_photo)) = [Fetch search_path body] /\
    (has_member image_base64_key body = true <->
       photo (fst prompt_search_with_photo) <> None /\
       (type (snd prompt_search_with_photo) = type_photo \/
        type (snd prompt_search_with_photo) = type_both)) /\
    (has_member search_prompt_key body = true <->
       prompt (snd prompt_search_with_photo) <> [] /\
       (type (snd prompt_search_with_photo) = type_prompt \/
        type (snd prompt_search_with_photo) = type_both)) /\
    has_member image_base64_key body = false /\
    member search_prompt_key body = Some (JsonString (lit "red shoes")).
Proof.
  assert (U : handed_by_upload example_photo).
  { exists example_file, (lit "aGVsbG8="),
      {| PhotoUpload.dragOver := false; PhotoUpload.uploading := true |}.
    reflexivity. }
  split; [exact U|].
  destruct (request_optional_fields (fst prompt_search_with_photo)
              (snd prompt_search_with_photo) (or_introl eq_refl))
    as [body [S [_ [I [_ [P [V [N _]]]]]]]].
  exists body. split; [exact S|].
  split.
  { apply I. intros p Q. injection Q as <-. exact U. }
  split; [exact P|].
  split; [exact (N eq_refl)|].
  apply V; [discriminate | left; reflexivity].
Defined.

(** The request of that search, written out. *)
Example prompt_search_body :
  snd (handleSearchRequest (snd prompt_search_with_photo)
         (fst prompt_search_with_photo)) =
    [Fetch search_path
       (JsonObject
          [ (lit "search_type", JsonString (lit "prompt"));
            (lit "user_id", JsonString (lit "web-user"));
            (lit "stores",
             JsonArray
               [JsonObject [ (lit "name", JsonString (lit "Amazon"));
                             (lit "url", JsonString (lit "amazon.com")) ]]);
            (lit "search_prompt", JsonString (lit "red shoes")) ])].
Proof. reflexivity. Qed.

(** A photo without a payload, which a reader result without a comma
    would give, has no [image_base64] member in the body: the property
    is [undefined], and [JSON.stringify] leaves it out. *)
Example photo_without_payload :
  let p := {| PhotoUpload.file := example_file; PhotoUpload.base64 := None;
              PhotoUpload.preview := lit "data:" |} in
  let d := {| type := type_photo; prompt := []; stores := [] |} in
  snd (PhotoUpload.reader_onload example_file (lit "data:")
         {| PhotoUpload.dragOver := false; PhotoUpload.uploading := true |})
  = [PhotoUpload.OnPhotoSelect p] /\
  has_prop image_base64_key (requestBody (Some p) d) = true /\
  has_member image_base64_key (JSON_stringify (requestBody (Some p) d))
  = false.
Proof. repeat split. Qed.

End Dispatch.

(* ================================================================== *)
(** * PhotoUpload: validation of the chosen file *)
(* ================================================================== *)

Section Upload.

Import PhotoUpload.

Lemma data_url_second (f : File) (payload : jsstring) :
  comma_free (type f) = true -> comma_free payload = true ->
  nth_error (split_comma (data_url f payload)) 1 = Some payload.
Proof.
  intros Ht Hp. rewrite data_url_shape, split_comma_app.
  - simpl. rewrite (split_comma_comma_free _ Hp). reflexivity.
  - unfold comma_free in *. rewrite !forallb_app.
    apply andb_true_iff; split; [reflexivity|].
    apply andb_true_iff; split; [exact Ht | reflexivity].
Qed.

(** C6: a file of an image type of at most 5 MB (5 * 1024 * 1024
    bytes) is accepted: the reader is started, and when it has loaded
    the data URL, a photo with the file, a base64 payload and the
    preview is handed to [onPhotoSelect] and becomes the controller's
    photo.  A file that is not of an image type, or is larger, gets an
    alert and nothing else: the cells of the component and of the
    controller, its photo among them, stay as they were. *)
Theorem file_validation (f : File) (up : PhotoUpload.State)
    (app : SearchApp.State) :
  (startsWith (type f) (lit "image/") = true ->
   (size f <= 5 * 1024 * 1024)%N ->
     handleFileSelect f up = (setUploading true up, [ReadAsDataURL f]) /\
     forall payload, exists b,
       reader_onload f (data_url f payload) (setUploading true up)
         = (setUploading false up,
            [OnPhotoSelect {| file := f; base64 := Some b;
                              preview := data_url f payload |}]) /\
       SearchApp.photo
         (SearchApp.run_upload_effects
            (snd (reader_onload f (data_url f payload)
                    (setUploading true up))) app)
         = Some {| file := f; base64 := Some b;
                   preview := data_url f payload |} /\
       (comma_free (type f) = true -> comma_free payload = true ->
          b = payload)) /\
  (startsWith (type f) (lit "image/") = false \/
   (5 * 1024 * 1024 < size f)%N ->
     exists message,
       handleFileSelect f up = (up, [Alert message]) /\
       SearchApp.run_upload_effects (snd (handleFileSelect f up)) app = app).
Proof.
  split.
  - intros Ht Hs. split.
    + unfold handleFileSelect. rewrite Ht. simpl negb. cbv iota.
      replace (size_limit <? size f)%N with false; [reflexivity|].
      symmetry. apply N.ltb_ge. exact Hs.
    + intros payload.
      destruct (split_comma_second
                  (lit "data:" ++ type f ++ lit ";base64") payload)
        as [b Hb].
      rewrite <- data_url_shape in Hb.
      exists b. unfold reader_onload. rewrite Hb. simpl.
      split; [reflexivity|]. split; [reflexivity|].
      intros Hc Hp. rewrite (data_url_second f payload Hc Hp) in Hb.
      congruence.
  - intros H. unfold handleFileSelect.
    destruct (startsWith (type f) (lit "image/")) eqn:Ht; simpl negb;
      cbv iota.
    + destruct H as [H|H]; [discriminate|].
      apply N.ltb_lt in H. unfold size_limit. rewrite H.
      eexists; split; reflexivity.
    + eexists; split; reflexivity.
Qed.

(** A file of exactly 5 MB passes, a byte more does not. *)
Example five_megabytes_accepted :
  handleFileSelect
    {| name := lit "a.png"; type := lit "image/png"; size := 5242880 |}
    {| dragOver := false; uploading := false |}
  = ({| dragOver := false; uploading := true |},
     [ReadAsDataURL
        {| name := lit "a.png"; type := lit "image/png"; size := 5242880 |}]).
Proof. reflexivity. Qed.

Example over_five_megabytes_rejected :
  handleFileSelect
    {| name := lit "a.png"; type := lit "image/png"; size := 5242881 |}
    {| dragOver := false; uploading := false |}
  = ({| dragOver := false; uploading := false |},
     [Alert (lit "Image must be smaller than 5MB")]).
Proof. reflexivity. Qed.

Example pdf_rejected :
  handleFileSelect
    {| name := lit "a.pdf"; type := lit "application/pdf"; size := 10 |}
    {| dragOver := false; uploading := false |}
  = ({| dragOver := false; uploading := false |},
     [Alert (lit "Please select an image file")]).
Proof. reflexivity. Qed.

Example png_photo_handed_over :
  snd (reader_onload example_file (data_url example_file (lit "aGVsbG8="))
         {| dragOver := false; uploading := true |})
  = [OnPhotoSelect example_photo].
Proof. reflexivity. Qed.

End Upload.

(* ================================================================== *)
(** * AnalysisResults: the confidence bar *)
(* ================================================================== *)

Section ConfidenceBar.

Import AnalysisResults.
Local Open Scope Q_scope.

(** The width for each shape of [confidence_score]. *)
Lemma score_fill_width_cases (r : AnalysisResult) :
  (confidence_score r = None -> score_fill_width r == 90) /\
  (forall q, confidence_score r = Some q -> ~ q == 0 ->
     score_fill_width r == q * 100) /\
  (forall q, confidence_score r = Some q -> q == 0 ->
     score_fill_width r == 90).
Proof.
  unfold score_fill_width, score_or_default, JsNumber.truthy.
  split; [|split].
  - intros ->. reflexivity.
  - intros q -> Hq. destruct (Qeq_bool q 0) eqn:E; simpl.
    + apply Qeq_bool_eq in E. contradiction.
    + reflexivity.
  - intros q -> Hq. apply Qeq_eq_bool in Hq. rewrite Hq. reflexivity.
Qed.

(** C7, at a score that is present and zero: the bar is 90 wide, the
    width of an absent score, and not the 0 that the score times 100
    is.  The [||] of the source takes the default for every falsy score,
    and zero is falsy. *)
Theorem zero_score_gets_default_width :
  confidence_score analysis_with_zero_score = Some 0 /\
  score_fill_width analysis_with_zero_score == 90 /\
  ~ score_fill_width analysis_with_zero_score == 0 * 100.
Proof.
  split; [reflexivity|]. split.
  - apply (proj2 (proj2 (score_fill_width_cases analysis_with_zero_score))
             0 eq_refl). reflexivity.
  - unfold Qeq; simpl. discriminate.
Qed.

End ConfidenceBar.

(* ================================================================== *)
(** * VoiceInput: what a recognition result commits *)
(* ================================================================== *)

Section Speech.

Import VoiceInput.

Lemma collect_spec (rs : list SpeechRecognitionResult) (i f : jsstring) :
  collect rs i f = (i ++ interims rs, f ++ finals rs).
Proof.
  revert i f. induction rs as [|r rs IH]; intros i f; simpl.
  - unfold interims, finals; simpl. rewrite !app_nil_r. reflexivity.
  - unfold interims, finals in *. simpl.
    destruct (isFinal r); simpl; rewrite IH, <- app_assoc; reflexivity.
Qed.

Lemma onresult_final (currentText : jsstring) (event : SpeechRecognitionEvent)
    (voice : VoiceInput.State) :
  finals (visited event) <> [] ->
  onresult currentText event voice =
    ({| isListening := isListening voice; isSupported := isSupported voice;
        transcript := finals (visited event); error := error voice |},
     [OnVoiceInput (finals (visited event));
      OnTextChange (currentText ++ [32] ++ finals (visited event))]).
Proof.
  intros H. unfold onresult. fold (visited event).
  rewrite collect_spec. simpl.
  apply truthy_true in H. rewrite H. reflexivity.
Qed.

Lemma onresult_interim (currentText : jsstring) (event : SpeechRecognitionEvent)
    (voice : VoiceInput.State) :
  finals (visited event) = [] ->
  onresult currentText event voice =
    ({| isListening := isListening voice; isSupported := isSupported voice;
        transcript := interims (visited event); error := error voice |},
     []).
Proof.
  intros H. unfold onresult. fold (visited event).
  rewrite collect_spec. simpl. rewrite H. reflexivity.
Qed.

(** C8: a result event whose visited entries have final text commits
    that text: the prompt becomes the current text, one space (U+0020),
    and the final transcripts, and the final text is what is shown.  An
    event with interim text only shows the interim text and commits
    nothing: [onTextChange] is not called and the prompt stays.  In
    neither case does interim text reach the prompt. *)
Theorem speech_result_commits_final_text
    (event : SpeechRecognitionEvent) (voice : VoiceInput.State)
    (st : AnalysisApp.State) :
  (finals (visited event) <> [] ->
     snd (onresult (AnalysisApp.questionText st) event voice)
       = [OnVoiceInput (finals (visited event));
          OnTextChange (AnalysisApp.questionText st ++ [32]
                          ++ finals (visited event))] /\
     transcript (fst (AnalysisApp.speech_result event voice st))
       = finals (visited event) /\
     AnalysisApp.questionText (snd (AnalysisApp.speech_result event voice st))
       = AnalysisApp.questionText st ++ [32] ++ finals (visited event)) /\
  (finals (visited event) = [] ->
     snd (onresult (AnalysisApp.questionText st) event voice) = [] /\
     transcript (fst (AnalysisApp.speech_result event voice st))
       = interims (visited event) /\
     snd (AnalysisApp.speech_result event voice st) = st).
Proof.
  unfold AnalysisApp.speech_result. split; intros H.
  - rewrite (onresult_final _ _ voice H). simpl. auto.
  - rewrite (onresult_interim _ _ voice H). simpl. auto.
Qed.

(** An event with a final and an interim entry: the final one is
    committed and shown, the interim one is dropped. *)
Example final_and_interim_entries :
  AnalysisApp.speech_result
    {| resultIndex := 1;
       results := [ mkResult true (lit "earlier");
                    mkResult true (lit "in this dress");
                    mkResult false (lit " for wor") ] |}
    listening asking
  = ({| isListening := true; isSupported := true;
        transcript := lit "in this dress"; error := [] |},
     AnalysisApp.handleTextChange (lit "How do I look in this dress") asking).
Proof. reflexivity. Qed.

Example interim_entry_only :
  AnalysisApp.speech_result
    {| resultIndex := 0; results := [ mkResult false (lit "in this dre") ] |}
    listening asking
  = ({| isListening := true; isSupported := true;
        transcript := lit "in this dre"; error := [] |}, asking).
Proof. reflexivity. Qed.

End Speech.

(* ================================================================== *)
(** * ShoppingInput: dropping a URL on the custom-store zone *)
(* ================================================================== *)

Section UrlDrop.

Import ShoppingInput.

(** [new URL(u).hostname], or [None] when the constructor throws. *)
Variable URL_hostname : jsstring -> option jsstring.

Lemma startsWith_truthy (s : jsstring) :
  startsWith s (lit "http") = true -> Js.truthy s = true.
Proof. destruct s; [discriminate | reflexivity]. Qed.

Lemma handleUrlDrop_ignored (dropped : jsstring) (st : State) :
  startsWith dropped (lit "http") = false ->
  handleUrlDrop URL_hostname dropped st = Normal st.
Proof.
  intros H. unfold handleUrlDrop. rewrite H, andb_false_r. reflexivity.
Qed.

Lemma handleUrlDrop_parsed (dropped hostname : jsstring) (st : State) :
  startsWith dropped (lit "http") = true ->
  URL_hostname dropped = Some hostname ->
  handleUrlDrop URL_hostname dropped st =
    if has_url (domain_of hostname) (draggedUrls st)
    then Normal st
    else Normal (add_custom (domain_of hostname) st).
Proof.
  intros H E. unfold handleUrlDrop.
  rewrite H, (startsWith_truthy _ H), E. simpl.
  fold (domain_of hostname).
  destruct (has_url (domain_of hostname) (draggedUrls st)); reflexivity.
Qed.

(** The case that the handler does not guard: the string starts with
    [http] and the constructor throws. *)
Lemma handleUrlDrop_throws (dropped : jsstring) (st : State) :
  startsWith dropped (lit "http") = true ->
  URL_hostname dropped = None ->
  handleUrlDrop URL_hostname dropped st = Throw (lit "TypeError").
Proof.
  intros H E. unfold handleUrlDrop.
  rewrite H, (startsWith_truthy _ H), E. reflexivity.
Qed.

Lemma replace_leading (s pat rep : jsstring) :
  startsWith s pat = true ->
  replace s pat rep = rep ++ skipn (List.length pat) s.
Proof. intros H. destruct s; cbn [replace]; rewrite H; reflexivity. Qed.

(** C3 (as amended): a dropped string that does not start with [http]
    is ignored, whether it is a URL or not: no error, no cell changes.
    A string that starts with [http] and that the URL constructor
    accepts gives a store whose url is the host name without its first
    [www.] (the leading one, when the host name starts with it); the
    store is appended to the custom-store list unless that list has an
    entry with the same url, so a list with one entry per url stays so
    and has an entry for the url afterwards. *)
Theorem url_drop (dropped : jsstring) (st : State) :
  NoDup (List.map url (draggedUrls st)) ->
  (startsWith dropped (lit "http") = false ->
     handleUrlDrop URL_hostname dropped st = Normal st) /\
  (forall hostname,
     startsWith dropped (lit "http") = true ->
     URL_hostname dropped = Some hostname ->
     exists st',
       handleUrlDrop URL_hostname dropped st = Normal st' /\
       (has_url (domain_of hostname) (draggedUrls st) = true -> st' = st) /\
       (has_url (domain_of hostname) (draggedUrls st) = false ->
          st' = add_custom (domain_of hostname) st) /\
       NoDup (List.map url (draggedUrls st')) /\
       In (domain_of hostname) (List.map url (draggedUrls st')) /\
       (startsWith hostname (lit "www.") = true ->
          domain_of hostname = skipn 4 hostname)).
Proof.
  intros ND. split; [apply handleUrlDrop_ignored|].
  intros hostname H E.
  rewrite (@handleUrlDrop_parsed dropped hostname st H E).
  assert (W : startsWith hostname (lit "www.") = true ->
              domain_of hostname = skipn 4 hostname).
  { intros Hw. unfold domain_of.
    rewrite (@replace_leading hostname (lit "www.") [] Hw). reflexivity. }
  destruct (has_url (domain_of hostname) (draggedUrls st)) eqn:D.
  - exists st. repeat split; auto; try discriminate.
    apply has_url_true, D.
  - exists (add_custom (domain_of hostname) st).
    repeat split; auto; try discriminate.
    + simpl. rewrite map_app. simpl.
      apply has_url_false in D.
      apply NoDup_app; [exact ND | repeat constructor; simpl; tauto |].
      intros u Hu [<-|[]]. contradiction.
    + simpl. rewrite map_app, in_app_iff. right. simpl. auto.
Qed.

End UrlDrop.

Section UrlDropExamples.

Import ShoppingInput.

Lemma url_drop_witness :
  exists st',
    handleUrlDrop Platform.URL_hostname etsy_link ShoppingInput.initial
      = Normal st' /\
    (has_url (domain_of (lit "www.etsy.com"))
       (draggedUrls ShoppingInput.initial) = true ->
       st' = ShoppingInput.initial) /\
    (has_url (domain_of (lit "www.etsy.com"))
       (draggedUrls ShoppingInput.initial) = false ->
       st' = add_custom (domain_of (lit "www.etsy.com"))
               ShoppingInput.initial) /\
    NoDup (List.map url (draggedUrls st')) /\
    In (domain_of (lit "www.etsy.com")) (List.map url (draggedUrls st')) /\
    (startsWith (lit "www.etsy.com") (lit "www.") = true ->
       domain_of (lit "www.etsy.com") = skipn 4 (lit "www.etsy.com")).
Proof.
  apply (proj2 (url_drop Platform.URL_hostname etsy_link
                  ShoppingInput.initial (NoDup_nil _))
           (lit "www.etsy.com")).
  - reflexivity.
  - reflexivity.
Defined.

(** The store that the drop of that link adds. *)
Example etsy_link_dropped :
  handleUrlDrop Platform.URL_hostname etsy_link ShoppingInput.initial
  = Normal {| searchType := type_photo; promptText := [];
              selectedStores := [];
              draggedUrls := [ {| name := lit "Etsy.com";
                                  url := lit "etsy.com";
                                  icon := [55356; 57104];
                                  custom := true |} ] |}.
Proof. reflexivity. Qed.

(** It is the first [www.] that goes, wherever it is. *)
Example inner_www_removed :
  domain_of (lit "mywww.example.com") = lit "myexample.com".
Proof. reflexivity. Qed.

(** C3 as stated fails twice.  [ftp://shop.example.com/] is a
    well-formed URL with a host name, and dropping it adds no store: the
    handler looks at strings that start with [http] only.  [httpfoo] is
    no URL, and dropping it is not ignored: the URL constructor throws,
    and the handler with it. *)
Lemma url_drop_not_as_stated :
  Platform.URL_hostname (lit "ftp://shop.example.com/")
    = Some (lit "shop.example.com") /\
  handleUrlDrop Platform.URL_hostname (lit "ftp://shop.example.com/")
    ShoppingInput.initial = Normal ShoppingInput.initial /\
  Platform.URL_hostname (lit "httpfoo") = None /\
  handleUrlDrop Platform.URL_hostname (lit "httpfoo") ShoppingInput.initial
    = Throw (lit "TypeError").
Proof. repeat split. Qed.

End UrlDropExamples.

(* ================================================================== *)
(** * [Array.prototype.sort] with a consistent comparator *)
(* ================================================================== *)

Section SortFacts.

Import JsNumber JsArray.

Variable A : Type.
Variable comparefn : A -> A -> number.

Lemma insert_perm (x : A) (l : list A) :
  Permutation (insert comparefn x l) (x :: l).
Proof.
  induction l as [|y l IH]; simpl; [reflexivity|].
  destruct (sorts_after comparefn x y); [|reflexivity].
  rewrite IH. apply perm_swap.
Qed.

Lemma sort_perm (l : list A) : Permutation (sort comparefn l) l.
Proof.
  induction l as [|x l IH]; simpl; [reflexivity|].
  rewrite insert_perm. apply perm_skip, IH.
Qed.

(** The order that the comparator stands for, on the elements [P] for
    which it is consistent. *)
Variable le : A -> A -> Prop.
Variable P : A -> Prop.
Hypothesis after_le :
  forall x y, P x -> P y -> sorts_after comparefn x y = true -> le y x.
Hypothesis not_after_le :
  forall x y, P x -> P y -> sorts_after comparefn x y = false -> le x y.
Hypothesis le_trans :
  forall x y z, P x -> P y -> P z -> le x y -> le y z -> le x z.

Lemma insert_sorted (x : A) (l : list A) :
  P x -> Forall P l -> StronglySorted le l ->
  StronglySorted le (insert comparefn x l).
Proof.
  intros Px. induction l as [|y l IH]; simpl; intros Pl Sl.
  - constructor; constructor.
  - inversion Pl as [|? ? Py Pl']; subst.
    inversion Sl as [|? ? Sl' Hy]; subst.
    destruct (sorts_after comparefn x y) eqn:E.
    + constructor; [apply IH; assumption|].
      apply Forall_forall. intros z Hz.
      apply (Permutation_in _ (insert_perm x l)) in Hz.
      destruct Hz as [<-|Hz].
      * apply after_le; assumption.
      * rewrite Forall_forall in Hy. apply Hy, Hz.
    + constructor; [exact Sl|].
      assert (Hxy : le x y) by (apply not_after_le; assumption).
      constructor; [exact Hxy|].
      rewrite Forall_forall in *. intros z Hz.
      apply (le_trans Px Py (Pl' z Hz) Hxy), Hy, Hz.
Qed.

Lemma sort_sorted (l : list A) :
  Forall P l -> StronglySorted le (sort comparefn l).
Proof.
  induction l as [|x l IH]; simpl; intros Pl; [constructor|].
  inversion Pl; subst. apply insert_sorted; auto.
  apply Forall_forall. intros z Hz.
  apply (Permutation_in _ (sort_perm l)) in Hz.
  rewrite Forall_forall in *. auto.
Qed.

End SortFacts.

(** The code-unit collation is a consistent comparator. *)
Section CodeUnitCollation.

Import Platform.
Local Open Scope Z_scope.

Lemma code_unit_compare_antisym (a b : jsstring) :
  Z.sgn (code_unit_compare b a) = - Z.sgn (code_unit_compare a b).
Proof.
  revert b. induction a as [|x a IH]; intros [|y b]; simpl; try reflexivity.
  rewrite (N.compare_antisym x y).
  destruct (N.compare x y); simpl; auto.
Qed.

Lemma code_unit_compare_trans (a b c : jsstring) :
  code_unit_compare a b <= 0 -> code_unit_compare b c <= 0 ->
  code_unit_compare a c <= 0.
Proof.
  revert b c. induction a as [|x a IH]; intros [|y b] [|z c]; simpl;
    try lia.
  destruct (N.compare_spec x y) as [Exy|Lxy|Gxy];
    destruct (N.compare_spec y z) as [Eyz|Lyz|Gyz];
    destruct (N.compare_spec x z) as [Exz|Lxz|Gxz];
    try lia; try (subst; lia).
  apply IH.
Qed.


End CodeUnitCollation.

(* ================================================================== *)
(** * JsNumber: rounding to doubles *)
(* ================================================================== *)

Section Doubles.

Import JsNumber.
Local Open Scope Z_scope.

(** [nearest_even n d] is an integer nearest to [n / d]: it is off by
    half a unit at most, and even when it is off by exactly that. *)
Lemma nearest_even_close (n d : Z) :
  0 < d ->
  2 * Z.abs (n - nearest_even n d * d) <= d /\
  (2 * Z.abs (n - nearest_even n d * d) = d ->
   Z.even (nearest_even n d) = true).
Proof.
  intros Hd. unfold nearest_even.
  pose proof (Z.div_mod n d ltac:(lia)) as E.
  pose proof (Z.mod_pos_bound n d Hd) as B.
  destruct (Z.compare_spec (2 * (n mod d)) d) as [C|C|C].
  - destruct (Z.even (n / d)) eqn:V.
    + split; [nia | intros _; exact V].
    + split; [nia|]. intros _. rewrite Z.even_add, V. reflexivity.
  - split; nia.
  - split; nia.
Qed.

(** [binade n d] is the exponent of the power of two at or below
    [n / d]. *)
Lemma binade_bounds (n d : Z) :
  0 < n -> 0 < d ->
  (0 <= binade n d -> d * 2 ^ binade n d <= n < d * 2 ^ (binade n d + 1)) /\
  (binade n d < 0 ->
   d <= n * 2 ^ (- binade n d) /\ n * 2 ^ (- binade n d - 1) < d).
Proof.
  intros Hn Hd. unfold binade.
  destruct (Z.log2_spec n Hn) as [Ln Un].
  destruct (Z.log2_spec d Hd) as [Ld Ud].
  pose proof (Z.log2_nonneg n) as Nn. pose proof (Z.log2_nonneg d) as Nd.
  set (a := Z.log2 n) in *. set (b := Z.log2 d) in *.
  rewrite Z.pow_succ_r in Un, Ud by assumption.
  destruct (0 <=? a - b) eqn:S.
  - apply Z.leb_le in S.
    assert (Pa : 2 ^ a = 2 ^ b * 2 ^ (a - b)).
    { rewrite <- Z.pow_add_r by lia. f_equal. lia. }
    assert (Pp : 0 < 2 ^ (a - b)) by (apply Z.pow_pos_nonneg; lia).
    destruct (d * 2 ^ (a - b) <=? n) eqn:T.
    + apply Z.leb_le in T. split; [|lia]. intros _. split; [exact T|].
      rewrite Z.pow_add_r, Z.pow_1_r by lia. nia.
    + apply Z.leb_gt in T.
      destruct (Z.eq_dec (a - b) 0) as [Z0|Z0].
      * rewrite Z0 in *. simpl in T. split; [lia|]. intros _.
        replace (- (0 - 1)) with 1 by lia.
        replace (- (0 - 1) - 1) with 0 by lia. simpl.
        change (2 ^ 1) with 2. rewrite Z.pow_0_r in Pa. lia.
      * split; [|lia]. intros _.
        replace (a - b - 1 + 1) with (a - b) by lia.
        split; [|exact T].
        assert (Pq : 2 ^ (a - b) = 2 * 2 ^ (a - b - 1)).
        { rewrite <- Z.pow_succ_r by lia. f_equal. lia. }
        assert (Pr : 0 < 2 ^ (a - b - 1)) by (apply Z.pow_pos_nonneg; lia).
        nia.
  - apply Z.leb_gt in S.
    assert (Pb : 2 ^ b = 2 ^ a * 2 ^ (- (a - b))).
    { rewrite <- Z.pow_add_r by lia. f_equal. lia. }
    assert (Pp : 0 < 2 ^ (- (a - b))) by (apply Z.pow_pos_nonneg; lia).
    assert (Pq : 2 ^ (- (a - b)) = 2 * 2 ^ (- (a - b) - 1)).
    { rewrite <- Z.pow_succ_r by lia. f_equal. lia. }
    assert (Pr : 0 < 2 ^ (- (a - b) - 1)) by (apply Z.pow_pos_nonneg; lia).
    destruct (d <=? n * 2 ^ (- (a - b))) eqn:T.
    + apply Z.leb_le in T. split; [lia|]. intros _. split; [exact T|]. nia.
    + apply Z.leb_gt in T. split; [lia|]. intros _.
      replace (- (a - b - 1)) with (- (a - b) + 1) by lia.
      replace (- (a - b) + 1 - 1) with (- (a - b)) by lia.
      split; [|exact T].
      rewrite Z.pow_add_r, Z.pow_1_r by lia. nia.
Qed.

(** Decimals and the doubles that they are read as: a tenth, which is
    no double; integers around 2^53, where every other integer is one;
    the smallest subnormal number; half of it, which is read as zero;
    the largest double; and a decimal that is too large for a double. *)
Example doubles :
  to_double 1 10 = Num (7205759403792794 # 72057594037927936) /\
  to_double 9007199254740993 1 = Num (inject_Z 9007199254740992) /\
  to_double 9007199254740995 1 = Num (inject_Z 9007199254740996) /\
  to_double 5 (10 ^ 324) = Num (1 # Z.to_pos (2 ^ 1074)) /\
  to_double 247 (10 ^ 326) = Num (0 # Z.to_pos (2 ^ 1074)) /\
  to_double (2 ^ 1024 - 2 ^ 970 - 1) 1
  = Num (inject_Z (2 ^ 1024 - 2 ^ 971)) /\
  to_double (2 ^ 1024 - 2 ^ 970) 1 = PosInfinity /\
  to_double (10 ^ 400) 1 = PosInfinity.
Proof. vm_compute. repeat split. Qed.

End Doubles.

(* ================================================================== *)
(** * ProductResults: the order of the product grid *)
(* ================================================================== *)

Section ProductOrder.

Import JsNumber JsArray ProductResults.
Local Open Scope Q_scope.











Section Collation.

Variable localeCompare : jsstring -> jsstring -> Z.
Hypothesis localeCompare_antisym :
  forall a b, Z.sgn (localeCompare b a) = (- Z.sgn (localeCompare a b))%Z.
Hypothesis localeCompare_trans :
  forall a b c, (localeCompare a b <= 0)%Z -> (localeCompare b c <= 0)%Z ->
                (localeCompare a c <= 0)%Z.

Lemma inject_Z_sign (z : Z) :
  (inject_Z z ?= 0) = (z ?= 0)%Z.
Proof. unfold Qcompare; simpl. rewrite Z.mul_1_r. reflexivity. Qed.

Lemma store_sorted (ps : list Product) :
  StronglySorted
    (fun a b => (localeCompare (store a) (store b) <= 0)%Z)
    (sort (fun a b => Num (inject_Z (localeCompare (store a) (store b))))
          ps).
Proof.
  apply (@sort_sorted _ _ _ (fun _ => True)); unfold sorts_after.
  - intros x y _ _. rewrite inject_Z_sign.
    pose proof (localeCompare_antisym (store x) (store y)) as H.
    destruct (Z.compare_spec (localeCompare (store x) (store y)) 0);
      try discriminate. intros _. lia.
  - intros x y _ _. rewrite inject_Z_sign.
    destruct (Z.compare_spec (localeCompare (store x) (store y)) 0);
      try discriminate; intros _; lia.
  - intros x y z _ _ _. apply localeCompare_trans.
  - apply Forall_forall. auto.
Qed.

End Collation.




End ProductOrder.

Section ProductOrderExamples.

Import JsNumber JsArray ProductResults.
Local Open Scope Q_scope.



(** Two prices whose decimals differ and whose doubles are the same are
    a tie, and stay in the order of the response; from 2^53 on the odd
    integers are not doubles. *)
Example equal_doubles_tie :
  let a := simple_product (lit "A") (lit "$9007199254740993") (lit "Etsy") 0.5 in
  let b := simple_product (lit "B") (lit "$9007199254740992") (lit "Etsy") 0.5 in
  price_number a = Num 9007199254740992 /\
  price_number b = Num 9007199254740992 /\
  List.map name
    (filteredProducts Platform.code_unit_compare price_low (lit "all") [a; b])
  = [lit "A"; lit "B"] /\
  List.map name
    (filteredProducts Platform.code_unit_compare price_high (lit "all") [a; b])
  = [lit "A"; lit "B"].
Proof. vm_compute. repeat split. Qed.

(** A price of 400 nines is more than a double can hold: it is [Infinity], and is
    the last under price_low. *)
Example overflowing_price :
  let a := simple_product (lit "A") (List.repeat 57%N 400) (lit "Etsy") 0.5 in
  let b := simple_product (lit "B") (lit "$1") (lit "Etsy") 0.5 in
  price_number a = PosInfinity /\
  List.map name
    (filteredProducts Platform.code_unit_compare price_low (lit "all") [a; b])
  = [lit "B"; lit "A"].
Proof. vm_compute. repeat split. Qed.

(** A collation that does not tell upper case from lower case is a
    consistent comparator too, and the grid is in its order. *)
Example store_order_ignoring_case (ps : list Product) :
  let collation a b :=
    Platform.code_unit_compare (toLowerCase a) (toLowerCase b) in
  StronglySorted (fun a b => (collation (store a) (store b) <= 0)%Z)
    (filteredProducts collation by_store (lit "all") ps) /\
  List.map store
    (filteredProducts collation by_store (lit "all")
       [simple_product (lit "Hat") (lit "$1") (lit "Target") 0.5;
        simple_product (lit "Cap") (lit "$2") (lit "amazon") 0.5])
  = [lit "amazon"; lit "Target"] /\
  List.map store
    (filteredProducts Platform.code_unit_compare by_store (lit "all")
       [simple_product (lit "Hat") (lit "$1") (lit "Target") 0.5;
        simple_product (lit "Cap") (lit "$2") (lit "amazon") 0.5])
  = [lit "Target"; lit "amazon"].
Proof.
  intros collation. split; [|split; vm_compute; reflexivity].
  apply store_sorted.
  - intros a b. apply code_unit_compare_antisym.
  - intros a b c. apply code_unit_compare_trans.
Qed.

Example price_high_example :
  List.map price
    (filteredProducts Platform.code_unit_compare price_high (lit "all")
       three_products)
  = [lit "$120.00"; lit "$42"; lit "$15.50"].
Proof. vm_compute. reflexivity. Qed.

Example relevance_example :
  List.map name
    (filteredProducts Platform.code_unit_compare relevance (lit "all")
       three_products)
  = [lit "Socks"; lit "Scarf"; lit "Boots"].
Proof. vm_compute. reflexivity. Qed.

Example store_example :
  List.map store
    (filteredProducts Platform.code_unit_compare by_store (lit "all")
       three_products)
  = [lit "Amazon"; lit "Nordstrom"; lit "Target"].
Proof. vm_compute. reflexivity. Qed.

Example store_filter_example :
  List.map name
    (filteredProducts Platform.code_unit_compare price_low (lit "Target")
       three_products)
  = [lit "Socks"].
Proof. vm_compute. reflexivity. Qed.

(** Currency sign and thousands separator go before the number is read. *)
Example price_number_example :
  price_number (simple_product (lit "Sofa") (lit "$1,299.99") (lit "Wayfair") 0.5)
  = Num (5717416483970089 # 4398046511104).
Proof. vm_compute. reflexivity. Qed.

End ProductOrderExamples.

(* ================================================================== *)
(** * ShoppingInput: the selection over many clicks *)
(* ================================================================== *)

Section Selection.

Import ShoppingInput.
Import SearchApp.

Lemma has_url_app (u : jsstring) (A B : list Store) :
  has_url u (A ++ B) = has_url u A || has_url u B.
Proof.
  unfold has_url. induction A as [|x A IH]; simpl; [reflexivity|].
  destruct (str_eqb (url x) u); [reflexivity | exact IH].
Qed.

Lemma has_url_filter_other_neq (u : jsstring) (s : Store) (L : list Store) :
  str_eqb u (url s) = false ->
  has_url u (filter (other_url s) L) = has_url u L.
Proof.
  intros Hu. unfold has_url, other_url.
  induction L as [|x L IH]; simpl; [reflexivity|].
  destruct (str_eqb (url x) (url s)) eqn:E; simpl.
  - apply str_eqb_eq in E. apply str_eqb_neq in Hu.
    destruct (str_eqb (url x) u) eqn:E'.
    + apply str_eqb_eq in E'. congruence.
    + exact IH.
  - destruct (str_eqb (url x) u); [reflexivity | exact IH].
Qed.

Lemma str_eqb_sym (a b : jsstring) : str_eqb a b = str_eqb b a.
Proof.
  destruct (str_eqb a b) eqn:E.
  - apply str_eqb_eq in E. subst. symmetry. apply str_eqb_refl.
  - apply str_eqb_neq in E. symmetry. apply str_eqb_neq. congruence.
Qed.

Lemma toggle_has_url (s : Store) (L : list Store) (u : jsstring) :
  has_url u (toggle s L) = xorb (has_url u L) (str_eqb u (url s)).
Proof.
  unfold toggle. destruct (has_url (url s) L) eqn:H.
  - change (filter _ L) with (filter (other_url s) L).
    destruct (str_eqb u (url s)) eqn:E.
    + apply str_eqb_eq in E. subst u.
      rewrite has_url_filter_other, H. reflexivity.
    + rewrite xorb_false_r. apply has_url_filter_other_neq, E.
  - rewrite has_url_app. unfold has_url at 2. simpl.
    rewrite (str_eqb_sym (url s) u).
    destruct (str_eqb u (url s)) eqn:E.
    + apply str_eqb_eq in E. subst u. rewrite H. reflexivity.
    + rewrite xorb_false_r. apply orb_false_r.
Qed.

(** X1: a click on a store button flips whether that store's url is
    selected, and leaves every other url selected or not as it was. *)
Theorem toggle_flips_selection (s : Store) (L : list Store) (u : jsstring) :
  has_url u (toggle s L)
  = if str_eqb u (url s) then negb (has_url u L) else has_url u L.
Proof.
  rewrite toggle_has_url.
  destruct (str_eqb u (url s)), (has_url u L); reflexivity.
Qed.

Lemma toggle_NoDup (s : Store) (L : list Store) :
  NoDup (List.map url L) -> NoDup (List.map url (toggle s L)).
Proof.
  intros ND. unfold toggle. destruct (has_url (url s) L) eqn:H.
  - clear H. induction L as [|x L IH]; simpl; [constructor|].
    inversion ND as [|? ? Hx ND']; subst.
    destruct (negb (str_eqb (url x) (url s))); simpl; [|auto].
    constructor; [|auto].
    rewrite in_map_iff. intros [y [Ey Hy]]. apply filter_In in Hy.
    apply Hx. rewrite <- Ey. apply in_map, Hy.
  - apply has_url_false in H. rewrite map_app. simpl.
    apply NoDup_app; [exact ND | repeat constructor; simpl; tauto |].
    intros v Hv [<-|[]]. contradiction.
Qed.

Lemma toggles_cells (ss : list Store) (st : ShoppingInput.State) :
  searchType (toggles ss st) = searchType st /\
  promptText (toggles ss st) = promptText st /\
  draggedUrls (toggles ss st) = draggedUrls st.
Proof.
  revert st. induction ss as [|s ss IH]; intros st; simpl; [auto|].
  destruct (IH (handleStoreToggle s st)) as [A [B C]].
  unfold toggles in *. rewrite A, B, C. auto.
Qed.

Lemma toggles_selected (ss : list Store) (st : ShoppingInput.State)
    (u : jsstring) :
  has_url u (selectedStores (toggles ss st))
  = xorb (has_url u (selectedStores st)) (Nat.odd (clicks_on u ss)).
Proof.
  revert st. induction ss as [|s ss IH]; intros st.
  - simpl. rewrite xorb_false_r. reflexivity.
  - change (toggles (s :: ss) st) with (toggles ss (handleStoreToggle s st)).
    rewrite IH. simpl selectedStores. rewrite toggle_has_url.
    unfold clicks_on. simpl filter. rewrite (str_eqb_sym (url s) u).
    destruct (str_eqb u (url s)); simpl List.length.
    + rewrite Nat.odd_succ, <- Nat.negb_odd.
      destruct (has_url u (selectedStores st)), (Nat.odd _); reflexivity.
    + rewrite xorb_false_r. reflexivity.
Qed.

(** X2: after any clicks on store buttons, starting with nothing
    selected, the selection has one entry per url, and a url is selected
    exactly when the buttons of that url were clicked an odd number of
    times; the other cells of the component are as they were. *)
Theorem selection_after_clicks (ss : list Store) :
  NoDup (List.map url (selectedStores (toggles ss ShoppingInput.initial))) /\
  (forall u,
     has_url u (selectedStores (toggles ss ShoppingInput.initial))
     = Nat.odd (clicks_on u ss)) /\
  searchType (toggles ss ShoppingInput.initial) = type_photo /\
  promptText (toggles ss ShoppingInput.initial) = [] /\
  draggedUrls (toggles ss ShoppingInput.initial) = [].
Proof.
  split; [|split].
  - assert (G : forall st, NoDup (List.map url (selectedStores st)) ->
                NoDup (List.map url (selectedStores (toggles ss st)))).
    { induction ss as [|s ss IH]; intros st ND; simpl; [exact ND|].
      apply IH. simpl. apply toggle_NoDup, ND. }
    apply G. constructor.
  - intros u. rewrite toggles_selected. reflexivity.
  - apply (toggles_cells ss ShoppingInput.initial).
Qed.

End Selection.

Section CustomStores.

Import ShoppingInput.
Import SearchApp.

Lemma filter_other_url_custom (domain : jsstring) (L : list Store) :
  has_url domain L = false ->
  filter (other_url (custom_store domain)) (L ++ [custom_store domain]) = L.
Proof.
  intros H. rewrite filter_other_url_snoc.
  apply filter_other_url_id. exact H.
Qed.

(** X3: when a dropped link has added a custom store, a click on the
    remove button of that store gives back the cells as they were before
    the drop; and after a removal no custom store with the removed url
    is left, whatever the list was. *)
Theorem remove_undoes_drop (URL_hostname : jsstring -> option jsstring)
    (dropped hostname : jsstring) (st : ShoppingInput.State)
    (storeToRemove : Store) :
  startsWith dropped (lit "http") = true ->
  URL_hostname dropped = Some hostname ->
  has_url (domain_of hostname) (draggedUrls st) = false ->
  (exists st',
     handleUrlDrop URL_hostname dropped st = Normal st' /\
     has_url (domain_of hostname) (draggedUrls st') = true /\
     removeCustomStore (custom_store (domain_of hostname)) st' = st) /\
  has_url (url storeToRemove)
    (draggedUrls (removeCustomStore storeToRemove st)) = false.
Proof.
  intros H E D. split.
  - exists (add_custom (domain_of hostname) st).
    rewrite (@handleUrlDrop_parsed URL_hostname dropped hostname st H E), D.
    split; [reflexivity|]. split.
    + simpl. rewrite has_url_app. unfold has_url at 2. simpl.
      rewrite str_eqb_refl. apply orb_true_r.
    + unfold removeCustomStore, add_custom. simpl.
      change (filter _ (draggedUrls st ++ _))
        with (filter (other_url (custom_store (domain_of hostname)))
                (draggedUrls st ++ [custom_store (domain_of hostname)])).
      rewrite (filter_other_url_custom _ _ D). destruct st; reflexivity.
  - simpl. apply has_url_filter_other.
Qed.

Lemma remove_undoes_drop_witness :
  (exists st',
     handleUrlDrop Platform.URL_hostname etsy_link ShoppingInput.initial
       = Normal st' /\
     has_url (domain_of (lit "www.etsy.com")) (draggedUrls st') = true /\
     removeCustomStore (custom_store (domain_of (lit "www.etsy.com"))) st'
       = ShoppingInput.initial) /\
  has_url (url store_amazon)
    (draggedUrls (removeCustomStore store_amazon ShoppingInput.initial))
    = false.
Proof.
  apply (@remove_undoes_drop Platform.URL_hostname etsy_link
           (lit "www.etsy.com") ShoppingInput.initial store_amazon);
    reflexivity.
Defined.

(** X4: the stores of a search request are the selected stores followed
    by the custom stores, with nothing removed: a site that is selected
    among the popular stores and was dropped as a link as well is in the
    request twice. *)
Theorem request_repeats_shared_url (st : ShoppingInput.State)
    (s c : Store) (d : SearchData) :
  In s (selectedStores st) -> In c (draggedUrls st) -> url s = url c ->
  In (OnSearchRequest d) (handleSearch st) ->
  stores d = selectedStores st ++ draggedUrls st /\
  exists l1 l2 l3,
    List.map url (stores d) = l1 ++ url s :: l2 ++ url s :: l3.
Proof.
  intros Hs Hc E Hd.
  assert (D : stores d = selectedStores st ++ draggedUrls st).
  { unfold handleSearch in Hd.
    destruct (SearchType_eqb (searchType st) type_prompt
              && negb (Js.truthy (trim (promptText st)))); simpl in Hd;
      destruct Hd as [Hd|[]]; [discriminate|].
    injection Hd as <-. reflexivity. }
  split; [exact D|]. rewrite D, map_app.
  apply in_split in Hs. destruct Hs as [a1 [a2 ->]].
  apply in_split in Hc. destruct Hc as [b1 [b2 ->]].
  exists (List.map url a1), (List.map url a2 ++ List.map url b1),
    (List.map url b2).
  rewrite !map_app. simpl. rewrite E.
  repeat (rewrite <- app_assoc; simpl). reflexivity.
Qed.

Lemma request_repeats_shared_url_witness :
  stores (search_request amazon_twice)
    = selectedStores amazon_twice ++ draggedUrls amazon_twice /\
  exists l1 l2 l3,
    List.map url (stores (search_request amazon_twice))
    = l1 ++ url store_amazon :: l2 ++ url store_amazon :: l3.
Proof.
  apply (@request_repeats_shared_url amazon_twice store_amazon
           (custom_store (lit "amazon.com")) (search_request amazon_twice)).
  - simpl. auto.
  - simpl. auto.
  - reflexivity.
  - simpl. auto.
Defined.

(** The state of that example arises from a click on Amazon and the
    drop of a link to Amazon. *)
Example amazon_twice_reached :
  handleUrlDrop Platform.URL_hostname (lit "https://www.amazon.com/dp/1")
    (handleStoreToggle store_amazon
       {| searchType := type_prompt; promptText := lit "kettle";
          selectedStores := []; draggedUrls := [] |})
  = Normal amazon_twice.
Proof. reflexivity. Qed.

Lemma submit_cases (pg : Page) :
  (will_send pg = true ->
     submit pg =
       ({| app := {| photo := photo (app pg); searchResults := None;
                     isSearching := true;
                     showPhotoUpload := showPhotoUpload (app pg) |};
           input := input pg |},
        [Fetch search_path
           (JSON_stringify
             (requestBody (photo (app pg)) (search_request (input pg))))])) /\
  (will_send pg = false ->
     exists message, submit pg = (pg, [SearchApp.Alert message])).
Proof.
  unfold will_send. destruct pg as [st inp]; simpl.
  destruct (searchType inp) eqn:T.
  - assert (E : handleSearch inp = [OnSearchRequest (search_request inp)]).
    { apply handleSearch_not_prompt. congruence. }
    unfold submit; simpl. rewrite E. simpl.
    unfold handleSearchRequest, search_request. rewrite T. simpl.
    destruct (photo st); simpl; split; intros H; try discriminate.
    + reflexivity.
    + eexists. destruct st; reflexivity.
  - pose proof (handleSearch_prompt inp T) as E.
    unfold submit; simpl. rewrite E.
    destruct (forallb is_white_space (promptText inp)); simpl;
      split; intros H; try discriminate.
    + eexists. reflexivity.
    + unfold handleSearchRequest, search_request. rewrite T. reflexivity.
  - assert (E : handleSearch inp = [OnSearchRequest (search_request inp)]).
    { apply handleSearch_not_prompt. congruence. }
    unfold submit; simpl. rewrite E. simpl.
    unfold handleSearchRequest, search_request. rewrite T. simpl.
    destruct (photo st); simpl; split; intros H; try discriminate.
    + reflexivity.
    + eexists. destruct st; reflexivity.
Qed.

End CustomStores.

(* ================================================================== *)
(** * PhotoUpload: dropped files, and the photo on its way to a request *)
(* ================================================================== *)

Section UploadFlow.

Import PhotoUpload.

(** X6: of the files dropped on the upload area only the first is
    looked at, and it is treated as the file chosen in the dialog is:
    the same effect (one alert or one read, never a photo handed over
    right away) and the same [uploading] cell; the drop highlight is off
    afterwards in every case, and a drop or a dialog without a file has
    no effect. *)
Theorem drop_takes_first_file (files : list File) (st : PhotoUpload.State) :
  handleDrop files st = handleDrop (firstn 1 files) st /\
  dragOver (fst (handleDrop files st)) = false /\
  snd (handleDrop files st) = snd (handleInputChange files st) /\
  uploading (fst (handleDrop files st))
  = uploading (fst (handleInputChange files st)) /\
  (files = [] -> snd (handleDrop files st) = []) /\
  (forall f rest, files = f :: rest ->
     (exists message, snd (handleDrop files st) = [Alert message]) \/
     snd (handleDrop files st) = [ReadAsDataURL f]).
Proof.
  destruct files as [|f rest]; simpl.
  - repeat split; auto. intros f rest H. discriminate.
  - unfold handleFileSelect.
    destruct (negb (startsWith (type f) (lit "image/"))); simpl.
    + repeat split; auto; try discriminate.
      intros g rest' H. left. eexists. reflexivity.
    + destruct (size_limit <? size f)%N; simpl.
      * repeat split; auto; try discriminate.
        intros g rest' H. left. eexists. reflexivity.
      * repeat split; auto; try discriminate.
        intros g rest' H. injection H as <- _. right. reflexivity.
Qed.

Lemma get_prop_set_prop_same (k : jsstring) (v : JsValue) (obj : JsObject) :
  get_prop k (set_prop k v obj) = v.
Proof.
  induction obj as [|[q w] obj IH]; simpl.
  - rewrite str_eqb_refl. reflexivity.
  - destruct (str_eqb q k) eqn:E; simpl; rewrite E; [reflexivity | exact IH].
Qed.

Lemma get_prop_set_prop_other (k k' : jsstring) (v : JsValue)
    (obj : JsObject) :
  str_eqb k' k = false ->
  get_prop k (set_prop k' v obj) = get_prop k obj.
Proof.
  intros H. induction obj as [|[q w] obj IH]; simpl.
  - rewrite H. reflexivity.
  - destruct (str_eqb q k') eqn:E; simpl.
    + apply str_eqb_eq in E. subst q. rewrite H. reflexivity.
    + rewrite IH. reflexivity.
Qed.

(** X7: a file that passes the validation, with a MIME type and a
    base64 text without comma, becomes the controller's photo once the
    reader has loaded it, and a search of type ['photo'] or ['both'] made
    then sends exactly the base64 text of the file as [image_base64]:
    the part of the data URL behind [data:<type>;base64,]. *)
Theorem uploaded_payload_is_sent (encode : File -> jsstring) (f : File)
    (up : PhotoUpload.State) (st : SearchApp.State)
    (d : ShoppingInput.SearchData) :
  startsWith (type f) (lit "image/") = true ->
  (size f <= 5 * 1024 * 1024)%N ->
  comma_free (type f) = true ->
  comma_free (encode f) = true ->
  ShoppingInput.type d = ShoppingInput.type_photo \/
  ShoppingInput.type d = ShoppingInput.type_both ->
  SearchApp.photo (snd (fst (SearchApp.choose_file encode f up st)))
    = Some {| file := f; base64 := Some (encode f);
              preview := data_url f (encode f) |} /\
  uploading (fst (fst (SearchApp.choose_file encode f up st))) = false /\
  snd (SearchApp.choose_file encode f up st)
    = [ReadAsDataURL f;
       OnPhotoSelect {| file := f; base64 := Some (encode f);
                        preview := data_url f (encode f) |}] /\
  exists body,
    snd (SearchApp.handleSearchRequest d
           (snd (fst (SearchApp.choose_file encode f up st))))
      = [SearchApp.Fetch search_path body] /\
    member image_base64_key body = Some (JsonString (encode f)).
Proof.
  intros Ht Hs Hc Hp Hd.
  assert (E : SearchApp.choose_file encode f up st
              = (setUploading false up,
                 SearchApp.handlePhotoSelect
                   {| file := f; base64 := Some (encode f);
                      preview := data_url f (encode f) |} st,
                 [ReadAsDataURL f;
                  OnPhotoSelect {| file := f; base64 := Some (encode f);
                                   preview := data_url f (encode f) |}])).
  { unfold SearchApp.choose_file, handleFileSelect. rewrite Ht. simpl negb.
    cbv iota.
    replace (size_limit <? size f)%N with false
      by (symmetry; apply N.ltb_ge; exact Hs).
    unfold reader_onload.
    rewrite (data_url_second f (encode f) Hc Hp). reflexivity. }
  rewrite E. simpl fst; simpl snd.
  split; [reflexivity|]. split; [reflexivity|]. split; [reflexivity|].
  eexists. split.
  - rewrite handleSearchRequest_dispatches by (right; discriminate).
    reflexivity.
  - simpl SearchApp.photo.
    assert (P : SearchApp.photo_or_both (ShoppingInput.type d) = true).
    { apply photo_or_both_iff, Hd. }
    rewrite (proj1 (requestBody_members _ d)), P. reflexivity.
Qed.

Lemma uploaded_payload_is_sent_witness :
  SearchApp.photo
    (snd (fst (SearchApp.choose_file (fun _ => lit "aGVsbG8=") example_file
                 {| dragOver := false; uploading := false |}
                 SearchApp.initial)))
    = Some example_photo /\
  exists body,
    snd (SearchApp.handleSearchRequest
           (ShoppingInput.mkSearchData ShoppingInput.type_photo [] [])
           (snd (fst (SearchApp.choose_file (fun _ => lit "aGVsbG8=")
                        example_file
                        {| dragOver := false; uploading := false |}
                        SearchApp.initial))))
      = [SearchApp.Fetch search_path body] /\
    member image_base64_key body = Some (JsonString (lit "aGVsbG8=")).
Proof.
  destruct (@uploaded_payload_is_sent (fun _ => lit "aGVsbG8=") example_file
              {| dragOver := false; uploading := false |} SearchApp.initial
              (ShoppingInput.mkSearchData ShoppingInput.type_photo [] []))
    as [P [_ [_ B]]]; try reflexivity.
  - vm_compute. discriminate.
  - left. reflexivity.
  - split; [exact P | exact B].
Defined.

End UploadFlow.

(* ================================================================== *)
(** * VoiceInput: listening, errors, and results over time *)
(* ================================================================== *)

Section Listening.

Import VoiceInput.

Lemma speech_result_question (event : SpeechRecognitionEvent)
    (voice : VoiceInput.State) (st : AnalysisApp.State) :
  AnalysisApp.questionText (snd (AnalysisApp.speech_result event voice st))
  = AnalysisApp.questionText st ++ committed event.
Proof.
  unfold committed, AnalysisApp.speech_result.
  destruct (finals (visited event)) as [|c f] eqn:F.
  - rewrite (@onresult_interim (AnalysisApp.questionText st) event voice F).
    simpl. rewrite app_nil_r. reflexivity.
  - assert (N : finals (visited event) <> []) by (rewrite F; discriminate).
    rewrite (@onresult_final (AnalysisApp.questionText st) event voice N).
    rewrite F. reflexivity.
Qed.

Lemma last_cons (A : Type) (x d : A) (l : list A) :
  last (x :: l) d = last l x.
Proof.
  revert x d. induction l as [|y l IH]; intros x d; [reflexivity|].
  change (last (x :: y :: l) d) with (last (y :: l) d).
  rewrite !IH. reflexivity.
Qed.

Lemma results_in_session_interim (currentText : jsstring)
    (events : list SpeechRecognitionEvent) (voice : VoiceInput.State) :
  Forall (fun event => finals (visited event) = []) events ->
  snd (results_in_session currentText events voice) = [] /\
  isListening (fst (results_in_session currentText events voice))
  = isListening voice /\
  isSupported (fst (results_in_session currentText events voice))
  = isSupported voice /\
  error (fst (results_in_session currentText events voice)) = error voice /\
  transcript (fst (results_in_session currentText events voice))
  = last (List.map (fun event => interims (visited event)) events)
         (transcript voice).
Proof.
  intros H. revert voice.
  induction H as [|e events He Hes IH]; intros voice; simpl; [auto|].
  rewrite (onresult_interim currentText e voice He).
  destruct (results_in_session currentText events _) as [v out] eqn:E.
  specialize (IH {| isListening := isListening voice;
                    isSupported := isSupported voice;
                    transcript := interims (visited e);
                    error := error voice |}).
  rewrite E in IH. simpl in IH. destruct IH as [A [B [C [D T]]]].
  simpl. split; [exact A|]. split; [exact B|]. split; [exact C|].
  split; [exact D|]. rewrite T.
  symmetry.
  apply (@last_cons _ (interims (visited e)) (transcript voice)
           (List.map (fun event => interims (visited event)) events)).
Qed.

Lemma app_changes (a b : jsstring) : b <> [] -> str_eqb (a ++ b) a = false.
Proof.
  intros H. apply str_eqb_neq. intros E.
  rewrite <- (app_nil_r a) in E at 2. apply app_inv_head in E. congruence.
Qed.

(** X8: a round of listening.  With the recognition object there, the
    voice button shown and enabled, and the component not listening, a
    click on the button calls [start] once and changes no cell; after
    the start event the component listens, and result events without
    final text, however many, call no handler of the controller, show
    the interim text of the last one, and leave the listening flag and
    the error as they are; the next click calls [stop] once and changes
    no cell; the end event stops the listening and empties the
    transcript.  While an error is shown the button is disabled, and in
    the unsupported view it is not there: a click does nothing.  Without
    a recognition object a click does nothing either.  A result event
    with final text changes the question of the controller, whose new
    rendering makes the cleanup of the effect abort the recognition; one
    without final text does not. *)
Theorem listening_round (currentText : jsstring)
    (events : list SpeechRecognitionEvent) (voice : VoiceInput.State) :
  isSupported voice = true ->
  isListening voice = false ->
  error voice = [] ->
  Forall (fun event => finals (visited event) = []) events ->
  click_voice true voice = (voice, [RecognitionStart]) /\
  snd (results_in_session currentText events (onstart voice)) = [] /\
  isListening (fst (results_in_session currentText events (onstart voice)))
  = true /\
  error (fst (results_in_session currentText events (onstart voice))) = [] /\
  transcript (fst (results_in_session currentText events (onstart voice)))
  = last (List.map (fun event => interims (visited event)) events)
         (transcript voice) /\
  click_voice true
    (fst (results_in_session currentText events (onstart voice)))
  = (fst (results_in_session currentText events (onstart voice)),
     [RecognitionStop]) /\
  onend (fst (results_in_session currentText events (onstart voice)))
  = {| isListening := false; isSupported := true; transcript := [];
       error := [] |} /\
  click_voice false voice = (voice, []) /\
  (forall recognitionRef v,
     error v <> [] \/ isSupported v = false ->
     click_voice recognitionRef v = (v, [])) /\
  (forall event v st,
     finals (visited event) <> [] ->
     AnalysisApp.speech_result_cleanup true event v st = [RecognitionAbort]) /\
  (forall event v st,
     finals (visited event) = [] ->
     AnalysisApp.speech_result_cleanup true event v st = []).
Proof.
  intros S L E I.
  destruct (results_in_session_interim currentText (onstart voice) I)
    as [A [B [C [D T]]]].
  simpl in B, C, D, T. rewrite S in C.
  split.
  { unfold click_voice, voice_button_disabled, toggleListening,
      startListening.
    rewrite S, L, E. simpl. destruct voice as [l u t e]; simpl in *.
    subst. reflexivity. }
  split; [exact A|]. split; [exact B|]. split; [exact D|].
  split; [exact T|].
  split.
  { unfold click_voice, voice_button_disabled, toggleListening,
      stopListening.
    rewrite B, C, D. reflexivity. }
  split.
  { unfold onend. rewrite C, D. reflexivity. }
  split.
  { unfold click_voice, voice_button_disabled, toggleListening,
      startListening.
    rewrite S, L, E. reflexivity. }
  split.
  { intros ref v [N|N]; unfold click_voice, voice_button_disabled.
    - apply truthy_true in N. rewrite N, orb_true_r. reflexivity.
    - rewrite N. reflexivity. }
  split.
  - intros event v st N. unfold AnalysisApp.speech_result_cleanup.
    pose proof (speech_result_question event v st) as Q.
    unfold committed in Q.
    rewrite (proj2 (truthy_true _) N) in Q. rewrite Q.
    rewrite app_changes by discriminate. reflexivity.
  - intros event v st N. unfold AnalysisApp.speech_result_cleanup.
    pose proof (speech_result_question event v st) as Q.
    unfold committed in Q. rewrite N in Q. simpl in Q.
    rewrite app_nil_r in Q. rewrite Q, str_eqb_refl. reflexivity.
Qed.

Lemma listening_round_witness :
  click_voice true (mounted true) = (mounted true, [RecognitionStart]) /\
  transcript
    (fst (results_in_session (lit "How do I look")
            [ {| resultIndex := 0;
                 results := [mkResult false (lit "in this")] |};
              {| resultIndex := 0;
                 results := [mkResult false (lit "in this dress")] |} ]
            (onstart (mounted true))))
  = lit "in this dress" /\
  click_voice true
    (fst (results_in_session (lit "How do I look")
            [ {| resultIndex := 0;
                 results := [mkResult false (lit "in this")] |};
              {| resultIndex := 0;
                 results := [mkResult false (lit "in this dress")] |} ]
            (onstart (mounted true))))
  = (fst (results_in_session (lit "How do I look")
            [ {| resultIndex := 0;
                 results := [mkResult false (lit "in this")] |};
              {| resultIndex := 0;
                 results := [mkResult false (lit "in this dress")] |} ]
            (onstart (mounted true))),
     [RecognitionStop]) /\
  onend (fst (results_in_session (lit "How do I look")
                [ {| resultIndex := 0;
                     results := [mkResult false (lit "in this")] |};
                  {| resultIndex := 0;
                     results := [mkResult false (lit "in this dress")] |} ]
                (onstart (mounted true))))
  = mounted true.
Proof.
  destruct (@listening_round (lit "How do I look")
              [ {| resultIndex := 0;
                   results := [mkResult false (lit "in this")] |};
                {| resultIndex := 0;
                   results := [mkResult false (lit "in this dress")] |} ]
              (mounted true) eq_refl eq_refl eq_refl)
    as [A [_ [_ [_ [T [B [C _]]]]]]].
  - repeat constructor.
  - split; [exact A|]. split; [exact T|]. split; [exact B | exact C].
Defined.

(** With an error shown a click on the voice button sends nothing, and
    a final result is followed by the abort of its session. *)
Example voice_button_while_error :
  click_voice true (onerror (lit "no-speech") listening)
  = (onerror (lit "no-speech") listening, []) /\
  toggleListening true (onerror (lit "no-speech") listening)
  <> (onerror (lit "no-speech") listening, []) /\
  AnalysisApp.speech_result_cleanup true
    {| resultIndex := 0; results := [mkResult true (lit "in this dress")] |}
    listening asking
  = [RecognitionAbort].
Proof. repeat split. discriminate. Qed.

(** X9: a recognition error stops the listening, shows its message and
    disables the voice button; a click on "Try Again" then clears the
    error, which enables the button again, and calls [start] once.  In a
    browser without speech recognition the unsupported view is shown and
    neither click sends a command. *)
Theorem recognition_error_is_recoverable (event_error : jsstring)
    (voice : VoiceInput.State) :
  isListening (onerror event_error voice) = false /\
  error (onerror event_error voice)
    = lit "Speech recognition error: " ++ event_error /\
  voice_button_disabled (onerror event_error voice) = true /\
  (isSupported voice = true ->
     render (onerror event_error voice)
     = ControlsView (Js.truthy (transcript voice)) true) /\
  snd (startListening true (onerror event_error voice))
    = [RecognitionStart] /\
  voice_button_disabled
    (fst (startListening true (onerror event_error voice))) = false /\
  render (mounted false) = UnsupportedView /\
  startListening false (mounted false) = (mounted false, []) /\
  toggleListening false (mounted false) = (mounted false, []).
Proof.
  repeat split. intros S. unfold render, onerror; simpl. rewrite S.
  reflexivity.
Qed.

Lemma onresult_visited (currentText : jsstring)
    (e e' : SpeechRecognitionEvent) (voice : VoiceInput.State) :
  visited e = visited e' ->
  onresult currentText e voice = onresult currentText e' voice.
Proof.
  unfold onresult, visited. intros ->. reflexivity.
Qed.

(** X10: a result event commits and shows the entries from its
    [resultIndex] on, and nothing of the entries before it: with the
    earlier entries [old] still in the list and [resultIndex] behind
    them, the handler does what it does on the new entries alone.  An
    event whose [resultIndex] is at or behind the end of the list
    commits nothing and empties the shown transcript. *)
Theorem earlier_results_are_skipped (currentText : jsstring)
    (old new : list SpeechRecognitionResult)
    (event : SpeechRecognitionEvent) (voice : VoiceInput.State) :
  onresult currentText
    {| resultIndex := List.length old; results := old ++ new |} voice
  = onresult currentText {| resultIndex := 0; results := new |} voice /\
  ((List.length (results event) <= resultIndex event)%nat ->
     onresult currentText event voice
     = ({| isListening := isListening voice;
           isSupported := isSupported voice;
           transcript := []; error := error voice |}, [])).
Proof.
  split.
  - apply onresult_visited. unfold visited; simpl.
    rewrite skipn_app, skipn_all, Nat.sub_diag. reflexivity.
  - intros H. unfold onresult.
    rewrite (skipn_all2 _ H). reflexivity.
Qed.

Lemma results_accumulate_cases
    (events : list (VoiceInput.State * SpeechRecognitionEvent))
    (st : AnalysisApp.State) :
  speech_results events st
  = AnalysisApp.handleTextChange
      (AnalysisApp.questionText st
       ++ List.concat (List.map (fun ve => committed (snd ve)) events))
      st \/
  (List.concat (List.map (fun ve => committed (snd ve)) events) = [] /\
   speech_results events st = st).
Proof.
  revert st. induction events as [|[voice e] events IH]; intros st.
  - right. split; reflexivity.
  - simpl speech_results.
    destruct (AnalysisApp.speech_result e voice st) as [v st1] eqn:E.
    assert (Q : AnalysisApp.questionText st1
                = AnalysisApp.questionText st ++ committed e).
    { rewrite <- (speech_result_question e voice st), E. reflexivity. }
    assert (S : st1 = st /\ committed e = [] \/
                st1 = AnalysisApp.handleTextChange
                        (AnalysisApp.questionText st ++ committed e) st).
    { unfold AnalysisApp.speech_result in E. unfold committed.
      destruct (finals (visited e)) as [|c f] eqn:F.
      - rewrite (@onresult_interim (AnalysisApp.questionText st) e voice F)
          in E.
        injection E as _ <-. left. split; reflexivity.
      - assert (N : finals (visited e) <> []) by (rewrite F; discriminate).
        rewrite (@onresult_final (AnalysisApp.questionText st) e voice N)
          in E.
        injection E as _ <-. right. rewrite F. reflexivity. }
    simpl List.map. simpl List.concat. simpl snd.
    destruct (IH st1) as [H|[H1 H2]].
    + left. rewrite H, Q, <- app_assoc.
      destruct S as [[-> _]| ->]; reflexivity.
    + rewrite H2, H1, app_nil_r.
      destruct S as [[-> C]| ->].
      * right. split; [exact C | reflexivity].
      * left. reflexivity.
Qed.

(** X11: over a sequence of result events, whatever the cells of the
    voice component are when each of them arrives, the question grows by
    what each event commits, in order: a space and the final text for
    every event that has final text, nothing for the others.  Nothing
    that was in the question is lost or changed, and the other cells of
    the controller stay as they are. *)
Theorem results_accumulate
    (events : list (VoiceInput.State * SpeechRecognitionEvent))
    (st : AnalysisApp.State) :
  AnalysisApp.questionText (speech_results events st)
  = AnalysisApp.questionText st
    ++ List.concat (List.map (fun ve => committed (snd ve)) events) /\
  AnalysisApp.photo (speech_results events st) = AnalysisApp.photo st /\
  AnalysisApp.occasion (speech_results events st) = AnalysisApp.occasion st /\
  AnalysisApp.budget (speech_results events st) = AnalysisApp.budget st /\
  AnalysisApp.analysisResults (speech_results events st)
  = AnalysisApp.analysisResults st /\
  AnalysisApp.isAnalyzing (speech_results events st)
  = AnalysisApp.isAnalyzing st.
Proof.
  destruct (results_accumulate_cases events st) as [->|[E ->]].
  - repeat split.
  - rewrite E, app_nil_r. repeat split.
Qed.

End Listening.

(* ================================================================== *)
(** * AnalysisResults: what the tabs show *)
(* ================================================================== *)

Section Tabs.

Import AnalysisResults.

(** X12: the tips tab is never blank: it lists the tips of the result
    when there is at least one, and three stock tips otherwise.  The
    count on the products tab is zero exactly when that tab shows its
    placeholder instead of cards, and otherwise it is the number of
    cards. *)
Theorem tabs_are_never_blank (r : AnalysisResult) :
  (exists tip tips, tips_shown r = tip :: tips) /\
  (forall tips, persuasion_points r = Some tips -> tips <> [] ->
     List.map snd (tips_shown r) = tips) /\
  ((persuasion_points r = None \/ persuasion_points r = Some []) ->
     tips_shown r = default_tips) /\
  (recommendations_count r = 0%nat <-> recommendations_shown r = None) /\
  (forall recs, recommendations_shown r = Some recs ->
     recommendations r = Some recs /\
     List.length recs = recommendations_count r).
Proof.
  unfold tips_shown, recommendations_count, recommendations_shown.
  split; [|split; [|split; [|split]]].
  - destruct (persuasion_points r) as [[|t ts]|]; simpl;
      unfold default_tips; eauto.
  - intros tips -> H. destruct tips as [|t ts]; [contradiction|]. simpl.
    f_equal. rewrite map_map. simpl. apply map_id.
  - intros [->| ->]; reflexivity.
  - destruct (recommendations r) as [[|x xs]|]; simpl; split; intros H;
      try reflexivity; discriminate.
  - intros recs. destruct (recommendations r) as [[|x xs]|]; simpl;
      intros H; try discriminate. injection H as <-. auto.
Qed.

Lemma split1_nonempty (sep : code_unit) (s : jsstring) : split1 sep s <> [].
Proof.
  destruct s as [|c s]; simpl; [discriminate|].
  destruct (N.eqb c sep); [discriminate|].
  destruct (split1 sep s); discriminate.
Qed.

Lemma join1_cons (sep : code_unit) (piece : jsstring) (rest : list jsstring) :
  rest <> [] -> join1 sep (piece :: rest) = piece ++ sep :: join1 sep rest.
Proof. destruct rest; [contradiction | reflexivity]. Qed.

Lemma join1_split1 (sep : code_unit) (s : jsstring) :
  join1 sep (split1 sep s) = s.
Proof.
  induction s as [|c s IH]; simpl; [reflexivity|].
  destruct (N.eqb c sep) eqn:E.
  - apply N.eqb_eq in E. subst c.
    rewrite join1_cons by apply split1_nonempty. rewrite IH. reflexivity.
  - destruct (split1 sep s) as [|piece pieces] eqn:S.
    + apply split1_nonempty in S. contradiction.
    + destruct pieces as [|q qs]; simpl in *; rewrite <- IH; reflexivity.
Qed.

Lemma split1_length (sep : code_unit) (s : jsstring) :
  List.length (split1 sep s) = S (occurrences sep s).
Proof.
  unfold occurrences. induction s as [|c s IH]; simpl; [reflexivity|].
  rewrite (N.eqb_sym sep c). destruct (N.eqb c sep); simpl.
  - rewrite IH. reflexivity.
  - destruct (split1 sep s) as [|piece pieces] eqn:S.
    + apply split1_nonempty in S. contradiction.
    + exact IH.
Qed.

Lemma split1_pieces (sep : code_unit) (s : jsstring) :
  Forall (fun piece => occurrences sep piece = 0%nat) (split1 sep s).
Proof.
  unfold occurrences. induction s as [|c s IH]; simpl.
  - repeat constructor.
  - destruct (N.eqb c sep) eqn:E.
    + constructor; [reflexivity | exact IH].
    + destruct (split1 sep s) as [|piece pieces]; simpl.
      * repeat constructor. simpl. rewrite (N.eqb_sym sep c), E. reflexivity.
      * inversion IH; subst. constructor; [|assumption].
        simpl. rewrite (N.eqb_sym sep c), E. assumption.
Qed.

(** X13: the analysis tab shows the analysis text cut at its line
    feeds: one paragraph more than there are line feeds, none of them
    with a line feed in it, and put together again with line feeds they
    are the text.  An empty analysis gives one empty paragraph, a result
    without analysis gives none. *)
Theorem paragraphs_keep_the_text (r : AnalysisResult) :
  match analysis r with
  | Some text =>
      join1 10 (analysis_paragraphs r) = text /\
      List.length (analysis_paragraphs r) = S (occurrences 10 text) /\
      Forall (fun piece => occurrences 10 piece = 0%nat)
        (analysis_paragraphs r) /\
      (text = [] -> analysis_paragraphs r = [[]])
  | None => analysis_paragraphs r = []
  end.
Proof.
  unfold analysis_paragraphs. destruct (analysis r) as [text|];
    [|reflexivity].
  split; [apply join1_split1|]. split; [apply split1_length|].
  split; [apply split1_pieces|]. intros ->. reflexivity.
Qed.

End Tabs.

(* ================================================================== *)
(** * ProductResults: the store filter, ties, stars and badges *)
(* ================================================================== *)

Section Grid.

Import JsNumber JsArray ProductResults.

Lemma distinct_In (s : jsstring) (l : list jsstring) :
  In s (distinct l) <-> In s l.
Proof.
  induction l as [|x l IH]; simpl; [tauto|].
  rewrite filter_In, IH, negb_true_iff, str_eqb_neq.
  destruct (list_eq_dec N.eq_dec x s) as [->|N]; [tauto|].
  split; [tauto|]. intros [H|H]; [tauto|].
  right. split; [exact H | congruence].
Qed.

Lemma distinct_NoDup (l : list jsstring) : NoDup (distinct l).
Proof.
  induction l as [|x l IH]; simpl; constructor.
  - rewrite filter_In, negb_true_iff, str_eqb_neq. tauto.
  - apply NoDup_filter, IH.
Qed.

(** X14: the options of the store filter name every store that has a
    product in the result, each once, and no other store; the store of
    the first product comes first. *)
Theorem availableStores_are_the_stores (ps : list Product) :
  NoDup (availableStores ps) /\
  (forall s, In s (availableStores ps) <->
             exists p, In p ps /\ store p = s) /\
  (forall p ps', ps = p :: ps' ->
     exists rest, availableStores ps = store p :: rest).
Proof.
  unfold availableStores. split; [apply distinct_NoDup|]. split.
  - intros s. rewrite distinct_In, in_map_iff.
    split; intros [p [A B]]; exists p; tauto.
  - intros p ps' ->. simpl. eauto.
Qed.

Lemma filter_all (ps : list Product) :
  filter (store_filter (lit "all")) ps = ps.
Proof.
  induction ps as [|p ps IH]; simpl; [reflexivity|].
  unfold store_filter at 1. rewrite str_eqb_refl. simpl. f_equal. exact IH.
Qed.

Lemma filter_store (filterStore : jsstring) (ps : list Product) :
  filterStore <> lit "all" ->
  filter (store_filter filterStore) ps
  = filter (fun p => str_eqb (store p) filterStore) ps.
Proof.
  intros H. apply filter_ext. intros p. unfold store_filter.
  apply str_eqb_neq in H. rewrite H. reflexivity.
Qed.

(** X15: with the filter on "all" the grid has every product of the
    result; with the filter on a store it has the products of that store
    and no other; and a store taken from the options of the filter never
    leads to the "No products found" block. *)
Theorem store_filter_selects (localeCompare : jsstring -> jsstring -> Z)
    (sortBy : SortBy) (filterStore : jsstring) (ps : list Product) :
  (filterStore = lit "all" ->
     Permutation (filteredProducts localeCompare sortBy filterStore ps) ps) /\
  (filterStore <> lit "all" ->
     Permutation (filteredProducts localeCompare sortBy filterStore ps)
       (filter (fun p => str_eqb (store p) filterStore) ps) /\
     Forall (fun p => store p = filterStore)
       (filteredProducts localeCompare sortBy filterStore ps)) /\
  (In filterStore (availableStores ps) ->
     no_results_shown (filteredProducts localeCompare sortBy filterStore ps)
     = false).
Proof.
  unfold filteredProducts. split; [|split].
  - intros ->. rewrite filter_all. apply sort_perm.
  - intros H. rewrite (filter_store ps H). split; [apply sort_perm|].
    apply Forall_forall. intros p Hp.
    apply (Permutation_in _ (sort_perm _ _)) in Hp.
    apply filter_In in Hp. apply str_eqb_eq, Hp.
  - intros H.
    apply (proj1 (distinct_In _ _)) in H. apply in_map_iff in H.
    destruct H as [p [E Hp]].
    assert (I : In p (filter (store_filter filterStore) ps)).
    { apply filter_In. split; [exact Hp|]. unfold store_filter.
      rewrite E, str_eqb_refl. apply orb_true_r. }
    apply (Permutation_in _
             (Permutation_sym
                (sort_perm (comparator localeCompare sortBy)
                   (filter (store_filter filterStore) ps)))) in I.
    unfold no_results_shown.
    destruct (sort _ _); [contradiction | reflexivity].
Qed.

Section Ties.

Variable A : Type.
Variable comparefn : A -> A -> number.
(** A class of elements none of which has to come after another. *)
Variable tied : A -> bool.
Hypothesis tied_equal :
  forall x y, tied x = true -> tied y = true ->
              sorts_after comparefn x y = false.

Lemma insert_keeps_ties (x : A) (l : list A) :
  filter tied (insert comparefn x l) = filter tied (x :: l).
Proof.
  induction l as [|y l IH]; [reflexivity|].
  cbn [insert]. destruct (sorts_after comparefn x y) eqn:E; [|reflexivity].
  cbn [filter] in *. rewrite IH.
  destruct (tied x) eqn:Tx, (tied y) eqn:Ty; try reflexivity.
  rewrite (tied_equal Tx Ty) in E. discriminate.
Qed.

Lemma sort_keeps_ties (l : list A) :
  filter tied (sort comparefn l) = filter tied l.
Proof.
  induction l as [|x l IH]; [reflexivity|].
  cbn [sort]. rewrite insert_keeps_ties. cbn [filter]. rewrite IH.
  reflexivity.
Qed.

End Ties.

Local Open Scope Q_scope.

Lemma Qcompare_zero_not_gt (v : Q) :
  v == 0 -> match (v ?= 0) with Gt => true | _ => false end = false.
Proof.
  intros H. apply Qeq_alt in H. rewrite H. reflexivity.
Qed.

(** X16: the sort is stable.  Under the relevance order the products
    of one confidence are in the order of the response, and so are,
    under the two price orders, the products of one price, when every
    price of the response has a numeric portion. *)
Theorem ties_keep_response_order
    (localeCompare : jsstring -> jsstring -> Z)
    (filterStore : jsstring) (ps : list Product) (q : Q) :
  filter (confidence_is q)
    (filteredProducts localeCompare relevance filterStore ps)
  = filter (confidence_is q) (filter (store_filter filterStore) ps) /\
  (Forall priced ps ->
     filter (price_is q)
       (filteredProducts localeCompare price_low filterStore ps)
     = filter (price_is q) (filter (store_filter filterStore) ps) /\
     filter (price_is q)
       (filteredProducts localeCompare price_high filterStore ps)
     = filter (price_is q) (filter (store_filter filterStore) ps)).
Proof.
  unfold filteredProducts. split; [|intros _; split].
  - apply sort_keeps_ties. intros x y Hx Hy.
    unfold confidence_is in *. apply Qeq_bool_iff in Hx, Hy.
    unfold sorts_after, comparator. apply Qcompare_zero_not_gt.
    rewrite Hx, Hy. ring.
  - apply sort_keeps_ties. intros x y Hx Hy.
    unfold price_is in *. unfold sorts_after, comparator.
    destruct (price_number x) as [|a| |]; try discriminate.
    destruct (price_number y) as [|b| |]; try discriminate.
    apply Qeq_bool_iff in Hx, Hy. simpl.
    apply Qcompare_zero_not_gt. rewrite Hx, Hy. ring.
  - apply sort_keeps_ties. intros x y Hx Hy.
    unfold price_is in *. unfold sorts_after, comparator.
    destruct (price_number x) as [|a| |]; try discriminate.
    destruct (price_number y) as [|b| |]; try discriminate.
    apply Qeq_bool_iff in Hx, Hy. simpl.
    apply Qcompare_zero_not_gt. rewrite Hx, Hy. ring.
Qed.

End Grid.

Section Badges.

Import JsNumber ProductResults.
Local Open Scope Q_scope.

Lemma concat_repeat_unit (c : code_unit) (n : nat) :
  List.concat (List.repeat [c] n) = List.repeat c n.
Proof. induction n as [|n IH]; simpl; [reflexivity | f_equal; exact IH]. Qed.

(** X17: the stars of a product card.  For a rating that is not
    negative there are as many stars as the rating has whole units,
    none for a rating below 1; for a negative rating [repeat] throws a
    [RangeError], and the card with it. *)
Theorem stars_count_whole_units (rating : Q) :
  (0 <= rating ->
     rating_stars rating
       = Normal (List.repeat 11088%N (Z.to_nat (Qfloor rating))) /\
     inject_Z (Z.of_nat (Z.to_nat (Qfloor rating))) <= rating /\
     rating < inject_Z (Z.of_nat (Z.to_nat (Qfloor rating))) + 1) /\
  (rating < 1 -> 0 <= rating -> rating_stars rating = Normal []) /\
  (rating < 0 -> rating_stars rating = Throw (lit "RangeError")).
Proof.
  unfold rating_stars, repeat_string.
  assert (P : 0 <= rating -> (0 <= Qfloor rating)%Z).
  { intros H. change 0%Z with (Qfloor (inject_Z 0)).
    apply Qfloor_resp_le. exact H. }
  split; [|split].
  - intros H. pose proof (P H) as F.
    replace (Qfloor rating <? 0)%Z with false
      by (symmetry; apply Z.ltb_ge; exact F).
    rewrite concat_repeat_unit, Z2Nat.id by exact F.
    split; [reflexivity|]. split; [apply Qfloor_le|].
    pose proof (Qlt_floor rating) as L.
    rewrite inject_Z_plus in L. exact L.
  - intros H1 H0. pose proof (P H0) as F.
    replace (Qfloor rating <? 0)%Z with false
      by (symmetry; apply Z.ltb_ge; exact F).
    assert (Z : (Qfloor rating < 1)%Z).
    { rewrite Zlt_Qlt. apply (Qle_lt_trans _ rating); [apply Qfloor_le|].
      exact H1. }
    replace (Qfloor rating) with 0%Z by lia. reflexivity.
  - intros H.
    assert (Z : (Qfloor rating < 0)%Z).
    { rewrite Zlt_Qlt. apply (Qle_lt_trans _ rating); [apply Qfloor_le|].
      exact H. }
    apply Z.ltb_lt in Z. rewrite Z. reflexivity.
Qed.

Example four_and_a_half_stars :
  rating_stars 4.5 = Normal [11088; 11088; 11088; 11088]%N.
Proof. reflexivity. Qed.

Lemma startsWith_app (s pat : jsstring) :
  startsWith s pat = true <-> exists suf, s = pat ++ suf.
Proof.
  revert s. induction pat as [|x pat IH]; intros s; simpl.
  - split; [intros _; exists s; reflexivity | intros _; destruct s; reflexivity].
  - destruct s as [|y s]; simpl.
    + split; [discriminate | intros [suf H]; discriminate].
    + rewrite andb_true_iff, N.eqb_eq, IH. split.
      * intros [-> [suf ->]]. exists suf. reflexivity.
      * intros [suf H]. injection H as -> ->. split; eauto.
Qed.

Lemma includes_app (s pat : jsstring) :
  includes s pat = true <-> exists pre suf, s = pre ++ pat ++ suf.
Proof.
  induction s as [|c s IH]; cbn [includes].
  - rewrite orb_false_r, startsWith_app. split.
    + intros [suf H]. exists [], suf. exact H.
    + intros [pre [suf H]]. destruct pre; [exists suf; exact H|].
      discriminate.
  - rewrite orb_true_iff, startsWith_app, IH. split.
    + intros [[suf H]|[pre [suf H]]].
      * exists [], suf. exact H.
      * exists (c :: pre), suf. simpl. rewrite H. reflexivity.
    + intros [pre [suf H]]. destruct pre as [|c' pre]; simpl in H.
      * left. exists suf. exact H.
      * right. injection H as _ H. exists pre, suf. exact H.
Qed.

Lemma toLowerCase_app (a b : jsstring) :
  toLowerCase (a ++ b) = toLowerCase a ++ toLowerCase b.
Proof. apply map_app. Qed.

(** X18: the availability badge of a text of ASCII characters is
    styled as in stock exactly when the text has the word "stock" in it,
    in any mix of upper and lower case, wherever it is: a text that ends
    in "out of stock" gets the in-stock style too. *)
Theorem stock_anywhere_is_in_stock (availability : jsstring) :
  is_ascii availability = true ->
  (availability_class availability = in_stock <->
   exists pre word suf,
     availability = pre ++ word ++ suf /\
     toLowerCase word = lit "stock") /\
  (forall pre, availability = pre ++ lit "out of stock" ->
     availability_class availability = in_stock).
Proof.
  intros _.
  assert (I : availability_class availability = in_stock <->
              exists pre word suf,
                availability = pre ++ word ++ suf /\
                toLowerCase word = lit "stock").
  { unfold availability_class.
    destruct (includes (toLowerCase availability) (lit "stock")) eqn:E.
    - split; [intros _ | reflexivity].
      apply includes_app in E. destruct E as [pre [suf E]].
      unfold toLowerCase in E. apply map_eq_app in E.
      destruct E as [pre' [rest [-> [_ E]]]].
      apply map_eq_app in E. destruct E as [word [suf' [-> [W _]]]].
      exists pre', word, suf'. split; [reflexivity | exact W].
    - split; [discriminate|]. intros [pre [word [suf [-> W]]]].
      assert (T : includes (toLowerCase (pre ++ word ++ suf)) (lit "stock")
                  = true).
      { apply includes_app. rewrite !toLowerCase_app, W. eauto. }
      congruence. }
  split; [exact I|].
  intros pre ->. apply I.
  exists (pre ++ lit "out of "), (lit "stock"), [].
  split; [|reflexivity].
  rewrite app_nil_r, <- app_assoc. reflexivity.
Qed.

Lemma stock_anywhere_is_in_stock_witness :
  (availability_class (lit "Out of Stock") = in_stock <->
   exists pre word suf,
     lit "Out of Stock" = pre ++ word ++ suf /\
     toLowerCase word = lit "stock") /\
  availability_class (lit "Out of Stock") = in_stock /\
  availability_class (lit "Ships in 3 days") = out_stock.
Proof.
  split; [|split; reflexivity].
  apply (proj1 (@stock_anywhere_is_in_stock (lit "Out of Stock") eq_refl)).
Defined.

End Badges.

(* ================================================================== *)
(** * The controllers over time *)
(* ================================================================== *)

Section PageRuns.

Import ShoppingInput.
Import ProductResults.
Import SearchApp.
Import SearchPage.

(** X5: a click on the search button does nothing while a search is
    loading (the button is disabled).  Otherwise it has exactly one
    effect: when the prompt is not blank (type ['prompt']) or a photo is
    there (the other types) it is the request, the controller starts
    loading and drops the former result; if not, it is an alert, and no
    cell of the input or of the controller changes. *)
Theorem search_click (pg : Page) :
  (isSearching (app pg) = true -> click_search pg = (pg, [])) /\
  (isSearching (app pg) = false -> will_send pg = true ->
     click_search pg =
       ({| app := {| photo := photo (app pg); searchResults := None;
                     isSearching := true;
                     showPhotoUpload := showPhotoUpload (app pg) |};
           input := input pg |},
        [Fetch search_path
           (JSON_stringify
             (requestBody (photo (app pg)) (search_request (input pg))))]) /\
     phase (app (fst (click_search pg))) = awaiting_response) /\
  (isSearching (app pg) = false -> will_send pg = false ->
     exists message, click_search pg = (pg, [SearchApp.Alert message])).
Proof.
  unfold click_search. destruct (submit_cases pg) as [S A].
  split; [|split].
  - intros ->. reflexivity.
  - intros -> W. rewrite (S W). split; reflexivity.
  - intros -> W. exact (A W).
Qed.

Lemma settled_cells (outcome : FetchOutcome SearchResult)
    (st : SearchApp.State) :
  isSearching (fst (handleSearchRequest_settled outcome st)) = false /\
  photo (fst (handleSearchRequest_settled outcome st)) = photo st /\
  showPhotoUpload (fst (handleSearchRequest_settled outcome st))
  = showPhotoUpload st /\
  (searchResults (fst (handleSearchRequest_settled outcome st)) = None <->
   exists statusText, outcome = Responded true statusText ParsedFalsy).
Proof.
  destruct outcome as [m|ok statusText [r| |m]]; simpl;
    try destruct ok; simpl;
    (split; [reflexivity|]; split; [reflexivity|]; split; [reflexivity|]);
    split; try discriminate; try (intros [t H]; discriminate);
    first [intros _; exists statusText; reflexivity | intros _; reflexivity].
Qed.

Lemma analysis_settled_cells
    (outcome : FetchOutcome AnalysisResults.AnalysisResult)
    (st : AnalysisApp.State) :
  AnalysisApp.isAnalyzing (fst (AnalysisApp.handleAnalyze_settled outcome st))
  = false /\
  AnalysisApp.photo (fst (AnalysisApp.handleAnalyze_settled outcome st))
  = AnalysisApp.photo st /\
  AnalysisApp.questionText
    (fst (AnalysisApp.handleAnalyze_settled outcome st))
  = AnalysisApp.questionText st /\
  (AnalysisApp.analysisResults
     (fst (AnalysisApp.handleAnalyze_settled outcome st)) = None <->
   exists statusText, outcome = Responded true statusText ParsedFalsy).
Proof.
  destruct outcome as [m|ok statusText [r| |m]]; simpl;
    try destruct ok; simpl;
    (split; [reflexivity|]; split; [reflexivity|]; split; [reflexivity|]);
    split; try discriminate; try (intros [t H]; discriminate);
    first [intros _; exists statusText; reflexivity | intros _; reflexivity].
Qed.

Lemma phase_of_result (st : SearchApp.State) (r : SearchResult) :
  isSearching st = false -> searchResults st = Some r ->
  phase st = if has_error (ProductResults.error r)
             then showing_error else showing_results.
Proof.
  intros L R. unfold phase, render, has_error. rewrite L, R.
  destruct (ProductResults.error r) as [m|]; [|reflexivity].
  destruct (Js.truthy m); reflexivity.
Qed.

Lemma analysis_phase_of_result (st : AnalysisApp.State)
    (r : AnalysisResults.AnalysisResult) :
  AnalysisApp.isAnalyzing st = false ->
  AnalysisApp.analysisResults st = Some r ->
  AnalysisApp.phase st = if has_error (AnalysisResults.error r)
                         then AnalysisApp.showing_error
                         else AnalysisApp.showing_results.
Proof.
  intros L R. unfold AnalysisApp.phase, AnalysisResults.render, has_error.
  rewrite L, R.
  destruct (AnalysisResults.error r) as [m|]; [|reflexivity].
  destruct (Js.truthy m); reflexivity.
Qed.

(** X19: however a request settles, the controller is not loading any
    more and the photo is as it was.  The result cell is empty exactly
    when the response was a successful one whose body is [null] or
    another falsy value; the empty view of the idle state is shown then.
    In every other case the cell holds a result and the controller shows
    it: the error view when the result has a non-empty [error], be it
    the controller's own or one that a successful response carries, the
    grid otherwise.  The same holds for the style-analysis controller. *)
Theorem settled_request_is_shown (outcome : FetchOutcome SearchResult)
    (st : SearchApp.State)
    (analysis_outcome : FetchOutcome AnalysisResults.AnalysisResult)
    (ast : AnalysisApp.State) :
  (isSearching (fst (handleSearchRequest_settled outcome st)) = false /\
   photo (fst (handleSearchRequest_settled outcome st)) = photo st /\
   (searchResults (fst (handleSearchRequest_settled outcome st)) = None <->
    exists statusText, outcome = Responded true statusText ParsedFalsy) /\
   phase (fst (handleSearchRequest_settled outcome st))
   = match searchResults (fst (handleSearchRequest_settled outcome st)) with
     | Some r => if has_error (ProductResults.error r)
                 then showing_error else showing_results
     | None => idle
     end) /\
  (AnalysisApp.isAnalyzing
     (fst (AnalysisApp.handleAnalyze_settled analysis_outcome ast)) = false /\
   AnalysisApp.photo
     (fst (AnalysisApp.handleAnalyze_settled analysis_outcome ast))
   = AnalysisApp.photo ast /\
   AnalysisApp.questionText
     (fst (AnalysisApp.handleAnalyze_settled analysis_outcome ast))
   = AnalysisApp.questionText ast /\
   (AnalysisApp.analysisResults
      (fst (AnalysisApp.handleAnalyze_settled analysis_outcome ast)) = None <->
    exists statusText,
      analysis_outcome = Responded true statusText ParsedFalsy) /\
   AnalysisApp.phase
     (fst (AnalysisApp.handleAnalyze_settled analysis_outcome ast))
   = match AnalysisApp.analysisResults
             (fst (AnalysisApp.handleAnalyze_settled analysis_outcome ast))
     with
     | Some r => if has_error (AnalysisResults.error r)
                 then AnalysisApp.showing_error
                 else AnalysisApp.showing_results
     | None => AnalysisApp.idle
     end).
Proof.
  split.
  - destruct (settled_cells outcome st) as [L [P [_ N]]].
    split; [exact L|]. split; [exact P|]. split; [exact N|].
    destruct (searchResults (fst (handleSearchRequest_settled outcome st)))
      as [r|] eqn:R.
    + apply phase_of_result; assumption.
    + unfold phase, render. rewrite L, R. reflexivity.
  - destruct (analysis_settled_cells analysis_outcome ast) as [L [P [Q N]]].
    split; [exact L|]. split; [exact P|]. split; [exact Q|].
    split; [exact N|].
    destruct (AnalysisApp.analysisResults
                (fst (AnalysisApp.handleAnalyze_settled analysis_outcome ast)))
      as [r|] eqn:R.
    + apply analysis_phase_of_result; assumption.
    + unfold AnalysisApp.phase, AnalysisResults.render. rewrite L, R.
      reflexivity.
Qed.

(** A successful response with the body [null]: nothing is shown, and
    the controller is idle again. *)
Example null_body_settles_idle :
  let st := {| photo := None; searchResults := None; isSearching := true;
               showPhotoUpload := true |} in
  fst (handleSearchRequest_settled (Responded true (lit "OK") ParsedFalsy) st)
  = SearchApp.initial /\
  phase (fst (handleSearchRequest_settled
                (Responded true (lit "OK") ParsedFalsy) st)) = idle.
Proof. split; reflexivity. Qed.

Lemma step_in_flight (e : Event) (w : World) :
  in_flight w = (if isSearching (app (page w)) then 1 else 0)%nat ->
  in_flight (step e w)
  = (if isSearching (app (page (step e w))) then 1 else 0)%nat.
Proof.
  intros I. destruct e as [| |outcome|photoData|edit]; simpl.
  - unfold click_search.
    destruct (isSearching (app (page w))) eqn:L.
    + simpl. rewrite L, I. reflexivity.
    + destruct (submit_cases (page w)) as [S A].
      destruct (will_send (page w)).
      * rewrite (S eq_refl). simpl. rewrite I. reflexivity.
      * destruct (A eq_refl) as [m ->]. simpl. rewrite L, I. reflexivity.
  - unfold click_retry, retry_offered, render.
    destruct (isSearching (app (page w))) eqn:L; simpl.
    + rewrite L. exact I.
    + destruct (searchResults (app (page w))) as [r|]; simpl;
        [|rewrite L; exact I].
      destruct (ProductResults.error r) as [m|]; simpl;
        [destruct (Js.truthy m)|]; simpl; rewrite ?L; exact I.
  - destruct (in_flight w) as [|n] eqn:F; [rewrite F; exact I|]. simpl.
    destruct (settled_cells outcome (app (page w))) as [L _].
    rewrite L. destruct (isSearching (app (page w))); congruence.
  - exact I.
  - exact I.
Qed.

(** X20: on the search page at most one request is in flight at any
    time, whatever the user does and however the requests settle: the
    controller is loading exactly when one request has been sent and has
    not settled, and a click on search in that time sends nothing.  So
    a response always belongs to the last request that was sent. *)
Theorem one_request_in_flight (events : list Event) :
  in_flight (run events start)
  = (if isSearching (app (page (run events start))) then 1 else 0)%nat /\
  (in_flight (run events start) <= 1)%nat /\
  (in_flight (run events start) = 1%nat ->
     snd (click_search (page (run events start))) = []).
Proof.
  assert (G : forall w,
            in_flight w = (if isSearching (app (page w)) then 1 else 0)%nat ->
            in_flight (run events w)
            = (if isSearching (app (page (run events w))) then 1 else 0)%nat).
  { induction events as [|e events IH]; intros w I; [exact I|].
    simpl. apply IH, step_in_flight, I. }
  pose proof (G start eq_refl) as I.
  split; [exact I|]. split.
  - rewrite I. destruct (isSearching _); lia.
  - intros F. unfold click_search.
    destruct (isSearching (app (page (run events start)))); [reflexivity|].
    rewrite I in F. discriminate.
Qed.

(** X21: after a retry the photo is gone, so a search by photo, or by
    photo and prompt, is answered with the request to upload a photo and
    sends nothing, until a photo has been chosen again. *)
Theorem photo_search_after_retry_needs_upload (pg : Page) :
  retry_offered pg = true ->
  searchType (input pg) <> type_prompt ->
  click_search (click_retry pg)
  = (click_retry pg,
     [SearchApp.Alert (lit "Please upload a photo for visual search")]) /\
  photo (app (click_retry pg)) = None /\
  forall photoData,
    exists body,
      snd (click_search
             {| app := handlePhotoSelect photoData (app (click_retry pg));
                input := input pg |})
      = [Fetch search_path body].
Proof.
  intros R T. unfold click_retry. rewrite R.
  assert (L : isSearching (app pg) = false).
  { unfold retry_offered, render in R.
    destruct (isSearching (app pg)); [discriminate | reflexivity]. }
  assert (E : handleSearch (input pg)
              = [OnSearchRequest (search_request (input pg))]).
  { apply handleSearch_not_prompt, T. }
  unfold click_search, retry, handleRetry; simpl. rewrite L.
  unfold submit; simpl. rewrite E. simpl.
  unfold handleSearchRequest; simpl.
  destruct (searchType (input pg)); simpl; try congruence;
    (split; [reflexivity|]; split; [reflexivity|]);
    intros photoData; eexists; reflexivity.
Qed.

Lemma photo_search_after_retry_needs_upload_witness :
  click_search (click_retry photo_page_after_error)
  = (click_retry photo_page_after_error,
     [SearchApp.Alert (lit "Please upload a photo for visual search")]) /\
  photo (app (click_retry photo_page_after_error)) = None.
Proof.
  destruct (@photo_search_after_retry_needs_upload photo_page_after_error)
    as [A [B _]].
  - reflexivity.
  - discriminate.
  - split; [exact A | exact B].
Defined.

End PageRuns.

Section AnalyzeButton.

Import AnalysisApp.

(** X22: the analyze button is enabled exactly when a photo is there,
    the question is not blank and no analysis is running, and a click on
    it then sends one request, turns the loading state on and keeps the
    former result in its cell.  The body of the request has the
    question, the occasion, the budget and the user id, and before them
    [image_base64] with the base64 text of the photo when the photo has
    one, as every photo that the upload hands over has; for a photo
    without one the member is left out.  The alert of [handleAnalyze] is
    never reached from the button. *)
Theorem analyze_click (st : AnalysisApp.State) :
  (analyze_disabled st = false <->
   (exists p, photo st = Some p) /\
   forallb is_white_space (questionText st) = false /\
   isAnalyzing st = false) /\
  (analyze_disabled st = true -> click_analyze st = (st, [])) /\
  (forall p, analyze_disabled st = false -> photo st = Some p ->
     click_analyze st =
       ({| photo := photo st; questionText := questionText st;
           occasion := occasion st; budget := budget st;
           analysisResults := analysisResults st; isAnalyzing := true |},
        [Fetch (lit "/api/analyze-style")
           (JsonObject
              (match PhotoUpload.base64 p with
               | Some b => [(lit "image_base64", JsonString b)]
               | None => []
               end ++
               [ (lit "user_question", JsonString (questionText st));
                 (lit "occasion", JsonString (occasion st));
                 (lit "budget_range", JsonString (budget st));
                 (lit "user_id", JsonString (lit "web-user")) ]))]) /\
     phase (fst (click_analyze st)) = awaiting_response /\
     (handed_by_upload p ->
        exists b,
          PhotoUpload.base64 p = Some b /\
          snd (click_analyze st) =
            [Fetch (lit "/api/analyze-style")
               (JsonObject
                  [ (lit "image_base64", JsonString b);
                    (lit "user_question", JsonString (questionText st));
                    (lit "occasion", JsonString (occasion st));
                    (lit "budget_range", JsonString (budget st));
                    (lit "user_id", JsonString (lit "web-user")) ])])).
Proof.
  split; [|split].
  - unfold analyze_disabled. rewrite trim_truthy, negb_involutive.
    destruct (photo st) as [p|]; simpl;
      destruct (forallb is_white_space (questionText st)); simpl;
      destruct (isAnalyzing st); simpl;
      (split; [intros H; try discriminate H; repeat split; eauto
              | intros [[q Q] [HB HL]]; try discriminate; reflexivity]).
  - unfold click_analyze. intros ->. reflexivity.
  - intros p D Q.
    assert (B : forallb is_white_space (questionText st) = false /\
                isAnalyzing st = false).
    { unfold analyze_disabled in D.
      rewrite trim_truthy, negb_involutive, Q in D. simpl in D.
      destruct (forallb is_white_space (questionText st)); [discriminate|].
      destruct (isAnalyzing st); [discriminate|]. split; reflexivity. }
    destruct B as [B L].
    assert (E : click_analyze st =
       ({| photo := photo st; questionText := questionText st;
           occasion := occasion st; budget := budget st;
           analysisResults := analysisResults st; isAnalyzing := true |},
        [Fetch (lit "/api/analyze-style")
           (JsonObject
              (match PhotoUpload.base64 p with
               | Some b => [(lit "image_base64", JsonString b)]
               | None => []
               end ++
               [ (lit "user_question", JsonString (questionText st));
                 (lit "occasion", JsonString (occasion st));
                 (lit "budget_range", JsonString (budget st));
                 (lit "user_id", JsonString (lit "web-user")) ]))])).
    { unfold click_analyze. rewrite D. unfold handleAnalyze.
      rewrite Q, trim_truthy, negb_involutive, B.
      destruct (PhotoUpload.base64 p); reflexivity. }
    split; [exact E|]. split.
    + rewrite E. unfold phase, AnalysisResults.render. reflexivity.
    + intros U. apply handed_by_upload_base64 in U.
      destruct (PhotoUpload.base64 p) as [b|] eqn:P; [|congruence].
      exists b. split; [reflexivity|]. rewrite E. reflexivity.
Qed.

Example ready_to_analyze_click :
  snd (click_analyze ready_to_analyze)
  = [Fetch (lit "/api/analyze-style")
       (JsonObject
          [ (lit "image_base64", JsonString (lit "aGVsbG8="));
            (lit "user_question", JsonString (lit "How do I look?"));
            (lit "occasion", JsonString (lit "work"));
            (lit "budget_range", JsonString []);
            (lit "user_id", JsonString (lit "web-user")) ])].
Proof. reflexivity. Qed.

End AnalyzeButton.

(* ================================================================== *)
(** * deploy-gemini-agent.sh: the wait for the pods *)
(* ================================================================== *)

Section PodWait.

Import DeployGeminiAgent.

Lemma passes_never_ready (n : nat) (observe : nat -> Poll) (i : nat) :
  (forall k, (k < n)%nat -> all_ready (observe (i + k)%nat) = false) ->
  passes n observe i
  = List.map (fun k => Waiting (READY (observe k)) (TOTAL (observe k)))
      (seq i n).
Proof.
  revert i. induction n as [|n IH]; intros i H; simpl; [reflexivity|].
  pose proof (H 0%nat ltac:(lia)) as H0. rewrite Nat.add_0_r in H0.
  rewrite H0. f_equal. apply IH. intros k Hk.
  replace (S i + k)%nat with (i + S k)%nat by lia. apply H. lia.
Qed.

Lemma passes_first_ready (n : nat) (observe : nat -> Poll) (i j : nat) :
  (j < n)%nat ->
  (forall k, (k < j)%nat -> all_ready (observe (i + k)%nat) = false) ->
  all_ready (observe (i + j)%nat) = true ->
  passes n observe i
  = List.map (fun k => Waiting (READY (observe k)) (TOTAL (observe k)))
      (seq i j)
    ++ [AllReady (TOTAL (observe (i + j)%nat))].
Proof.
  revert i j. induction n as [|n IH]; intros i j Hj H R; [lia|].
  simpl. destruct j as [|j].
  - rewrite Nat.add_0_r in R. rewrite R. simpl. rewrite Nat.add_0_r.
    reflexivity.
  - pose proof (H 0%nat ltac:(lia)) as H0. rewrite Nat.add_0_r in H0.
    rewrite H0. simpl. f_equal.
    replace (i + S j)%nat with (S i + j)%nat by lia.
    apply IH; [lia | | ].
    + intros k Hk. replace (S i + k)%nat with (i + S k)%nat by lia.
      apply H. lia.
    + replace (S i + j)%nat with (i + S j)%nat by lia. exact R.
Qed.

Lemma passes_length (n : nat) (observe : nat -> Poll) (i : nat) :
  (List.length (passes n observe i) <= n)%nat.
Proof.
  revert i. induction n as [|n IH]; intros i; simpl; [lia|].
  destruct (all_ready (observe i)); simpl; [lia|].
  specialize (IH (S i)). lia.
Qed.

(** X23: step 5 of the deployment script polls at most thirty times.
    If at one of the thirty passes as many containers report ready as
    there are pod lines, and there is a pod line, the loop has printed a
    waiting line (and slept) for every pass before the first such pass
    and ends there with the ready line; if at none, it prints thirty
    waiting lines and the script goes on all the same. *)
Theorem wait_for_pods_passes (observe : nat -> Poll) :
  (List.length (wait_for_pods observe) <= 30)%nat /\
  (forall j, (j < 30)%nat ->
     (forall k, (k < j)%nat -> all_ready (observe (1 + k)%nat) = false) ->
     all_ready (observe (1 + j)%nat) = true ->
     wait_for_pods observe
     = List.map (fun k => Waiting (READY (observe k)) (TOTAL (observe k)))
         (seq 1 j)
       ++ [AllReady (TOTAL (observe (1 + j)%nat))]) /\
  ((forall k, (k < 30)%nat -> all_ready (observe (1 + k)%nat) = false) ->
     wait_for_pods observe
     = List.map (fun k => Waiting (READY (observe k)) (TOTAL (observe k)))
         (seq 1 30)).
Proof.
  unfold wait_for_pods. split; [|split].
  - apply passes_length.
  - intros j Hj H R. apply passes_first_ready; assumption.
  - intros H. apply passes_never_ready. exact H.
Qed.

Lemma count_ready_concat (pods : list (list bool)) :
  Forall (fun pod => forallb id pod = true) pods ->
  List.length (filter id (List.concat pods))
  = list_sum (List.map (@List.length bool) pods).
Proof.
  induction pods as [|pod pods IH]; intros H; simpl; [reflexivity|].
  inversion H as [|? ? Hp Hps]; subst.
  rewrite filter_app, length_app, (IH Hps). f_equal.
  clear -Hp. induction pod as [|b pod IH]; simpl in *; [reflexivity|].
  apply andb_true_iff in Hp. destruct Hp as [Hb Hp]. unfold id in Hb.
  rewrite Hb. simpl. f_equal. apply IH, Hp.
Qed.

Lemma sum_of_positive_lengths (pods : list (list bool)) :
  Forall (fun pod => pod <> []) pods ->
  (list_sum (List.map (@List.length bool) pods) = List.length pods <->
   Forall (fun pod => List.length pod = 1%nat) pods) /\
  (List.length pods <= list_sum (List.map (@List.length bool) pods))%nat.
Proof.
  induction pods as [|pod pods IH]; intros H; simpl.
  - split; [split; [constructor | reflexivity] | lia].
  - inversion H as [|? ? Hp Hps]; subst.
    destruct (IH Hps) as [E L].
    assert (P : (1 <= List.length pod)%nat).
    { destruct pod; [contradiction | simpl; lia]. }
    split; [|lia]. split.
    + intros S. constructor; [lia|]. apply E. lia.
    + intros F. inversion F as [|? ? F1 F2]; subst.
      apply E in F2. lia.
Qed.

(** X24: the test of that loop counts ready containers against pods.
    When the two [kubectl] calls see the same pods, every pod has a
    container status and every container is ready, the loop finds the
    pods ready exactly when there is a pod and every pod has one
    container: with a pod of two ready containers it never does. *)
Theorem ready_test_counts_containers (pods : list (list bool)) :
  Forall (fun pod => pod <> []) pods ->
  Forall (fun pod => forallb id pod = true) pods ->
  (all_ready (poll_of pods) = true <->
   pods <> [] /\ Forall (fun pod => List.length pod = 1%nat) pods) /\
  READY (poll_of pods) = list_sum (List.map (@List.length bool) pods) /\
  TOTAL (poll_of pods) = List.length pods.
Proof.
  intros N R.
  assert (C : READY (poll_of pods)
              = list_sum (List.map (@List.length bool) pods)).
  { unfold READY, poll_of; simpl. apply count_ready_concat, R. }
  split; [|split; [exact C | reflexivity]].
  unfold all_ready. rewrite C. unfold TOTAL, poll_of; simpl.
  rewrite andb_true_iff, Nat.eqb_eq, Nat.ltb_lt.
  destruct (sum_of_positive_lengths N) as [E _]. rewrite E.
  split; intros [A B]; split; auto.
  - intros ->. simpl in B. lia.
  - destruct pods; [contradiction | simpl; lia].
Qed.

Lemma ready_test_counts_containers_witness :
  (all_ready (poll_of [[true; true]]) = true <->
   [[true; true]] <> [] /\
   Forall (fun pod => List.length pod = 1%nat) [[true; true]]) /\
  all_ready (poll_of [[true; true]]) = false /\
  all_ready (poll_of [[true]; [true]]) = true.
Proof.
  split; [|split; reflexivity].
  apply (@ready_test_counts_containers [[true; true]]).
  - repeat constructor; discriminate.
  - repeat constructor.
Defined.

End PodWait.

(* ================================================================== *)
(** * ShoppingInput: the custom-store list over time *)
(* ================================================================== *)

Section CustomList.

Import ShoppingInput.

Variable URL_hostname : jsstring -> option jsstring.

(** X25: a drop throws in one case only, when the string starts with
    [http] and the URL constructor rejects it; the exception is the
    constructor's [TypeError].  In every other case the handler returns
    normally. *)
Theorem url_drop_throws_iff (dropped : jsstring) (st : State) :
  ((exists name, handleUrlDrop URL_hostname dropped st = Throw name) <->
   startsWith dropped (lit "http") = true /\ URL_hostname dropped = None) /\
  (forall name, handleUrlDrop URL_hostname dropped st = Throw name ->
     name = lit "TypeError") /\
  ((startsWith dropped (lit "http") = false \/
    exists hostname, URL_hostname dropped = Some hostname) ->
   exists st', handleUrlDrop URL_hostname dropped st = Normal st').
Proof.
  destruct (startsWith dropped (lit "http")) eqn:H.
  - destruct (URL_hostname dropped) as [hostname|] eqn:E.
    + rewrite (@handleUrlDrop_parsed URL_hostname dropped hostname st H E).
      destruct (has_url (domain_of hostname) (draggedUrls st));
        (split; [split; [intros [n N]; discriminate
                        | intros [_ N]; discriminate]
                |split; [intros n N; discriminate | intros _; eauto]]).
    + rewrite (@handleUrlDrop_throws URL_hostname dropped st H E).
      split; [split; [auto | eauto]|].
      split; [intros n N; congruence|].
      intros [N|[h N]]; discriminate.
  - rewrite (@handleUrlDrop_ignored URL_hostname dropped st H).
    split; [split; [intros [n N]; discriminate | intros [N _]; discriminate]|].
    split; [intros n N; discriminate | intros _; eauto].
Qed.

Lemma custom_step_invariant (e : CustomEvent) (st : State) :
  NoDup (List.map url (draggedUrls st)) ->
  Forall built_by_drop (draggedUrls st) ->
  NoDup (List.map url (draggedUrls (custom_step URL_hostname e st))) /\
  Forall built_by_drop (draggedUrls (custom_step URL_hostname e st)) /\
  selectedStores (custom_step URL_hostname e st) = selectedStores st /\
  searchType (custom_step URL_hostname e st) = searchType st /\
  promptText (custom_step URL_hostname e st) = promptText st.
Proof.
  intros ND B. destruct e as [dropped|x]; simpl.
  - destruct (startsWith dropped (lit "http")) eqn:H.
    + destruct (URL_hostname dropped) as [hostname|] eqn:E.
      * rewrite (@handleUrlDrop_parsed URL_hostname dropped hostname st H E).
        destruct (has_url (domain_of hostname) (draggedUrls st)) eqn:D;
          [auto 6|].
        simpl. rewrite map_app. simpl. apply has_url_false in D.
        split; [|split; [|auto]].
        -- apply NoDup_app; [exact ND | repeat constructor; simpl; tauto |].
           intros u Hu [<-|[]]. contradiction.
        -- apply Forall_app. split; [exact B|].
           repeat constructor.
      * rewrite (@handleUrlDrop_throws URL_hostname dropped st H E). auto 6.
    + rewrite (@handleUrlDrop_ignored URL_hostname dropped st H). auto 6.
  - split; [|split; [|auto]].
    + clear B. induction (draggedUrls st) as [|y l IH]; simpl;
        [constructor|].
      inversion ND as [|? ? Hy ND']; subst.
      destruct (negb (str_eqb (url y) (url x))); simpl; [|auto].
      constructor; [|auto].
      rewrite in_map_iff. intros [z [Ez Hz]]. apply filter_In in Hz.
      apply Hy. rewrite <- Ez. apply in_map, Hz.
    + rewrite Forall_forall in *. intros z Hz. apply filter_In in Hz.
      apply B, Hz.
Qed.

(** X26: whatever is dropped on the custom-store zone and whichever
    remove buttons are clicked, in any order, the custom-store list has
    one entry per url, every entry is a store as a drop builds it from
    its url (name, globe icon, [custom] flag), and the selection, the
    search type and the prompt stay as they were. *)
Theorem custom_list_invariant (events : list CustomEvent) :
  NoDup (List.map url
           (draggedUrls (custom_run URL_hostname events ShoppingInput.initial)))
  /\
  Forall built_by_drop
    (draggedUrls (custom_run URL_hostname events ShoppingInput.initial)) /\
  selectedStores (custom_run URL_hostname events ShoppingInput.initial) = [] /\
  searchType (custom_run URL_hostname events ShoppingInput.initial)
  = type_photo /\
  promptText (custom_run URL_hostname events ShoppingInput.initial) = [].
Proof.
  assert (G : forall st,
            NoDup (List.map url (draggedUrls st)) ->
            Forall built_by_drop (draggedUrls st) ->
            NoDup (List.map url
                     (draggedUrls (custom_run URL_hostname events st))) /\
            Forall built_by_drop
              (draggedUrls (custom_run URL_hostname events st)) /\
            selectedStores (custom_run URL_hostname events st)
            = selectedStores st /\
            searchType (custom_run URL_hostname events st) = searchType st /\
            promptText (custom_run URL_hostname events st) = promptText st).
  { induction events as [|e events IH]; intros st ND B; [auto 6|].
    destruct (@custom_step_invariant e st ND B) as [ND' [B' [S [T P]]]].
    destruct (IH _ ND' B') as [A1 [A2 [A3 [A4 A5]]]].
    simpl. unfold custom_run in *. rewrite A3, A4, A5. auto 6. }
  apply (G ShoppingInput.initial); constructor.
Qed.

End CustomList.

Section CustomListExamples.

Import ShoppingInput.

Example custom_run_example :
  draggedUrls
    (custom_run Platform.URL_hostname
       [ DropLink etsy_link; DropLink (lit "httpfoo");
         DropLink (lit "https://etsy.com/"); DropLink (lit "not a link");
         DropLink (lit "http://www.wayfair.com/sofa");
         RemoveStore (custom_store (lit "etsy.com")) ]
       ShoppingInput.initial)
  = [custom_store (lit "wayfair.com")].
Proof. reflexivity. Qed.

End CustomListExamples.
